(** * xsgen: run grouping and the memoized OpenMC+ORIGEN pipeline

    A shallow embedding of the orchestration code of xsgen
    ([xsgen/buk.py], [xsgen/openmc_origen.py], [xsgen/brightlite.py]).

    Python values are modelled as follows.
    - A [State] is a namedtuple: an ordered tuple of values together with the
      field names of its class.  It is a list of (field, value) pairs;
      [len(state)] is the length of the list, [state._fields[i]] and
      [state[i]] are the two projections of the i-th pair.  Perturbation
      parameters are integers.
    - Exceptions are an inductive type [exn]; a computation that may raise
      returns a [Res].  Code that mutates the engine, the run control or the
      file system is a function from a [World] to a result and a new [World]:
      the world reached when an exception is raised is kept, as in Python.
    - Floating point numbers (fluxes, mass fractions) are exact rationals
      in the model of the pipeline, which leaves rounding, overflow and
      [nan] out; the normalization of [_parse_statepoint] is given a second
      time in float64, where these show. *)

From Stdlib Require Import Floats.PrimFloat Floats.SpecFloat Floats.FloatOps.
From Stdlib Require Import QArith.
From stdpp Require Import gmap strings list fin_maps pretty.

Local Open Scope string_scope.
Local Open Scope Z_scope.
Local Open Scope list_scope.

(** ** Exceptions *)

Inductive exn : Type :=
| ValueError | IndexError | KeyError | TypeError | AttributeError
| CalledProcessError | IOError.

Inductive Res (A : Type) : Type :=
| Ok (a : A)
| Raise (e : exn).
Arguments Ok {A} a.
Arguments Raise {A} e.

#[global] Instance exn_eq_dec : EqDecision exn.
Proof. solve_decision. Defined.

(** Sequencing of pure code that may raise. *)
Definition bindR {A B} (m : Res A) (f : A → Res B) : Res B :=
  match m with
  | Ok a => f a
  | Raise e => Raise e
  end.

Declare Scope res_scope.
Delimit Scope res_scope with res.
Notation "x <- c ;; k" := (bindR c (λ x, k))
  (at level 20, c at level 99, k at level 200, only parsing) : res_scope.
Notation "' pat <- c ;; k" := (bindR c (λ x, match x with pat => k end))
  (at level 20, pat pattern, c at level 99, k at level 200, only parsing)
  : res_scope.
Local Open Scope res_scope.

(** [l[i]] for a non-negative index. *)
Definition getitem {A} (l : list A) (i : nat) : Res A :=
  match l !! i with
  | Some x => Ok x
  | None => Raise IndexError
  end.

(** ** States *)

Abbreviation State := (list (string * Z)).

Definition fields (s : State) : list string := s.*1.
Definition values (s : State) : list Z := s.*2.

(** [getattr(state, name)] *)
Fixpoint getattr (s : State) (name : string) : Res Z :=
  match s with
  | [] => Raise AttributeError
  | (f, v) :: s' => if String.eqb f name then Ok v else getattr s' name
  end.

Definition burn_times (s : State) : Res Z := getattr s "burn_times".

(** ** [XSGenPlugin.same_except_burnup_time] *)

(** The body of [for index in range(len(state1))]. *)
Fixpoint same_loop (state1 state2 : State) (indices : list nat) : Res bool :=
  match indices with
  | [] => Ok true
  | index :: rest =>
      f <- getitem (fields state1) index;;
      if String.eqb f "burn_times" then same_loop state1 state2 rest
      else
        v1 <- getitem (values state1) index;;
        v2 <- getitem (values state2) index;;
        if negb (v1 =? v2)%Z then Ok false
        else same_loop state1 state2 rest
  end.

Definition same_except_burnup_time (state1 state2 : State) : Res bool :=
  if negb (length state1 =? length state2)%nat then Raise ValueError
  else same_loop state1 state2 (seq 0 (length state1)).

(** ** The grouping loop of [XSGenPlugin.execute] *)

Abbreviation Run := (list State).

(** [for run in runs: if same_except_burnup_time(run[0], state): ...]
    There is no [break]: every run is visited. *)
Fixpoint scan_runs (runs : list Run) (state : State) (already_existed : bool)
  : Res (list Run * bool) :=
  match runs with
  | [] => Ok ([], already_existed)
  | run :: rest =>
      r0 <- getitem run 0;;
      b <- same_except_burnup_time r0 state;;
      '(rest', ae) <- scan_runs rest state (if b then true else already_existed);;
      Ok ((if b then run ++ [state] else run) :: rest', ae)
  end.

Definition group_step (runs : list Run) (state : State) : Res (list Run) :=
  '(runs', already_existed) <- scan_runs runs state false;;
  Ok (if already_existed then runs' else runs' ++ [[state]]).

Fixpoint group_loop (runs : list Run) (states : list State) : Res (list Run) :=
  match states with
  | [] => Ok runs
  | state :: rest => runs' <- group_step runs state;; group_loop runs' rest
  end.

Definition group_runs (states : list State) : Res (list Run) :=
  group_loop [] states.

(** The parameters of a State other than the burnup-time axis. *)
Definition non_time_params (s : State) : State :=
  filter (λ p, p.1 ≠ "burn_times") s.

(** The comparison loop, read structurally on the two tuples. *)
Fixpoint same_from (t1 t2 : State) : bool :=
  match t1, t2 with
  | (f, v1) :: t1', (_, v2) :: t2' =>
      if String.eqb f "burn_times" then same_from t1' t2'
      else if negb (v1 =? v2)%Z then false else same_from t1' t2'
  | _, _ => true
  end.

(** Specification vocabulary for the grouping loop.  A run with key [k]:
    non-empty, of schema [F], every member having non-time parameters [k]. *)
Definition run_of_key (F : list string) (k : State) (run : Run) : Prop :=
  run ≠ [] ∧ Forall (λ s, fields s = F ∧ non_time_params s = k) run.

(** What one pass of the inner loop does to runs with keys [ks]. *)
Definition add_to_runs (ks : list State) (runs : list Run) (state : State)
  : list Run :=
  zip_with (λ k run, if decide (k = non_time_params state)
                     then run ++ [state] else run) ks runs.

(** The loop invariant: the runs have pairwise distinct keys and hold
    exactly the States seen so far. *)
Definition grouped (F : list string) (seen : list State) (runs : list Run)
  : Prop :=
  ∃ ks, NoDup ks ∧ Forall2 (run_of_key F) ks runs ∧ concat runs ≡ₚ seen.

(** ** Materials, tallies and statepoint files *)

(** A material is its composition [mat.comp]: nuclide id to mass fraction. *)
Abbreviation Material := (gmap Z Q).

(** [mat.comp[nuc]] *)
Definition comp_getitem (mat : Material) (nuc : Z) : Res Q :=
  match mat !! nuc with
  | Some v => Ok v
  | None => Raise KeyError
  end.

(** [tally.results]: indexed by filter bin, then score bin; the last axis
    holds (sum, sum_sq). *)
Abbreviation Tally := (list (list (Q * Q))).

Record StatePointData : Type := {
  k_combined : Q * Q;
  tallies : list Tally
}.

(** [results[::-1, :, 0].flatten()] *)
Definition flux_of_tally (t : Tally) : list Q :=
  concat (map (map fst) (reverse t)).

Definition Qsum (l : list Q) : Q := foldr Qplus 0%Q l.

(** [phi_g /= phi_g.sum()] in exact arithmetic, for a total that is not
    zero; [normalize_f64] below is the computation in float64. *)
Definition normalize (phi : list Q) : list Q :=
  let total := Qsum phi in map (λ x, x / total)%Q phi.

(** The values [_parse_statepoint] returns: [k] and [phi_g]. *)
Definition statepoint_results (sp : StatePointData) : Res (Q * list Q) :=
  let '(k, kerr) := k_combined sp in
  t_flux <- getitem (tallies sp) 0;;
  Ok (k, normalize (flux_of_tally t_flux)).

(** The source fluxes it assigns to the data sources (cinderds, eafds,
    omcds), from [sp.tallies[1:4]]. *)
Definition statepoint_src_fluxes (sp : StatePointData) : list (list Q) :=
  map (λ t, normalize (flux_of_tally t)) (take 3 (drop 1 (tallies sp))).

(** [zip] stops at the shorter sequence: data sources without a tally keep
    their flux. *)
Definition update_src (old new : list (list Q)) : list (list Q) :=
  new ++ drop (length new) old.

(** ** [_parse_statepoint] in float64

    The arrays of a statepoint are float64 arrays.  [float] is IEEE 754
    binary64 with rounding to nearest even, the arithmetic of numpy's
    float64. *)

Abbreviation Tally64 := (list (list (float * float))).

Record StatePointData64 : Type := {
  k_combined64 : float * float;
  tallies64 : list Tally64
}.

(** [results[::-1, :, 0].flatten()] *)
Definition flux_of_tally64 (t : Tally64) : list float :=
  concat (map (map fst) (reverse t)).

(** [a.sum()] of an array of fewer than eight entries: numpy adds them in
    index order, starting from zero.  (Longer arrays are added in blocks,
    which is not modelled; no statement below uses one.) *)
Definition sum_f64 (a : list float) : float := foldl PrimFloat.add 0%float a.

(** [phi_g /= phi_g.sum()] *)
Definition normalize_f64 (phi : list float) : list float :=
  let total := sum_f64 phi in map (λ x, PrimFloat.div x total) phi.

(** The values [_parse_statepoint] returns, in float64. *)
Definition statepoint_results_f64 (sp : StatePointData64)
  : Res (float * list float) :=
  let '(k, kerr) := k_combined64 sp in
  t_flux <- getitem (tallies64 sp) 0;;
  Ok (k, normalize_f64 (flux_of_tally64 t_flux)).

(** The real number a finite float stands for; [None] for [nan] and the
    infinities. *)
Definition Q_of_float (x : float) : option Q :=
  match Prim2SF x with
  | S754_zero _ => Some 0%Q
  | S754_finite sign m e =>
      let v := if sign then Z.neg m else Z.pos m in
      Some (if (0 <=? e)%Z then inject_Z (v * 2 ^ e)
            else (v # Z.to_pos (2 ^ (- e))))%Q
  | _ => None
  end.

(** The sum of finite floats as real numbers, without rounding. *)
Fixpoint exact_sum (a : list float) : option Q :=
  match a with
  | [] => Some 0%Q
  | x :: a' =>
      match Q_of_float x, exact_sum a' with
      | Some q, Some r => Some (q + r)%Q
      | _, _ => None
      end
  end.

(** The cross-section table: rows (nuclide, reaction, group constants). *)
Abbreviation XSTable := (list (Z * Z * list Q)).

(** ** [BrightliteWriter.write]: the transmutation matrix *)

(** One pass of [for temp_nuc in matlib['material'][i].comp]. *)
Definition trans_matrix_entry (name : Z → string) (threshold : Q) (i : nat)
    (trans_matrix : gmap string (list Q)) (item : Z * Q)
  : gmap string (list Q) :=
  let nuc_name := name item.1 in
  match trans_matrix !! nuc_name with
  | Some h => <[nuc_name := h ++ [(item.2 * 1000)%Q]]> trans_matrix
  | None =>
      if negb (Qle_bool item.2 threshold)
      then <[nuc_name := replicate i 0%Q ++ [(item.2 * 1000)%Q]]> trans_matrix
      else trans_matrix
  end.

(** [while i < len(matlib['material']): ...; i += 1] *)
Fixpoint trans_matrix_loop (name : Z → string) (threshold : Q) (i : nat)
    (materials : list Material) (trans_matrix : gmap string (list Q))
  : gmap string (list Q) :=
  match materials with
  | [] => trans_matrix
  | mat :: rest =>
      trans_matrix_loop name threshold (S i) rest
        (foldl (trans_matrix_entry name threshold i) trans_matrix
               (map_to_list mat))
  end.

Definition trans_matrix (name : Z → string) (threshold : Q)
    (materials : list Material) : gmap string (list Q) :=
  trans_matrix_loop name threshold 0 materials ∅.

(** ** [OpenMCOrigen.generate_run]: assembling the nuclide histories *)

Fixpoint mapR {A B} (f : A → Res B) (l : list A) : Res (list B) :=
  match l with
  | [] => Ok []
  | x :: l' => y <- f x;; ys <- mapR f l';; Ok (y :: ys)
  end.

(** [set(nucs)] after extending [nucs] with the keys of every material. *)
Definition nuc_set (mat_hist : list Material) : gset Z :=
  list_to_set (concat (map (λ mat, (map_to_list mat).*1) mat_hist)).

(** [[mat.comp[nuc] for mat in mat_hist]] *)
Definition nuc_history (mat_hist : list Material) (nuc : Z) : Res (list Q) :=
  mapR (λ mat, comp_getitem mat nuc) mat_hist.

(** [dict(pairs)]: later pairs win. *)
Definition dict_of_pairs {V} (pairs : list (string * V)) : gmap string V :=
  foldl (λ d p, <[p.1 := p.2]> d) ∅ pairs.

Definition nuc_histories (name : Z → string) (mat_hist : list Material)
  : Res (gmap string (list Q)) :=
  pairs <- mapR (λ nuc, h <- nuc_history mat_hist nuc;; Ok (name nuc, h))
                (elements (nuc_set mat_hist));;
  Ok (dict_of_pairs pairs).

(** [run_lib]: the four fixed rows and, after [run_lib.update(nucs)], one
    row per nuclide name. *)
Record Library : Type := {
  TIME : list Z;
  NEUT_PROD : list Z;
  NEUT_DEST : list Z;
  BUd : list Z;
  nuc_rows : gmap string (list Q)
}.

(** What [generate] returns: the tuple stored in [statelibs] on a cache
    hit, the tuple extended with the fuel material otherwise. *)
Inductive GenResult : Type :=
| Tuple3 (k : Q) (phi_g : list Q) (xs : XSTable)
| Tuple4 (k : Q) (phi_g : list Q) (xs : XSTable) (mat : Material).

(** [k, phi_g, xs, mat = ...] *)
Definition unpack4 (r : GenResult) : Res (Q * list Q * XSTable * Material) :=
  match r with
  | Tuple4 k phi_g xs mat => Ok (k, phi_g, xs, mat)
  | Tuple3 _ _ _ => Raise ValueError
  end.

(** The interval computed at step [i] of [generate_run]. *)
Definition transmute_time_at (run : Run) (i : nat) (state : State) : Res Z :=
  if (Z.of_nat i <? Z.of_nat (length run) - 1)%Z then
    next <- getitem run (i + 1);;
    t1 <- burn_times next;;
    t0 <- burn_times state;;
    Ok (t1 - t0)%Z
  else Ok 0%Z.

(** ** Files, processes and the world *)

Inductive File : Type :=
| FText
| FMaterials (fuel cool clad : Material)
| FStatePoint (sp : StatePointData)
| FTape4 (mat : Material)
| FTape5 (irradiation_time : Z) (flux : Q)
| FTape9 (nucs : list Z)
| FTape6 (materials : list Material).

(** A directory: file names with their contents, in [os.listdir] order. *)
Abbreviation Dir := (list (string * File)).

Fixpoint lookup_file (d : Dir) (name : string) : option File :=
  match d with
  | [] => None
  | (n, f) :: d' => if String.eqb n name then Some f else lookup_file d' name
  end.

Fixpoint set_file (d : Dir) (name : string) (f : File) : Dir :=
  match d with
  | [] => [(name, f)]
  | (n, g) :: d' =>
      if String.eqb n name then (n, f) :: d' else (n, g) :: set_file d' name f
  end.

(** The argument of [subprocess.check_call]: an argument vector, as in
    [check_call(['openmc'])], or a program name, as in
    [check_call(origen_call)]. *)
Inductive Cmd : Type :=
| Argv (args : list string)
| Prog (name : string).

Inductive Event : Type :=
| EvWrite (dir name : string) (f : File)
| EvCall (cmd : Cmd) (cwd : string) (ok : bool) (after : Dir)
| EvWriter (i : nat) (libs : Library) (fname : string).

(** The run control and the engine's configuration, with the external
    collaborators: the executables started by [subprocess.check_call], the
    cross-section cache and the name and hash functions. *)
Record RunControl : Type := {
  builddir : string;
  hash_str : list Z → string;          (* str(hash(state)) *)
  valid_nucs : Material → Material;     (* mat[self.nucs_in_cross_sections()] *)
  cool_material : Material;
  clad_material : Material;
  track_nucs : list Z;
  reactions : list Z;
  xscache : list (list Q) → list Q → Z → Z → list Q;
  origen_call : option string;
  is_thermal : bool;
  exec : Cmd → Dir → bool * Dir;      (* command, cwd before: exit ok, cwd after *)
  nucname_name : Z → string;
  states : list State;
  outdirs : list string;
  writers : nat
}.

Record World : Type := {
  statelibs : gmap (list Z) (Q * list Q * XSTable);
  fuel_material : Material;
  src_phi_g : list (list Q);
  fs : gmap string Dir;
  trace : list Event
}.

Definition set_statelibs (v : gmap (list Z) (Q * list Q * XSTable)) (w : World)
  : World :=
  {| statelibs := v; fuel_material := fuel_material w;
     src_phi_g := src_phi_g w; fs := fs w; trace := trace w |}.
Definition set_fuel_material (v : Material) (w : World) : World :=
  {| statelibs := statelibs w; fuel_material := v;
     src_phi_g := src_phi_g w; fs := fs w; trace := trace w |}.
Definition set_src_phi_g (v : list (list Q)) (w : World) : World :=
  {| statelibs := statelibs w; fuel_material := fuel_material w;
     src_phi_g := v; fs := fs w; trace := trace w |}.
Definition set_fs (v : gmap string Dir) (w : World) : World :=
  {| statelibs := statelibs w; fuel_material := fuel_material w;
     src_phi_g := src_phi_g w; fs := v; trace := trace w |}.
Definition add_event (e : Event) (w : World) : World :=
  {| statelibs := statelibs w; fuel_material := fuel_material w;
     src_phi_g := src_phi_g w; fs := fs w; trace := trace w ++ [e] |}.

(** ** Code with effects *)

Definition M (A : Type) : Type := World → Res A * World.

Definition retM {A} (a : A) : M A := λ w, (Ok a, w).
Definition bindM {A B} (m : M A) (f : A → M B) : M B := λ w,
  match m w with
  | (Ok a, w') => f a w'
  | (Raise e, w') => (Raise e, w')
  end.
Definition raise {A} (e : exn) : M A := λ w, (Raise e, w).
Definition liftR {A} (r : Res A) : M A := λ w, (r, w).
Definition gets {A} (f : World → A) : M A := λ w, (Ok (f w), w).
Definition modify (f : World → World) : M unit := λ w, (Ok tt, f w).

Declare Scope world_scope.
Delimit Scope world_scope with world.
Notation "x <- c ;; k" := (bindM c (λ x, k))
  (at level 20, c at level 99, k at level 200, only parsing) : world_scope.
Notation "' pat <- c ;; k" := (bindM c (λ x, match x with pat => k end))
  (at level 20, pat pattern, c at level 99, k at level 200, only parsing)
  : world_scope.
Notation "c ;;; k" := (bindM c (λ _, k))
  (at level 99, k at level 200, right associativity, only parsing)
  : world_scope.
Local Open Scope world_scope.

(** ** Paths and the file system *)

Fixpoint ends_with_sep (s : string) : bool :=
  match s with
  | EmptyString => false
  | String c EmptyString => Ascii.eqb c (Ascii.ascii_of_nat 47)
  | String _ s' => ends_with_sep s'
  end.

(** [os.path.join(a, b)] *)
Definition path_join (a b : string) : string :=
  if String.prefix "/" b then b
  else if String.eqb a EmptyString then b
  else if ends_with_sep a then a +:+ b
  else a +:+ "/" +:+ b.

(** [OpenMCOrigen.pwd] *)
Definition pwd (rc : RunControl) (state : State) (directory : string) : string :=
  path_join (path_join (builddir rc) (hash_str rc (values state))) directory.

(** [if not os.path.isdir(pwd): os.makedirs(pwd)] *)
Definition ensure_dir (p : string) : M unit :=
  modify (λ w, match fs w !! p with
               | Some _ => w
               | None => set_fs (<[p := []]> (fs w)) w
               end).

(** [with open(os.path.join(pwd, name), 'w') as f: f.write(...)] *)
Definition write_file (p name : string) (f : File) : M unit := λ w,
  match fs w !! p with
  | None => (Raise IOError, w)
  | Some d =>
      (Ok tt, add_event (EvWrite p name f)
                (set_fs (<[p := set_file d name f]> (fs w)) w))
  end.

(** [subprocess.check_call(cmd)] inside [with indir(cwd)] *)
Definition check_call (rc : RunControl) (cmd : Cmd) (cwd : string) : M unit :=
  λ w,
  match fs w !! cwd with
  | None => (Raise IOError, w)
  | Some d =>
      let '(ok, d') := exec rc cmd d in
      (if ok then Ok tt else Raise CalledProcessError,
       add_event (EvCall cmd cwd ok d') (set_fs (<[cwd := d']> (fs w)) w))
  end.

(** The loop of [_find_statepoint] over [os.listdir(pwd)]. *)
Fixpoint first_statepoint (names : list string) : option string :=
  match names with
  | [] => None
  | f :: rest =>
      if String.prefix "statepoint" f then Some f else first_statepoint rest
  end.

(** [_find_statepoint]; the path [os.path.join(pwd, f)] is kept as the
    pair of the directory and the file name. *)
Definition _find_statepoint (p : string) : M (option (string * string)) := λ w,
  match fs w !! p with
  | None => (Raise IOError, w)
  | Some d => (Ok ((λ f, (p, f)) <$> first_statepoint d.*1), w)
  end.

(** [sp = StatePoint(statepoint); sp.read_results()] *)
Definition read_statepoint (statepoint : option (string * string))
  : M StatePointData := λ w,
  match statepoint with
  | None => (Raise TypeError, w)
  | Some (p, name) =>
      match fs w !! p ≫= (λ d, lookup_file d name) with
      | Some (FStatePoint sp) => (Ok sp, w)
      | _ => (Raise IOError, w)
      end
  end.

(** [origen22.parse_tape6(name)] in directory [p] *)
Definition parse_tape6 (p name : string) : M (list Material) := λ w,
  match fs w !! p ≫= (λ d, lookup_file d name) with
  | Some (FTape6 materials) => (Ok materials, w)
  | _ => (Raise IOError, w)
  end.

(** [l[-1]] *)
Definition last_item {A} (l : list A) : Res A :=
  match last l with
  | Some x => Ok x
  | None => Raise IndexError
  end.

(** ** [OpenMCOrigen] *)

Definition _make_omc_input (rc : RunControl) (state : State) : M unit :=
  let p := pwd rc state "omc" in
  write_file p "settings.xml" FText;;;
  fuel <- gets fuel_material;;
  write_file p "materials.xml"
    (FMaterials (valid_nucs rc fuel) (valid_nucs rc (cool_material rc))
                (valid_nucs rc (clad_material rc)));;;
  write_file p "geometry.xml" FText;;;
  write_file p "tallies.xml" FText;;;
  write_file p "plots.xml" FText.

Definition _parse_statepoint (statepoint : option (string * string))
  : M (Q * list Q) :=
  sp <- read_statepoint statepoint;;
  modify (λ w, set_src_phi_g
                 (update_src (src_phi_g w) (statepoint_src_fluxes sp)) w);;;
  liftR (statepoint_results sp).

(** The table [_generate_xs] fills: one row per tracked nuclide and
    reaction, read from the cache once the fluxes are set. *)
Definition xs_table (rc : RunControl) (src : list (list Q)) (phi_g : list Q)
  : XSTable :=
  flat_map (λ nuc, map (λ rx, (nuc, rx, xscache rc src phi_g nuc rx))
                       (reactions rc))
           (track_nucs rc).

Definition _generate_xs (rc : RunControl) (phi_g : list Q) : M XSTable :=
  src <- gets src_phi_g;;
  retM (xs_table rc src phi_g).

Definition openmc (rc : RunControl) (state : State)
  : M (Q * list Q * XSTable) :=
  let p := pwd rc state "omc" in
  ensure_dir p;;;
  _make_omc_input rc state;;;
  statepoint <- _find_statepoint p;;
  statepoint <- match statepoint with
                | None => check_call rc (Argv ["openmc"]) p;;;
                          _find_statepoint p
                | Some _ => retM statepoint
                end;;
  ' (k, phi_g) <- _parse_statepoint statepoint;;
  xstab <- _generate_xs rc phi_g;;
  retM (k, phi_g, xstab).

(** The debugger breakpoint left in [_make_origen_input] is taken as
    continued. *)
Definition _make_origen_input (rc : RunControl) (state : State)
    (transmute_time : Z) (phi_g : list Q) : M unit :=
  let p := pwd rc state "origen" in
  fuel <- gets fuel_material;;
  write_file p "TAPE4.INP" (FTape4 fuel);;;
  let total_flux := Qsum phi_g in
  write_file p "TAPE5.INP" (FTape5 transmute_time total_flux);;;
  write_file p "TAPE9.INP" (FTape9 (track_nucs rc)).

Definition origen (rc : RunControl) (state : State) (xs : XSTable)
    (transmute_time : Z) (phi_g : list Q) : M Material :=
  let p := pwd rc state "origen" in
  ensure_dir p;;;
  _make_origen_input rc state transmute_time phi_g;;;
  let call := match origen_call rc with
              | None => if is_thermal rc then "o2_therm_linux.exe"
                        else "o2_fast_linux.exe"
              | Some c => c
              end in
  check_call rc (Prog call) p;;;
  tape6 <- parse_tape6 p "TAPE6.OUT";;
  liftR (last_item tape6).

Definition generate (rc : RunControl) (state : State) (transmute_time : Z)
  : M GenResult :=
  libs <- gets statelibs;;
  match libs !! values state with
  | Some (k, phi_g, xs) => retM (Tuple3 k phi_g xs)
  | None =>
      ' (k, phi_g, xs) <- openmc rc state;;
      modify (λ w, set_statelibs
                     (<[values state := (k, phi_g, xs)]> (statelibs w)) w);;;
      mat <- origen rc state xs transmute_time phi_g;;
      modify (set_fuel_material mat);;;
      fuel <- gets fuel_material;;
      retM (Tuple4 k phi_g xs fuel)
  end.

(** The first loop of [generate_run]; [rest] is what remains of [run] from
    index [i] on. *)
Fixpoint generate_run_loop (rc : RunControl) (run : Run) (i : nat)
    (rest : list State) (run_lib : Library) (mat_hist : list Material)
  : M (Library * list Material) :=
  match rest with
  | [] => retM (run_lib, mat_hist)
  | state :: rest' =>
      transmute_time <- liftR (transmute_time_at run i state);;
      r <- generate rc state transmute_time;;
      ' (k, phi_g, xs, mat) <- liftR (unpack4 r);;
      t <- liftR (burn_times state);;
      generate_run_loop rc run (S i) rest'
        {| TIME := TIME run_lib ++ [t];
           NEUT_PROD := NEUT_PROD run_lib ++ [0%Z];
           NEUT_DEST := NEUT_DEST run_lib ++ [0%Z];
           BUd := BUd run_lib ++ [0%Z];
           nuc_rows := nuc_rows run_lib |}
        (mat_hist ++ [mat])
  end.

Definition generate_run (rc : RunControl) (run : Run) : M Library :=
  ' (run_lib, mat_hist) <-
      generate_run_loop rc run 0 run
        {| TIME := []; NEUT_PROD := []; NEUT_DEST := []; BUd := [];
           nuc_rows := ∅ |} [];;
  nucs <- liftR (nuc_histories (nucname_name rc) mat_hist);;
  retM {| TIME := TIME run_lib; NEUT_PROD := NEUT_PROD run_lib;
          NEUT_DEST := NEUT_DEST run_lib; BUd := BUd run_lib;
          nuc_rows := nucs |}.

(** ** [XSGenPlugin.execute] *)

Inductive PyArg : Type :=
| ArgRun (run : Run)
| ArgStr (s : string).

(** A call of [rc.engine.generate_run] with positional arguments [args].
    The method is declared
    [def generate_run(self, run)]: binding any other number of positional
    arguments raises [TypeError] before the body runs. *)
Definition call_generate_run (rc : RunControl) (args : list PyArg)
  : M Library :=
  match args with
  | [ArgRun run] => generate_run rc run
  | _ => raise TypeError
  end.

(** [writer.write(libs, fname)], as the event of the delivery. *)
Definition writer_write (i : nat) (libs : Library) (fname : string) : M unit :=
  modify (add_event (EvWriter i libs fname)).

Fixpoint writers_loop (rc : RunControl) (run_num : nat) (libs : Library)
    (ws : list nat) : M unit :=
  match ws with
  | [] => retM tt
  | i :: ws' =>
      outdir <- liftR (getitem (outdirs rc) 0);;
      let basepath := path_join (builddir rc) outdir in
      let fname := basepath +:+ pretty run_num in
      writer_write i libs fname;;;
      writers_loop rc run_num libs ws'
  end.

(** [for run_num, run in enumerate(rc.runs)] *)
Fixpoint execute_loop (rc : RunControl) (run_num : nat) (runs : list Run)
  : M unit :=
  match runs with
  | [] => retM tt
  | run :: runs' =>
      outdir <- liftR (getitem (outdirs rc) 0);;
      let basepath := path_join (builddir rc) outdir in
      let fname := basepath +:+ pretty run_num in
      libs <- call_generate_run rc [ArgRun run; ArgStr fname];;
      writers_loop rc run_num libs (seq 0 (writers rc));;;
      execute_loop rc (S run_num) runs'
  end.

(** [rc.runs], assigned once and read once, is the local [runs]. *)
Definition execute (rc : RunControl) : M unit :=
  runs <- liftR (group_runs (states rc));;
  execute_loop rc 0 runs.

(** ** Reading a trace *)

(** The events of [w'] that are not yet in [w]. *)
Definition new_events (w w' : World) : list Event :=
  drop (length (trace w)) (trace w').

(** The fuel compositions written to [materials.xml], in order. *)
Definition fuel_inputs (tr : list Event) : list Material :=
  omap (λ e, match e with
             | EvWrite _ "materials.xml" (FMaterials fuel _ _) => Some fuel
             | _ => None
             end) tr.

(** The irradiation intervals written to [TAPE5.INP], in order. *)
Definition irradiation_times (tr : list Event) : list Z :=
  omap (λ e, match e with
             | EvWrite _ "TAPE5.INP" (FTape5 t _) => Some t
             | _ => None
             end) tr.

(** The processes started, in order. *)
Definition calls (tr : list Event) : list (Cmd * string) :=
  omap (λ e, match e with
             | EvCall cmd cwd _ _ => Some (cmd, cwd)
             | _ => None
             end) tr.

(** The libraries delivered to writers. *)
Definition deliveries (tr : list Event) : list Library :=
  omap (λ e, match e with
             | EvWriter _ libs _ => Some libs
             | _ => None
             end) tr.

(** The material a finished transmutation run leaves: the last material of
    [TAPE6.OUT] in its directory. *)
Definition tape6_material (d : Dir) : option Material :=
  match lookup_file d "TAPE6.OUT" with
  | Some (FTape6 materials) => last materials
  | _ => None
  end.

(** The materials produced by the transmutation runs that succeeded. *)
Definition origen_outputs (tr : list Event) : list Material :=
  omap (λ e, match e with
             | EvCall (Prog _) _ true d => tape6_material d
             | _ => None
             end) tr.


(** ** Specification vocabulary for the nuclide histories *)

(** How one step changes the history of one nuclide in
    [BrightliteWriter.write]: [v] is the nuclide's fraction in the step's
    material, if it is present. *)
Definition history_step (threshold : Q) (i : nat) (prev : option (list Q))
    (v : option Q) : option (list Q) :=
  match v, prev with
  | None, _ => prev
  | Some v, Some h => Some (h ++ [(v * 1000)%Q])
  | Some v, None =>
      if negb (Qle_bool v threshold)
      then Some (replicate i 0%Q ++ [(v * 1000)%Q])
      else None
  end.

Fixpoint history_from (threshold : Q) (nuc : Z) (i : nat)
    (materials : list Material) (prev : option (list Q)) : option (list Q) :=
  match materials with
  | [] => prev
  | mat :: rest =>
      history_from threshold nuc (S i) rest
        (history_step threshold i prev (mat !! nuc))
  end.

(** The entries a retained nuclide gets for the given steps: one, scaled
    by 1000, for each material that contains it. *)
Definition scaled_fractions (nuc : Z) (materials : list Material) : list Q :=
  omap (λ mat : Material, (λ v, v * 1000)%Q <$> mat !! nuc) materials.

(** Step [k] is the first at which [nuc] exceeds the threshold. *)
Definition first_exceeds (threshold : Q) (nuc : Z) (materials : list Material)
    (k : nat) : Prop :=
  (∀ j (mat : Material) v, (j < k)%nat → materials !! j = Some mat →
     mat !! nuc = Some v → (v <= threshold)%Q)
  ∧ ∃ (mat : Material) v, materials !! k = Some mat ∧ mat !! nuc = Some v
                          ∧ (threshold < v)%Q.

(** ** Specification vocabulary for code with effects *)

(** [w'] differs from [w] by the events [new], with the cache and the
    fuel material untouched. *)
Definition frame (w w' : World) (new : list Event) : Prop :=
  statelibs w' = statelibs w ∧ fuel_material w' = fuel_material w
  ∧ trace w' = trace w ++ new.

(** The outcome of running [m] from [w] satisfies [Q]. *)
Definition post {A} (m : M A) (w : World) (Q : Res A → World → Prop) : Prop :=
  Q (m w).1 (m w).2.

(** A statepoint artifact: a file whose name starts with [statepoint]. *)
Definition statepoint_name (n : string) : Prop :=
  ∃ rest, n = "statepoint" +:+ rest.

(** The directory holds a statepoint artifact. *)
Definition has_statepoint (d : Dir) : Prop :=
  ∃ n f, (n, f) ∈ d ∧ statepoint_name n.

(** [n] is the first statepoint artifact of [d] in listing order. *)
Definition first_artifact (d : Dir) (n : string) : Prop :=
  ∃ pre post, d.*1 = pre ++ n :: post ∧ statepoint_name n
              ∧ Forall (λ m, ¬ statepoint_name m) pre.

(** The directory of the transport stage after [_make_omc_input]. *)
Definition omc_inputs_written (rc : RunControl) (fuel : Material) (d : Dir)
  : Dir :=
  set_file
    (set_file
       (set_file
          (set_file (set_file d "settings.xml" FText) "materials.xml"
             (FMaterials (valid_nucs rc fuel) (valid_nucs rc (cool_material rc))
                         (valid_nucs rc (clad_material rc))))
          "geometry.xml" FText)
       "tallies.xml" FText)
    "plots.xml" FText.

(** The events of [_make_omc_input] in directory [p]. *)
Definition omc_input_events (rc : RunControl) (fuel : Material) (p : string)
  : list Event :=
  [ EvWrite p "settings.xml" FText;
    EvWrite p "materials.xml"
      (FMaterials (valid_nucs rc fuel) (valid_nucs rc (cool_material rc))
                  (valid_nucs rc (clad_material rc)));
    EvWrite p "geometry.xml" FText;
    EvWrite p "tallies.xml" FText;
    EvWrite p "plots.xml" FText ].

(** The directory and the events of [_make_origen_input]. *)
Definition origen_inputs_written (rc : RunControl) (fuel : Material)
    (transmute_time : Z) (phi_g : list Q) (d : Dir) : Dir :=
  set_file
    (set_file (set_file d "TAPE4.INP" (FTape4 fuel)) "TAPE5.INP"
       (FTape5 transmute_time (Qsum phi_g)))
    "TAPE9.INP" (FTape9 (track_nucs rc)).

Definition origen_input_events (rc : RunControl) (fuel : Material)
    (transmute_time : Z) (phi_g : list Q) (p : string) : list Event :=
  [ EvWrite p "TAPE4.INP" (FTape4 fuel);
    EvWrite p "TAPE5.INP" (FTape5 transmute_time (Qsum phi_g));
    EvWrite p "TAPE9.INP" (FTape9 (track_nucs rc)) ].

(** What a call of [generate] does, by cases on the cache. *)
Definition generate_outcome (rc : RunControl) (state : State)
    (transmute_time : Z) (w : World) (r : Res GenResult) (w' : World) : Prop :=
  match statelibs w !! values state with
  | Some (k, phi_g, xs) => r = Ok (Tuple3 k phi_g xs) ∧ w' = w
  | None =>
      ∃ new, trace w' = trace w ++ new
        ∧ deliveries new = []
        ∧ fuel_inputs new = [valid_nucs rc (fuel_material w)]
        ∧ match r with
          | Ok g =>
              ∃ k phi_g xs mat,
                g = Tuple4 k phi_g xs mat
                ∧ origen_outputs new = [mat]
                ∧ irradiation_times new = [transmute_time]
                ∧ fuel_material w' = mat
                ∧ statelibs w' = <[values state := (k, phi_g, xs)]> (statelibs w)
          | Raise e =>
              origen_outputs new = []
              ∧ fuel_material w' = fuel_material w
              ∧ (((openmc rc state w).1 = Raise e
                  ∧ statelibs w' = statelibs w)
                 ∨ ∃ k phi_g xs w1,
                     openmc rc state w = (Ok (k, phi_g, xs), w1)
                     ∧ (origen rc state xs transmute_time phi_g
                          (set_statelibs
                             (<[values state := (k, phi_g, xs)]> (statelibs w1))
                             w1)).1 = Raise e
                     ∧ statelibs w' =
                         <[values state := (k, phi_g, xs)]> (statelibs w))
          end
  end.

(** The intervals [generate_run] computes for the steps [rest] of [run]
    that start at index [i]. *)
Fixpoint transmute_times (run : Run) (i : nat) (rest : list State)
  : Res (list Z) :=
  match rest with
  | [] => Ok []
  | state :: rest' =>
      t <- transmute_time_at run i state;;
      ts <- transmute_times run (S i) rest';;
      Ok (t :: ts)
  end%res.

(** What the first loop of [generate_run] does from world [w]. *)
Definition threaded (rc : RunControl) (w w' : World) (new : list Event) : Prop :=
  trace w' = trace w ++ new
  ∧ deliveries new = []
  ∧ fuel_inputs new =
      valid_nucs rc <$> take (length (fuel_inputs new))
                             (fuel_material w :: origen_outputs new)
  ∧ fuel_material w' = default (fuel_material w) (last (origen_outputs new)).

Definition loop_outcome (rc : RunControl) (run : Run) (i : nat)
    (rest : list State) (mat_hist : list Material) (w : World)
    (r : Res (Library * list Material)) (w' : World) : Prop :=
  ∃ new, threaded rc w w' new
    ∧ match r with
      | Ok (_, mat_hist') =>
          mat_hist' = mat_hist ++ origen_outputs new
          ∧ length (fuel_inputs new) = length rest
          ∧ length (origen_outputs new) = length rest
          ∧ transmute_times run i rest = Ok (irradiation_times new)
      | Raise _ => True
      end.

(** The claim that every nuclide kept by [BrightliteWriter.write] has one
    entry per step. *)
Definition histories_complete (name : Z → string) (threshold : Q)
    (materials : list Material) : Prop :=
  ∀ key h, trans_matrix name threshold materials !! key = Some h →
           length h = length materials.

(** The claim about the rows kept for a material history: the row of a
    nuclide that first exceeds the threshold at step [k] has one entry per
    step, zero before step [k] and the nuclide's fraction from step [k]
    on. *)
Definition backfilled (name : Z → string) (threshold : Q)
    (materials : list Material) (rows : gmap string (list Q)) : Prop :=
  ∀ nuc h k,
    rows !! name nuc = Some h → first_exceeds threshold nuc materials k →
    length h = length materials
    ∧ (∀ j, (j < k)%nat → ∃ x, h !! j = Some x ∧ (x == 0)%Q)
    ∧ (∀ j (mat : Material) v,
         (k ≤ j)%nat → materials !! j = Some mat → mat !! nuc = Some v →
         ∃ x, h !! j = Some x ∧ (x == v)%Q).

(** ** A small run control with stub executables *)

Module Stub.

(** A statepoint whose flux tally has two groups. *)
Definition sp : StatePointData :=
  {| k_combined := (1, 0)%Q;
     tallies := [ [ [(1, 0)%Q]; [(3, 0)%Q] ] ] |}.

(** Any positive interval burns one percent of every nuclide. *)
Definition burn (mat : Material) (t : Z) : Material :=
  if (t =? 0)%Z then mat else (λ v, v * (99 # 100))%Q <$> mat.

(** [openmc] leaves a statepoint; the ORIGEN commands read TAPE4 and
    TAPE5 and leave TAPE6, unless [origen_ok] is false. *)
Definition executables (origen_ok : bool) (cmd : Cmd) (d : Dir)
  : bool * Dir :=
  match cmd with
  | Argv _ => (true, set_file d "statepoint.10.binary" (FStatePoint sp))
  | Prog _ =>
      match lookup_file d "TAPE4.INP", lookup_file d "TAPE5.INP" with
      | Some (FTape4 mat), Some (FTape5 t _) =>
          if origen_ok
          then (true, set_file d "TAPE6.OUT" (FTape6 [mat; burn mat t]))
          else (false, d)
      | _, _ => (false, d)
      end
  end.

Definition s (enrichment t : Z) : State :=
  [("enrichment", enrichment); ("burn_times", t)].

Definition rc (origen_ok : bool) : RunControl :=
  {| builddir := "build-lwr";
     hash_str := λ vs, pretty (foldl (λ a v, a * 31 + v)%Z 7%Z vs);
     valid_nucs := λ mat, mat;
     cool_material := {[ 10010%Z := 1%Q ]};
     clad_material := {[ 400900%Z := 1%Q ]};
     track_nucs := [922350%Z];
     reactions := [1%Z; 2%Z];
     xscache := λ _ phi_g _ _, phi_g;
     origen_call := None;
     is_thermal := true;
     exec := executables origen_ok;
     nucname_name := pretty;
     states := [s 4 0; s 4 100; s 4 200; s 5 0];
     outdirs := ["out"];
     writers := 1 |}.

(** The design's initial fuel loading. *)
Definition initial_fuel : Material := {[ 922350%Z := 1%Q ]}.

Definition world0 : World :=
  {| statelibs := ∅; fuel_material := initial_fuel;
     src_phi_g := [[]; []; []]; fs := ∅; trace := [] |}.

Definition result_or {A} (r : Res A) (d : A) : A :=
  match r with
  | Ok a => a
  | Raise _ => d
  end.

Definition no_library : Library :=
  {| TIME := []; NEUT_PROD := []; NEUT_DEST := []; BUd := [];
     nuc_rows := ∅ |}.

(** A run of three steps, built from the initial world. *)
Definition run3 : Run := [s 4 0; s 4 100; s 4 200].
Definition built3 : Res Library * World := generate_run (rc true) run3 world0.
Definition lib3 : Library := result_or built3.1 no_library.

(** A second run, built after the first. *)
Definition run1 : Run := [s 5 0].
Definition built1 : Res Library * World :=
  generate_run (rc true) run1 built3.2.

(** One State solved once, with working and with failing ORIGEN. *)
Definition solved : Res GenResult * World :=
  generate (rc true) (s 4 0) 100 world0.
Definition failed : Res GenResult * World :=
  generate (rc false) (s 4 0) 100 world0.

(** A world whose directory [sp_dir] holds a statepoint file. *)
Definition sp_dir : string := "build-lwr/6851/omc".
Definition world_sp : World :=
  {| statelibs := ∅; fuel_material := initial_fuel;
     src_phi_g := [[]; []; []];
     fs := {[ sp_dir := [("statepoint.10.binary", FStatePoint sp)] ]};
     trace := [] |}.

(** A breeding ORIGEN: any positive interval turns a tenth of the U-238
    into Pu-239. *)
Definition breed (mat : Material) (t : Z) : Material :=
  if (t =? 0)%Z then mat
  else
    let u := default 0%Q (mat !! 922380%Z) in
    let pu := default 0%Q (mat !! 942390%Z) in
    <[942390%Z := (pu + u * (1 # 10))%Q]>
      (<[922380%Z := (u * (9 # 10))%Q]> mat).

Definition breeder (cmd : Cmd) (d : Dir) : bool * Dir :=
  match cmd with
  | Argv _ => (true, set_file d "statepoint.10.binary" (FStatePoint sp))
  | Prog _ =>
      match lookup_file d "TAPE4.INP", lookup_file d "TAPE5.INP" with
      | Some (FTape4 mat), Some (FTape5 t _) =>
          (true, set_file d "TAPE6.OUT" (FTape6 [mat; breed mat t]))
      | _, _ => (false, d)
      end
  end.

Definition rc_breed : RunControl :=
  {| builddir := "build-fbr";
     hash_str := λ vs, pretty (foldl (λ a v, a * 31 + v)%Z 7%Z vs);
     valid_nucs := λ mat, mat;
     cool_material := {[ 110230%Z := 1%Q ]};
     clad_material := {[ 260560%Z := 1%Q ]};
     track_nucs := [922380%Z; 942390%Z];
     reactions := [1%Z; 2%Z];
     xscache := λ _ phi_g _ _, phi_g;
     origen_call := None;
     is_thermal := false;
     exec := breeder;
     nucname_name := pretty;
     states := [s 4 0; s 4 100; s 4 200];
     outdirs := ["out"];
     writers := 1 |}.

(** A fuel of U-238 with no Pu-239 yet, and the run of three steps built
    from it. *)
Definition world_breed : World :=
  {| statelibs := ∅;
     fuel_material := {[ 922380%Z := 1%Q; 942390%Z := 0%Q ]};
     src_phi_g := [[]; []; []]; fs := ∅; trace := [] |}.
Definition bred : Res Library * World := generate_run rc_breed run3 world_breed.
Definition lib_bred : Library := result_or bred.1 no_library.
Definition mats_bred : list Material :=
  origen_outputs (new_events world_breed bred.2).

(** Material histories for [BrightliteWriter.write]: nuclide 1 is gone
    at the second step; nuclide 3 appears at the second step. *)
Definition vanishing : list Material :=
  [ {[ 1%Z := (1 # 2)%Q; 2%Z := (1 # 2)%Q ]}; {[ 2%Z := 1%Q ]} ].
Definition appearing : list Material :=
  [ {[ 2%Z := 1%Q ]}; {[ 2%Z := (1 # 2)%Q; 3%Z := (1 # 2)%Q ]} ].

End Stub.


(** * Further specification vocabulary *)

(** The keys of the States, in the order of their first appearance. *)
Definition first_keys (states : list State) : list State :=
  foldl (λ ks s, if decide (non_time_params s ∈ ks) then ks
                 else ks ++ [non_time_params s]) [] states.

(** The runs a mapping keyed by the non-time parameters gives: one run
    per key, holding the States of that key in input order. *)
Definition runs_by_key (states : list State) : list Run :=
  (λ k, filter (λ s, non_time_params s = k) states) <$> first_keys states.

(** Runs that are non-empty and whose members all have [L] parameters. *)
Definition runs_of_length (L : nat) (runs : list Run) : Prop :=
  Forall (λ run, run ≠ [] ∧ Forall (λ s : State, length s = L) run) runs.

(** All States of a sequence have the same number of parameters. *)
Definition same_arity (states : list State) : Prop :=
  ∀ s1 s2 : State, s1 ∈ states → s2 ∈ states → length s1 = length s2.

(** The ORIGEN command [origen] selects. *)
Definition origen_command (rc : RunControl) : string :=
  match origen_call rc with
  | None => if is_thermal rc then "o2_therm_linux.exe" else "o2_fast_linux.exe"
  | Some c => c
  end.

(** The ORIGEN processes started: command and working directory. *)
Definition origen_calls (tr : list Event) : list (string * string) :=
  omap (λ e, match e with
             | EvCall (Prog c) cwd _ _ => Some (c, cwd)
             | _ => None
             end) tr.

(** The working directories of the transport processes started. *)
Definition openmc_calls (tr : list Event) : list string :=
  omap (λ e, match e with
             | EvCall (Argv _) cwd _ _ => Some cwd
             | _ => None
             end) tr.

(** The fluxes written to [TAPE5.INP] and the materials written to
    [TAPE4.INP], in order. *)
Definition tape5_fluxes (tr : list Event) : list Q :=
  omap (λ e, match e with
             | EvWrite _ "TAPE5.INP" (FTape5 _ flux) => Some flux
             | _ => None
             end) tr.

Definition tape4_materials (tr : list Event) : list Material :=
  omap (λ e, match e with
             | EvWrite _ "TAPE4.INP" (FTape4 mat) => Some mat
             | _ => None
             end) tr.

(** What the transport stage leaves when it returns [(k, phi_g, xs)]: a
    statepoint file, first in its directory, holding the values returned. *)
Definition transport_result (rc : RunControl) (p : string) (w w' : World)
    (k : Q) (phi_g : list Q) (xs : XSTable) : Prop :=
  ∃ d n sp,
    fs w' !! p = Some d
    ∧ first_statepoint d.*1 = Some n
    ∧ lookup_file d n = Some (FStatePoint sp)
    ∧ statepoint_results sp = Ok (k, phi_g)
    ∧ src_phi_g w' = update_src (src_phi_g w) (statepoint_src_fluxes sp)
    ∧ xs = xs_table rc (src_phi_g w') phi_g.

(** The events of the transport stage after the inputs are written: none
    when a statepoint is reused, else the process started. *)
Definition transport_tail (p : string) (reused : bool) (tail : list Event)
  : Prop :=
  if reused then tail = []
  else ∃ ok d', tail = [EvCall (Argv ["openmc"]) p ok d'].

(** The events of one solved step: transport inputs, the transport
    process unless a statepoint is reused, ORIGEN inputs, the ORIGEN
    process. *)
Definition step_events (rc : RunControl) (state : State) (t : Z)
    (fuel : Material) (phi_g : list Q) (tail : list Event) (d' : Dir)
  : list Event :=
  omc_input_events rc fuel (pwd rc state "omc")
  ++ tail
  ++ origen_input_events rc fuel t phi_g (pwd rc state "origen")
  ++ [EvCall (Prog (origen_command rc)) (pwd rc state "origen") true d'].

(** A call of [generate] that missed the cache and returned [g]. *)
Definition solved_step (rc : RunControl) (state : State) (t : Z)
    (w w' : World) (g : GenResult) (new : list Event) (mat : Material) : Prop :=
  ∃ k phi_g xs tail d' reused sp,
    g = Tuple4 k phi_g xs mat
    ∧ new = step_events rc state t (fuel_material w) phi_g tail d'
    ∧ transport_tail (pwd rc state "omc") reused tail
    ∧ statepoint_results sp = Ok (k, phi_g)
    ∧ tape6_material d' = Some mat
    ∧ trace w' = trace w ++ new
    ∧ fuel_material w' = mat
    ∧ statelibs w' = <[values state := (k, phi_g, xs)]> (statelibs w)
    ∧ ∃ d n, fs (openmc rc state w).2 !! pwd rc state "omc" = Some d
             ∧ lookup_file d n = Some (FStatePoint sp).

(** The trace of the steps [rest] of a build that returns, from index
    [i] and fuel material [fuel], with the materials it produces. *)
Inductive steps_trace (rc : RunControl) (run : Run)
  : nat → list State → Material → list Event → list Material → Prop :=
| steps_nil i fuel : steps_trace rc run i [] fuel [] []
| steps_cons i state rest fuel t phi_g tail d' reused sp k mat tr mats :
    transmute_time_at run i state = Ok t →
    transport_tail (pwd rc state "omc") reused tail →
    statepoint_results sp = Ok (k, phi_g) →
    tape6_material d' = Some mat →
    steps_trace rc run (S i) rest mat tr mats →
    steps_trace rc run i (state :: rest) fuel
      (step_events rc state t fuel phi_g tail d' ++ tr) (mat :: mats).

(** The flux tally of a statepoint has a total that is not zero, so that
    dividing by it is defined. *)
Definition nonzero_total (sp : StatePointData) : Prop :=
  ∀ t, tallies sp !! 0%nat = Some t → ¬ (Qsum (flux_of_tally t) == 0)%Q.

(** Every statepoint file of a directory, and of a world, has a flux
    tally of non-zero total. *)
Definition good_statepoints (d : Dir) : Prop :=
  ∀ n sp, (n, FStatePoint sp) ∈ d → nonzero_total sp.

Definition good_files (w : World) : Prop :=
  ∀ p d, fs w !! p = Some d → good_statepoints d.

(** The executables leave no statepoint of zero total in a directory
    that held none. *)
Definition good_executables (rc : RunControl) : Prop :=
  ∀ cmd d, good_statepoints d → good_statepoints (exec rc cmd d).2.

(** [m] leaves no statepoint of zero total in a world that held none. *)
Definition keeps_good {A} (m : M A) : Prop :=
  ∀ w, good_files w → good_files (m w).2.

(** From [w] to [w'] the cache keeps every entry and gains entries only
    under the given keys. *)
Definition cache_grows (keys : list (list Z)) (w w' : World) : Prop :=
  (∀ key v, statelibs w !! key = Some v → statelibs w' !! key = Some v)
  ∧ (∀ key, is_Some (statelibs w' !! key) →
       is_Some (statelibs w !! key) ∨ key ∈ keys).

(** The scalar rows of [lib'] are those of [lib] extended for [rest]. *)
Definition rows_extended (lib lib' : Library) (rest : list State) : Prop :=
  ∃ ts, mapR burn_times rest = Ok ts
        ∧ TIME lib' = TIME lib ++ ts
        ∧ NEUT_PROD lib' = NEUT_PROD lib ++ replicate (length rest) 0%Z
        ∧ NEUT_DEST lib' = NEUT_DEST lib ++ replicate (length rest) 0%Z
        ∧ BUd lib' = BUd lib ++ replicate (length rest) 0%Z
        ∧ nuc_rows lib' = nuc_rows lib.

(** Some material of the history holds [nuc] above the threshold. *)
Definition exceeds_somewhere (threshold : Q) (nuc : Z)
    (materials : list Material) : Prop :=
  ∃ (mat : Material) v, mat ∈ materials ∧ mat !! nuc = Some v
                        ∧ (threshold < v)%Q.

(** All materials of a history have the same nuclides. *)
Definition same_nuclides (mat_hist : list Material) : Prop :=
  ∀ (m1 m2 : Material) nuc, m1 ∈ mat_hist → m2 ∈ mat_hist →
    is_Some (m1 !! nuc) → is_Some (m2 !! nuc).

(** ** [OpenMCOrigen.context] *)

(** [ctx = dict(rc._dict); ctx.update(zip(rc.perturbation_params, state))];
    [of_int] places a State's value among the values of the run control. *)
Definition context {V} (of_int : Z → V) (rc_dict : gmap string V)
    (perturbation_params : list string) (state : State) : gmap string V :=
  foldl (λ ctx kv, <[kv.1 := of_int kv.2]> ctx) rc_dict
        (zip perturbation_params (values state)).

(** ** Where a build writes *)

(** The directory an event touches: of a file written, of a process
    started. *)
Definition event_dir (e : Event) : option string :=
  match e with
  | EvWrite dir _ _ => Some dir
  | EvCall _ cwd _ _ => Some cwd
  | EvWriter _ _ _ => None
  end.

(** The working directories of the States of a run. *)
Definition run_dirs (rc : RunControl) (run : Run) : list string :=
  run ≫= (λ s, [pwd rc s "omc"; pwd rc s "origen"]).

(** From [w] to [w'] only directories among [dirs] changed, and every
    event added is a file written or a process started in one of them. *)
Definition confined (dirs : list string) (w w' : World) : Prop :=
  (∀ p, p ∉ dirs → fs w' !! p = fs w !! p)
  ∧ ∃ new, trace w' = trace w ++ new
           ∧ Forall (λ e, ∃ d, event_dir e = Some d ∧ d ∈ dirs) new.

(** [m] is confined to [dirs] from every world, whatever its outcome. *)
Definition confines {A} (dirs : list string) (m : M A) : Prop :=
  ∀ w, confined dirs w (m w).2.
(** * Examples of the comparison and of the grouping loop *)

Example same_ex1 :
  same_except_burnup_time [("enrichment", 4); ("burn_times", 0)]
                          [("enrichment", 4); ("burn_times", 100)] = Ok true.
Proof. reflexivity. Qed.

Example same_ex2 :
  same_except_burnup_time [("enrichment", 4); ("burn_times", 0)]
                          [("enrichment", 5); ("burn_times", 0)] = Ok false.
Proof. reflexivity. Qed.

Example same_ex3 :
  same_except_burnup_time [("enrichment", 4); ("burn_times", 0)]
                          [("enrichment", 4)] = Raise ValueError.
Proof. reflexivity. Qed.

Example group_ex :
  group_runs [ [("enrichment", 4); ("burn_times", 0)];
               [("enrichment", 4); ("burn_times", 100)];
               [("enrichment", 4); ("burn_times", 200)];
               [("enrichment", 5); ("burn_times", 0)] ]
  = Ok [ [ [("enrichment", 4); ("burn_times", 0)];
           [("enrichment", 4); ("burn_times", 100)];
           [("enrichment", 4); ("burn_times", 200)] ];
         [ [("enrichment", 5); ("burn_times", 0)] ] ].
Proof. reflexivity. Qed.

(** * Run grouping *)

Lemma getitem_lookup {A} (l : list A) i x : l !! i = Some x → getitem l i = Ok x.
Proof. unfold getitem. by intros ->. Qed.


Lemma same_loop_drop (state1 state2 : State) :
  ∀ (t1 t2 : State) (i : nat),
    drop i state1 = t1 → drop i state2 = t2 → length t1 = length t2 →
    same_loop state1 state2 (seq i (length t1)) = Ok (same_from t1 t2).
Proof.
  induction t1 as [|[f v1] t1 IH]; intros [|[g v2] t2] i H1 H2 Hlen;
    simpl in Hlen; try discriminate; [done|].
  assert (state1 !! i = Some (f, v1)) as Hi1.
  { pose proof (lookup_drop state1 i 0) as H.
    by rewrite H1, Nat.add_0_r in H. }
  assert (state2 !! i = Some (g, v2)) as Hi2.
  { pose proof (lookup_drop state2 i 0) as H.
    by rewrite H2, Nat.add_0_r in H. }
  assert (drop (S i) state1 = t1) as H1'.
  { rewrite (drop_S _ _ _ Hi1) in H1. by simplify_eq. }
  assert (drop (S i) state2 = t2) as H2'.
  { rewrite (drop_S _ _ _ Hi2) in H2. by simplify_eq. }
  cbn [length seq same_loop same_from].
  rewrite (getitem_lookup (fields state1) i f)
    by (unfold fields; by rewrite list_lookup_fmap, Hi1).
  cbn [bindR].
  rewrite (getitem_lookup (values state1) i v1)
    by (unfold values; by rewrite list_lookup_fmap, Hi1).
  rewrite (getitem_lookup (values state2) i v2)
    by (unfold values; by rewrite list_lookup_fmap, Hi2).
  cbn [bindR].
  rewrite (IH t2 (S i)) by (done || lia).
  by destruct (String.eqb f "burn_times"), (negb (v1 =? v2)%Z).
Qed.

Lemma same_except_burnup_time_eq (state1 state2 : State) :
  same_except_burnup_time state1 state2 =
    if negb (length state1 =? length state2)%nat then Raise ValueError
    else Ok (same_from state1 state2).
Proof.
  unfold same_except_burnup_time.
  destruct (length state1 =? length state2)%nat eqn:E; [|done].
  apply Nat.eqb_eq in E. simpl.
  by apply same_loop_drop.
Qed.

(** C9: the comparison raises [ValueError] exactly when the two States
    have different numbers of parameters; with equal arity it returns a
    boolean and raises nothing. *)
Theorem same_except_burnup_time_raises (state1 state2 : State) :
  (same_except_burnup_time state1 state2 = Raise ValueError
     ↔ length state1 ≠ length state2)
  ∧ (length state1 = length state2 ↔
       ∃ b, same_except_burnup_time state1 state2 = Ok b).
Proof.
  rewrite same_except_burnup_time_eq.
  destruct (length state1 =? length state2)%nat eqn:E; simpl.
  - apply Nat.eqb_eq in E. split; split; try done; eauto.
  - apply Nat.eqb_neq in E. split; split; try done.
    intros [b Hb]. discriminate.
Qed.

(** On two States of one schema the structural comparison decides equality
    of the non-time parameters. *)
Lemma same_from_non_time_params (s1 s2 : State) :
  fields s1 = fields s2 →
  same_from s1 s2 = bool_decide (non_time_params s1 = non_time_params s2).
Proof.
  revert s2. induction s1 as [|[f v1] s1 IH]; intros [|[g v2] s2] Hf;
    simpl in Hf; try discriminate; [done|].
  injection Hf as -> Hf. specialize (IH s2 Hf).
  unfold non_time_params in *. cbn [same_from].
  rewrite !filter_cons. cbn [fst].
  destruct (String.eqb g "burn_times") eqn:Eg.
  - apply String.eqb_eq in Eg. subst g.
    rewrite !decide_False by (intros ?; done). done.
  - apply String.eqb_neq in Eg. rewrite !decide_True by done.
    destruct (Z.eqb_spec v1 v2) as [->|Hne]; simpl.
    + rewrite IH. apply bool_decide_ext. split; [by intros ->|].
      intros ?. by simplify_eq.
    + symmetry. apply bool_decide_eq_false. intros ?. by simplify_eq.
Qed.

Section grouping.
Variable F : list string.

Lemma scan_runs_spec ks runs state ae :
  fields state = F →
  Forall2 (run_of_key F) ks runs →
  scan_runs runs state ae =
    Ok (add_to_runs ks runs state,
        ae || bool_decide (non_time_params state ∈ ks)).
Proof.
  intros HF H. revert ae.
  induction H as [|k run ks runs [Hne Hall] H IH]; intros ae.
  { simpl. by rewrite orb_false_r. }
  destruct run as [|r0 run]; [done|].
  apply Forall_cons in Hall as [[Hr0 Hk] Hall].
  cbn [scan_runs getitem lookup list_lookup bindR].
  rewrite same_except_burnup_time_eq.
  assert (length r0 = length state) as Hlen.
  { rewrite <-(length_fmap fst r0), <-(length_fmap fst state).
    unfold fields in *. congruence. }
  rewrite (proj2 (Nat.eqb_eq _ _) Hlen). cbn [negb bindR].
  rewrite same_from_non_time_params by congruence.
  rewrite IH. cbn [bindR add_to_runs zip_with]. rewrite Hk.
  f_equal. f_equal.
  - unfold add_to_runs. f_equal.
    destruct (decide (k = non_time_params state)) as [->|Hn].
    + by rewrite bool_decide_eq_true_2.
    + by rewrite bool_decide_eq_false_2.
  - destruct (decide (k = non_time_params state)) as [->|Hn].
    + rewrite bool_decide_eq_true_2 by done.
      rewrite (bool_decide_eq_true_2 (_ ∈ _ :: _)) by set_solver.
      by rewrite !orb_true_r.
    + rewrite bool_decide_eq_false_2 by done.
      destruct ae; [done|]. simpl.
      apply bool_decide_ext. rewrite elem_of_cons. split; [by right|].
      intros [Heq|Hin]; [congruence|done].
Qed.

Lemma add_to_runs_keys ks runs state :
  fields state = F →
  Forall2 (run_of_key F) ks runs →
  Forall2 (run_of_key F) ks (add_to_runs ks runs state).
Proof.
  intros HF H. induction H as [|k run ks runs [Hne Hall] H IH];
    cbn [add_to_runs zip_with]; constructor; [|done].
  destruct (decide (k = non_time_params state)) as [->|Hn]; [|done].
  split; [by destruct run|]. apply Forall_app. split; [done|].
  by repeat constructor.
Qed.

Lemma add_to_runs_fresh ks runs state :
  length ks = length runs →
  non_time_params state ∉ ks → add_to_runs ks runs state = runs.
Proof.
  revert runs. induction ks as [|k ks IH]; intros [|run runs] Hlen Hnin;
    simpl in Hlen; try discriminate; [done|].
  cbn [add_to_runs zip_with].
  rewrite decide_False by set_solver.
  f_equal. apply IH; [lia|set_solver].
Qed.

Lemma add_to_runs_concat ks runs state :
  length ks = length runs → NoDup ks →
  non_time_params state ∈ ks →
  concat (add_to_runs ks runs state) ≡ₚ concat runs ++ [state].
Proof.
  revert runs. induction ks as [|k ks IH]; intros [|run runs] Hlen Hnd Hin;
    simpl in Hlen; try discriminate; [set_solver|].
  apply NoDup_cons in Hnd as [Hk Hnd].
  cbn [add_to_runs zip_with concat].
  destruct (decide (k = non_time_params state)) as [->|Hn].
  - fold (add_to_runs ks runs state).
    rewrite add_to_runs_fresh by (done || lia).
    rewrite <-!(assoc_L (++)).
    apply Permutation_app_head. apply Permutation_app_comm.
  - fold (add_to_runs ks runs state).
    apply elem_of_cons in Hin as [Heq|Hin]; [congruence|].
    rewrite IH by (done || lia).
    by rewrite (assoc_L (++)).
Qed.

Lemma group_step_grouped seen runs state :
  fields state = F → grouped F seen runs →
  ∃ runs', group_step runs state = Ok runs'
           ∧ grouped F (seen ++ [state]) runs'.
Proof.
  intros HF (ks & Hnd & Hks & Hperm).
  pose proof (Forall2_length _ _ _ Hks) as Hlen.
  unfold group_step. rewrite (scan_runs_spec ks) by done.
  cbn [bindR orb].
  destruct (decide (non_time_params state ∈ ks)) as [Hin|Hnin].
  - rewrite bool_decide_eq_true_2 by done.
    eexists. split; [done|]. exists ks. split_and!; [done| |].
    + by apply add_to_runs_keys.
    + rewrite add_to_runs_concat by done. by rewrite Hperm.
  - rewrite bool_decide_eq_false_2 by done.
    rewrite add_to_runs_fresh by done.
    eexists. split; [done|]. exists (ks ++ [non_time_params state]).
    split_and!.
    + apply NoDup_app. split_and!; [done| |apply NoDup_singleton].
      intros x Hx Hx'. apply list_elem_of_singleton in Hx'. congruence.
    + apply Forall2_app; [done|]. repeat constructor; done.
    + rewrite concat_app. simpl. by rewrite Hperm.
Qed.

Lemma group_loop_grouped states : ∀ seen runs,
  Forall (λ s, fields s = F) states → grouped F seen runs →
  ∃ runs', group_loop runs states = Ok runs'
           ∧ grouped F (seen ++ states) runs'.
Proof.
  induction states as [|state states IH]; intros seen runs HF Hg.
  { exists runs. by rewrite app_nil_r. }
  apply Forall_cons in HF as [HF HFs].
  destruct (group_step_grouped seen runs state HF Hg) as (runs1 & E1 & Hg1).
  cbn [group_loop]. rewrite E1. cbn [bindR].
  destruct (IH _ _ HFs Hg1) as (runs' & E & Hg').
  exists runs'. split; [done|]. by rewrite <-(assoc_L (++)) in Hg'.
Qed.
End grouping.

(** C1: on States of one schema the grouping loop returns runs that
    partition the input (their concatenation is a permutation of it), and
    two States are in the same run exactly when they are identical on
    every parameter except [burn_times]. *)
Theorem group_runs_partition (F : list string) (states : list State) :
  Forall (λ s, fields s = F) states →
  ∃ runs, group_runs states = Ok runs
    ∧ concat runs ≡ₚ states
    ∧ ∀ i j r1 r2 s1 s2,
        runs !! i = Some r1 → runs !! j = Some r2 → s1 ∈ r1 → s2 ∈ r2 →
        (i = j ↔ non_time_params s1 = non_time_params s2).
Proof.
  intros HF.
  destruct (group_loop_grouped F states [] [] HF)
    as (runs & E & ks & Hnd & Hks & Hperm).
  { exists []. split_and!; [constructor|constructor|done]. }
  exists runs. split_and!; [done|done|].
  intros i j r1 r2 s1 s2 Hi Hj H1 H2.
  destruct (Forall2_lookup_r _ _ _ _ _ Hks Hi) as (k1 & Hk1 & _ & Ha1).
  destruct (Forall2_lookup_r _ _ _ _ _ Hks Hj) as (k2 & Hk2 & _ & Ha2).
  rewrite Forall_forall in Ha1, Ha2.
  destruct (Ha1 _ H1) as [_ <-]. destruct (Ha2 _ H2) as [_ <-].
  split.
  - intros ->. congruence.
  - intros Heq. rewrite Heq in Hk1. by eapply NoDup_lookup.
Qed.

(** * Flux normalization *)

Lemma Qsum_scale (c : Q) (l : list Q) :
  (Qsum (map (λ x, x / c) l) == Qsum l / c)%Q.
Proof.
  induction l as [|x l IH]; simpl.
  - unfold Qdiv. by rewrite Qmult_0_l.
  - rewrite IH. unfold Qdiv. by rewrite Qmult_plus_distr_l.
Qed.

Lemma Qsum_normalize (phi : list Q) :
  (0 < Qsum phi)%Q → (Qsum (normalize phi) == 1)%Q.
Proof.
  intros Hpos. unfold normalize. rewrite Qsum_scale.
  apply Qmult_inv_r. intros Hz. rewrite Hz in Hpos.
  by apply Qlt_irrefl in Hpos.
Qed.

(** C7 (amended): when [_parse_statepoint] returns, the statepoint it
    read has a first tally whose group fluxes, each divided by their
    total, are the returned [phi_g]; if that total is positive, [phi_g]
    sums to 1 in exact arithmetic, the numbers being real numbers and not
    float64. *)
Theorem parse_statepoint_normalized statepoint (w w' : World) k phi_g :
  _parse_statepoint statepoint w = (Ok (k, phi_g), w') →
  ∃ sp t_flux,
    read_statepoint statepoint w = (Ok sp, w)
    ∧ tallies sp !! 0%nat = Some t_flux
    ∧ phi_g = map (λ x, x / Qsum (flux_of_tally t_flux))%Q
                  (flux_of_tally t_flux)
    ∧ ((0 < Qsum (flux_of_tally t_flux))%Q → (Qsum phi_g == 1)%Q).
Proof.
  unfold _parse_statepoint, bindM, modify, liftR.
  destruct (read_statepoint statepoint w) as [[sp|e] w1] eqn:Hread;
    [|discriminate].
  assert (w1 = w) as ->.
  { unfold read_statepoint in Hread.
    destruct statepoint as [[p name]|]; [|discriminate].
    destruct (fs w !! p ≫= _) as [[]|]; by simplify_eq. }
  unfold statepoint_results. destruct (k_combined sp) as [k0 kerr].
  unfold getitem. destruct (tallies sp !! 0%nat) as [t_flux|] eqn:Ht;
    cbn [bindR]; [|discriminate].
  intros [= <- <- <-]. exists sp, t_flux. split_and!; try done.
  apply Qsum_normalize.
Qed.

(** * Nuclide histories *)

Section trans_matrix.
Variable name : Z → string.
Hypothesis name_inj : Inj (=) (=) name.
Variable threshold : Q.

Lemma trans_matrix_entry_other i tm (item : Z * Q) nuc :
  item.1 ≠ nuc →
  trans_matrix_entry name threshold i tm item !! name nuc = tm !! name nuc.
Proof.
  intros Hne. unfold trans_matrix_entry.
  assert (name item.1 ≠ name nuc) by (intros ?; by apply Hne, name_inj).
  destruct (tm !! name item.1); [by rewrite lookup_insert_ne|].
  destruct (negb _); [by rewrite lookup_insert_ne|done].
Qed.

Lemma trans_matrix_entry_same i tm nuc v :
  trans_matrix_entry name threshold i tm (nuc, v) !! name nuc
  = history_step threshold i (tm !! name nuc) (Some v).
Proof.
  unfold trans_matrix_entry, history_step. cbn [fst snd].
  destruct (tm !! name nuc) eqn:E; [by rewrite lookup_insert_eq|].
  destruct (negb _); [by rewrite lookup_insert_eq|done].
Qed.

Lemma foldl_entry_absent i nuc items : ∀ tm,
  nuc ∉ items.*1 →
  foldl (trans_matrix_entry name threshold i) tm items !! name nuc
  = tm !! name nuc.
Proof.
  induction items as [|item items IH]; intros tm Hnin; [done|].
  cbn [fmap list_fmap] in Hnin. apply not_elem_of_cons in Hnin as [Hne Hnin].
  cbn [foldl]. rewrite IH by done.
  by apply trans_matrix_entry_other.
Qed.

Lemma foldl_entry_material i nuc (mat : Material) tm :
  foldl (trans_matrix_entry name threshold i) tm (map_to_list mat) !! name nuc
  = history_step threshold i (tm !! name nuc) (mat !! nuc).
Proof.
  pose proof (NoDup_fst_map_to_list mat) as Hnd.
  assert (∀ v, mat !! nuc = Some v ↔ (nuc, v) ∈ map_to_list mat) as Hin.
  { intros v. by rewrite elem_of_map_to_list. }
  revert tm Hnd Hin. generalize (mat !! nuc) as o.
  induction (map_to_list mat) as [|[n v] items IH]; intros o tm Hnd Hin.
  { destruct o as [v|]; [|done].
    pose proof (proj1 (Hin v) eq_refl) as Habs. by apply elem_of_nil in Habs. }
  cbn [fmap list_fmap fst] in Hnd. apply NoDup_cons in Hnd as [Hn Hnd].
  cbn [foldl]. destruct (decide (n = nuc)) as [->|Hne].
  - rewrite foldl_entry_absent by done.
    rewrite trans_matrix_entry_same.
    assert (o = Some v) as ->; [|done].
    destruct o as [v'|].
    + pose proof (proj1 (Hin v') eq_refl) as Hv'.
      apply elem_of_cons in Hv' as [?|Hv']; [by simplify_eq|].
      exfalso. apply Hn. apply list_elem_of_fmap. by exists (nuc, v').
    + assert (None = Some v) as Habs by (apply Hin; left). discriminate.
  - rewrite (IH o); [|done|].
    + by rewrite (trans_matrix_entry_other i tm (n, v)).
    + intros v'. rewrite Hin, elem_of_cons. split; [|by right].
      intros [?|?]; [by simplify_eq|done].
Qed.

Lemma trans_matrix_loop_lookup nuc materials : ∀ i tm,
  trans_matrix_loop name threshold i materials tm !! name nuc
  = history_from threshold nuc i materials (tm !! name nuc).
Proof.
  induction materials as [|mat rest IH]; intros i tm; [done|].
  cbn [trans_matrix_loop history_from].
  by rewrite IH, foldl_entry_material.
Qed.
End trans_matrix.

Lemma history_from_Some threshold nuc materials : ∀ i h,
  history_from threshold nuc i materials (Some h)
  = Some (h ++ scaled_fractions nuc materials).
Proof.
  induction materials as [|mat rest IH]; intros i h.
  { by rewrite app_nil_r. }
  cbn [history_from]. unfold scaled_fractions. cbn [omap list_omap].
  destruct (mat !! nuc) as [v|]; cbn [history_step fmap option_fmap option_map].
  - rewrite IH. by rewrite <-(assoc_L (++)).
  - by rewrite IH.
Qed.

Lemma history_from_None threshold nuc materials : ∀ i h,
  history_from threshold nuc i materials None = Some h →
  ∃ k, first_exceeds threshold nuc materials k
       ∧ h = replicate (i + k) 0%Q ++ scaled_fractions nuc (drop k materials).
Proof.
  induction materials as [|mat rest IH]; intros i h Hh; [discriminate|].
  cbn [history_from] in Hh.
  destruct (mat !! nuc) as [v|] eqn:Hv; cbn [history_step] in Hh.
  - destruct (Qle_bool v threshold) eqn:Hle; cbn [negb] in Hh.
    + apply Qle_bool_iff in Hle.
      destruct (IH _ _ Hh) as (k & [Hlow (m & v' & Hm & Hv' & Hgt)] & ->).
      exists (S k). split; [split|].
      * intros [|j] m' v'' Hj Hm' Hv''; cbn in Hm'.
        { by simplify_eq. }
        eapply (Hlow j); [lia|done|done].
      * by exists m, v'.
      * cbn [drop]. f_equal. f_equal. lia.
    + rewrite history_from_Some in Hh. injection Hh as <-.
      exists 0%nat. split; [split|].
      * intros j ? ? Hj. lia.
      * exists mat, v. split_and!; [done|done|].
        apply Qnot_le_lt. intros Hle'. apply Qle_bool_iff in Hle'. congruence.
      * rewrite Nat.add_0_r. cbn [drop]. unfold scaled_fractions.
        cbn [omap list_omap]. rewrite Hv. cbn.
        by rewrite <-(assoc_L (++)).
  - destruct (IH _ _ Hh) as (k & [Hlow (m & v' & Hm & Hv' & Hgt)] & ->).
    exists (S k). split; [split|].
    * intros [|j] m' v'' Hj Hm' Hv''; cbn in Hm'.
      { simplify_eq. }
      eapply (Hlow j); [lia|done|done].
    * by exists m, v'.
    * cbn [drop]. f_equal. f_equal. lia.
Qed.

Lemma scaled_fractions_present nuc materials :
  Forall (λ mat : Material, is_Some (mat !! nuc)) materials →
  length (scaled_fractions nuc materials) = length materials.
Proof.
  induction 1 as [|mat rest [v Hv] _ IH]; [done|].
  unfold scaled_fractions in *. cbn [omap list_omap]. rewrite Hv. cbn.
  by rewrite IH.
Qed.

(** * Reasoning about code with effects *)

Lemma post_bind {A B} (m : M A) (f : A → M B) w (Q : Res B → World → Prop) :
  post m w (λ r w1, match r with
                    | Ok a => post (f a) w1 Q
                    | Raise e => Q (Raise e) w1
                    end) →
  post (bindM m f) w Q.
Proof. unfold post, bindM. by destruct (m w) as [[a|e] w1]. Qed.

Lemma post_mono {A} (m : M A) w (Q Q' : Res A → World → Prop) :
  post m w Q → (∀ r w', Q r w' → Q' r w') → post m w Q'.
Proof. unfold post. auto. Qed.

Lemma post_eq {A} (m : M A) w r w' (Q : Res A → World → Prop) :
  m w = (r, w') → post m w Q ↔ Q r w'.
Proof. unfold post. by intros ->. Qed.

Lemma frame_refl w : frame w w [].
Proof. unfold frame. by rewrite app_nil_r. Qed.

Lemma frame_trans w w1 w2 new1 new2 :
  frame w w1 new1 → frame w1 w2 new2 → frame w w2 (new1 ++ new2).
Proof.
  intros (H1 & H2 & H3) (H4 & H5 & H6). unfold frame.
  rewrite H4, H5, H6, H1, H2, H3. by rewrite (assoc_L (++)).
Qed.

Lemma frame_new_events w w' new : frame w w' new → new_events w w' = new.
Proof.
  intros (_ & _ & H). unfold new_events. rewrite H.
  by rewrite drop_app_length.
Qed.




Lemma write_file_eq p name f w d :
  fs w !! p = Some d →
  write_file p name f w =
    (Ok tt,
     {| statelibs := statelibs w; fuel_material := fuel_material w;
        src_phi_g := src_phi_g w;
        fs := <[p := set_file d name f]> (fs w);
        trace := trace w ++ [EvWrite p name f] |}).
Proof. intros Hd. unfold write_file. by rewrite Hd. Qed.

Ltac world_simpl := cbn [statelibs fuel_material src_phi_g fs trace fst snd].

Ltac write_step :=
  erewrite write_file_eq by (world_simpl; apply lookup_insert_eq);
  world_simpl; rewrite ?insert_insert_eq, <-?(assoc_L (++)).

Lemma make_omc_input_eq rc state w d :
  fs w !! pwd rc state "omc" = Some d →
  _make_omc_input rc state w =
    (Ok tt,
     {| statelibs := statelibs w; fuel_material := fuel_material w;
        src_phi_g := src_phi_g w;
        fs := <[pwd rc state "omc" :=
                  omc_inputs_written rc (fuel_material w) d]> (fs w);
        trace := trace w
                 ++ omc_input_events rc (fuel_material w)
                      (pwd rc state "omc") |}).
Proof.
  unfold _make_omc_input, omc_inputs_written, omc_input_events.
  generalize (pwd rc state "omc"). intros p Hd.
  unfold bindM, gets.
  rewrite (write_file_eq p _ _ w d Hd). world_simpl.
  do 4 write_step. reflexivity.
Qed.

(** ** Directories *)

Lemma set_file_first_statepoint d name f :
  String.prefix "statepoint" name = false →
  first_statepoint (set_file d name f).*1 = first_statepoint d.*1.
Proof.
  intros Hname. induction d as [|[n g] d IH]; cbn.
  - by rewrite Hname.
  - destruct (String.eqb n name) eqn:E; cbn; [done|]. by rewrite IH.
Qed.

Lemma lookup_set_file_ne d name f name' :
  name ≠ name' → lookup_file (set_file d name f) name' = lookup_file d name'.
Proof.
  intros Hne. induction d as [|[n g] d IH]; cbn.
  - by rewrite (proj2 (String.eqb_neq _ _) Hne).
  - destruct (String.eqb n name) eqn:E; cbn.
    + apply String.eqb_eq in E. subst n.
      by rewrite (proj2 (String.eqb_neq _ _) Hne).
    + by rewrite IH.
Qed.

Lemma first_statepoint_prefix names n :
  first_statepoint names = Some n → String.prefix "statepoint" n = true.
Proof.
  induction names as [|f names IH]; cbn; [done|].
  destruct (String.prefix "statepoint" f) eqn:E; [|done]. by intros [= <-].
Qed.

Lemma omc_inputs_written_first_statepoint rc fuel d :
  first_statepoint (omc_inputs_written rc fuel d).*1 = first_statepoint d.*1.
Proof.
  unfold omc_inputs_written. by rewrite !set_file_first_statepoint.
Qed.

Lemma omc_inputs_written_lookup rc fuel d n :
  String.prefix "statepoint" n = true →
  lookup_file (omc_inputs_written rc fuel d) n = lookup_file d n.
Proof.
  intros Hn. unfold omc_inputs_written.
  rewrite !lookup_set_file_ne; [done|intros <-; discriminate..].
Qed.

Lemma ensure_dir_eq p w :
  ∃ w0, ensure_dir p w = (Ok tt, w0)
        ∧ fs w0 !! p = Some (default [] (fs w !! p))
        ∧ statelibs w0 = statelibs w ∧ fuel_material w0 = fuel_material w
        ∧ src_phi_g w0 = src_phi_g w ∧ trace w0 = trace w.
Proof.
  unfold ensure_dir, modify. destruct (fs w !! p) as [d|] eqn:E.
  - exists w. by rewrite E.
  - eexists. split; [done|]. cbn. by rewrite lookup_insert_eq.
Qed.

(** Reading the statepoint and building the cross-section table change
    neither the cache, the fuel material nor the trace. *)
Lemma parse_and_xs_frame rc statepoint w :
  post (bindM (_parse_statepoint statepoint)
          (λ x, match x with
                | (k, phi_g) =>
                    bindM (_generate_xs rc phi_g)
                          (λ xstab, retM (k, phi_g, xstab))
                end)) w
    (λ _ w', frame w w' []).
Proof.
  unfold post, _parse_statepoint, _generate_xs, bindM, modify, liftR, gets,
    retM, read_statepoint.
  destruct statepoint as [[p name]|]; [|apply frame_refl].
  destruct (fs w !! p ≫= _) as [[]|]; try apply frame_refl.
  destruct (statepoint_results sp) as [[k phi_g]|e]; cbn;
    unfold frame; cbn; by rewrite app_nil_r.
Qed.



Lemma find_statepoint_eq p w d :
  fs w !! p = Some d →
  _find_statepoint p w = (Ok ((λ f, (p, f)) <$> first_statepoint d.*1), w).
Proof. intros Hd. unfold _find_statepoint. by rewrite Hd. Qed.

Lemma check_call_eq rc cmd p w d :
  fs w !! p = Some d →
  check_call rc cmd p w =
    (if (exec rc cmd d).1 then Ok tt else Raise CalledProcessError,
     {| statelibs := statelibs w; fuel_material := fuel_material w;
        src_phi_g := src_phi_g w;
        fs := <[p := (exec rc cmd d).2]> (fs w);
        trace := trace w ++ [EvCall cmd p (exec rc cmd d).1 (exec rc cmd d).2] |}).
Proof.
  intros Hd. unfold check_call. rewrite Hd. by destruct (exec rc cmd d).
Qed.

Lemma openmc_post rc state w :
  post (openmc rc state) w (λ r w',
    ∃ new, frame w w' new
      ∧ fuel_inputs new = [valid_nucs rc (fuel_material w)]
      ∧ origen_outputs new = [] ∧ irradiation_times new = []
      ∧ deliveries new = []
      ∧ calls new =
          match first_statepoint
                  (default [] (fs w !! pwd rc state "omc")).*1 with
          | None => [(Argv ["openmc"], pwd rc state "omc")]
          | Some _ => []
          end).
Proof.
  unfold openmc.
  pose proof (make_omc_input_eq rc state) as Hmk.
  generalize dependent (pwd rc state "omc"). intros p Hmk.
  destruct (ensure_dir_eq p w) as (w0 & E0 & Hd0 & Hs0 & Hf0 & Hp0 & Ht0).
  apply post_bind. rewrite (post_eq _ _ _ _ _ E0).
  apply post_bind. rewrite (post_eq _ _ _ _ _ (Hmk w0 _ Hd0)).
  rewrite Hs0, Hf0, Hp0, Ht0. clear Hmk.
  set (d0 := default [] (fs w !! p)) in *.
  set (d5 := omc_inputs_written rc (fuel_material w) d0).
  apply post_bind.
  erewrite post_eq
    by (apply find_statepoint_eq; world_simpl; apply lookup_insert_eq).
  unfold d5 at 1. rewrite omc_inputs_written_first_statepoint.
  destruct (first_statepoint d0.*1) as [n|] eqn:Hfirst;
    cbn [fmap option_fmap option_map].
  - apply post_bind. unfold post at 1, retM at 1. cbn [fst snd].
    eapply post_mono; [apply parse_and_xs_frame|].
    intros r w' (H1 & H2 & H3). eexists. split.
    + unfold frame. rewrite H1, H2, H3. world_simpl.
      rewrite app_nil_r. done.
    + done.
  - apply post_bind. apply post_bind.
    erewrite post_eq
      by (apply check_call_eq; world_simpl; apply lookup_insert_eq).
    destruct (exec rc (Argv ["openmc"]) d5) as [[|] d'] eqn:Hexec;
      cbn [fst snd].
    + world_simpl.
      erewrite post_eq
        by (apply find_statepoint_eq; world_simpl; apply lookup_insert_eq).
      eapply post_mono; [apply parse_and_xs_frame|].
      intros r w' (H1 & H2 & H3). eexists. split.
      * unfold frame. rewrite H1, H2, H3. world_simpl.
        rewrite app_nil_r, <-(assoc_L (++)). done.
      * done.
    + eexists. split.
      * unfold frame. world_simpl. rewrite <-(assoc_L (++)). done.
      * done.
Qed.

Lemma make_origen_input_eq rc state t phi_g w d :
  fs w !! pwd rc state "origen" = Some d →
  _make_origen_input rc state t phi_g w =
    (Ok tt,
     {| statelibs := statelibs w; fuel_material := fuel_material w;
        src_phi_g := src_phi_g w;
        fs := <[pwd rc state "origen" :=
                  origen_inputs_written rc (fuel_material w) t phi_g d]>
                (fs w);
        trace := trace w
                 ++ origen_input_events rc (fuel_material w) t phi_g
                      (pwd rc state "origen") |}).
Proof.
  unfold _make_origen_input, origen_inputs_written, origen_input_events.
  generalize (pwd rc state "origen"). intros p Hd.
  unfold bindM, gets.
  rewrite (write_file_eq p _ _ w d Hd). world_simpl.
  do 2 write_step. reflexivity.
Qed.

Lemma parse_tape6_eq p name w d :
  fs w !! p = Some d →
  parse_tape6 p name w =
    (match lookup_file d name with
     | Some (FTape6 materials) => Ok materials
     | _ => Raise IOError
     end, w).
Proof.
  intros Hd. unfold parse_tape6. rewrite Hd. cbn.
  by destruct (lookup_file d name) as [[]|].
Qed.

Lemma origen_post rc state xs t phi_g w :
  post (origen rc state xs t phi_g) w (λ r w',
    ∃ new, frame w w' new
      ∧ fuel_inputs new = [] ∧ irradiation_times new = [t]
      ∧ deliveries new = []
      ∧ origen_outputs new =
          match r with
          | Ok mat => [mat]
          | Raise _ => []
          end).
Proof.
  unfold origen.
  pose proof (make_origen_input_eq rc state t phi_g) as Hmk.
  generalize dependent (pwd rc state "origen"). intros p Hmk.
  set (call := match origen_call rc with
               | Some c => c
               | None => _
               end).
  clearbody call.
  destruct (ensure_dir_eq p w) as (w0 & E0 & Hd0 & Hs0 & Hf0 & Hp0 & Ht0).
  apply post_bind. rewrite (post_eq _ _ _ _ _ E0).
  apply post_bind. rewrite (post_eq _ _ _ _ _ (Hmk w0 _ Hd0)).
  rewrite Hs0, Hf0, Hp0, Ht0. clear Hmk.
  set (d0 := default [] (fs w !! p)) in *.
  set (d3 := origen_inputs_written rc (fuel_material w) t phi_g d0).
  apply post_bind.
  erewrite post_eq
    by (apply check_call_eq; world_simpl; apply lookup_insert_eq).
  destruct (exec rc (Prog call) d3) as [[|] d'] eqn:Hexec; cbn [fst snd].
  - world_simpl. apply post_bind.
    erewrite post_eq
      by (apply parse_tape6_eq; world_simpl; apply lookup_insert_eq).
    unfold post, liftR, last_item. cbn [fst snd].
    destruct (lookup_file d' "TAPE6.OUT") as [f|] eqn:Ht6.
    2:{ eexists. split.
        - unfold frame. world_simpl. rewrite <-(assoc_L (++)). done.
        - cbn. unfold tape6_material. rewrite Ht6. done. }
    destruct f;
      try (eexists; split;
           [unfold frame; world_simpl; rewrite <-(assoc_L (++)); done
           |cbn; unfold tape6_material; rewrite Ht6; done]).
    destruct (last materials) as [mat|] eqn:Hlast;
      (eexists; split;
       [unfold frame; world_simpl; rewrite <-(assoc_L (++)); done
       |cbn; unfold tape6_material; rewrite Ht6, Hlast; done]).
  - eexists. split.
    + unfold frame. world_simpl. rewrite <-(assoc_L (++)). done.
    + done.
Qed.

Lemma modify_eq f w : modify f w = (Ok tt, f w).
Proof. done. Qed.

Lemma gets_eq {A} (f : World → A) w : gets f w = (Ok (f w), w).
Proof. done. Qed.

Lemma retM_eq {A} (a : A) w : retM a w = (Ok a, w).
Proof. done. Qed.

Lemma liftR_eq {A} (r : Res A) w : liftR r w = (r, w).
Proof. done. Qed.

Lemma omap_events_app {A} (f : Event → option A) (l1 l2 : list Event) :
  omap f (l1 ++ l2) = omap f l1 ++ omap f l2.
Proof. apply omap_app. Qed.

Lemma generate_post rc state t w :
  post (generate rc state t) w (generate_outcome rc state t w).
Proof.
  unfold generate, generate_outcome.
  apply post_bind. rewrite (post_eq _ _ _ _ _ (gets_eq _ _)).
  destruct (statelibs w !! values state) as [[[k phi_g] xs]|] eqn:Hlib.
  { by rewrite (post_eq _ _ _ _ _ (retM_eq _ _)). }
  pose proof (openmc_post rc state w) as Homc. unfold post in Homc.
  apply post_bind.
  destruct (openmc rc state w) as [[[[k phi_g] xs]|e] w1] eqn:Eomc;
    rewrite (post_eq _ _ _ _ _ Eomc); cbn [fst snd] in Homc;
    destruct Homc as (new1 & (Hs1 & Hf1 & Ht1) & Hfi1 & Hoo1 & Hit1 & Hdl1 & _).
  2:{ exists new1. split_and!; try done. by left. }
  apply post_bind. rewrite (post_eq _ _ _ _ _ (modify_eq _ _)).
  set (w2 := set_statelibs _ w1).
  assert (statelibs w2 = <[values state := (k, phi_g, xs)]> (statelibs w))
    as Hs2' by (unfold w2; cbn; by rewrite Hs1).
  assert (fuel_material w2 = fuel_material w) as Hf2' by done.
  assert (trace w2 = trace w ++ new1) as Ht2' by done.
  pose proof (origen_post rc state xs t phi_g w2) as Hori. unfold post in Hori.
  apply post_bind.
  destruct (origen rc state xs t phi_g w2) as [[mat|e] w3] eqn:Eori;
    rewrite (post_eq _ _ _ _ _ Eori); cbn [fst snd] in Hori;
    destruct Hori as (new2 & (Hs2 & Hf2 & Ht2) & Hfi2 & Hit2 & Hdl2 & Hoo2).
  - apply post_bind. rewrite (post_eq _ _ _ _ _ (modify_eq _ _)).
    apply post_bind. rewrite (post_eq _ _ _ _ _ (gets_eq _ _)).
    rewrite (post_eq _ _ _ _ _ (retM_eq _ _)).
    exists (new1 ++ new2).
    unfold fuel_inputs, origen_outputs, irradiation_times, deliveries in *.
    rewrite !omap_events_app, Hfi1, Hfi2, Hoo1, Hoo2, Hit1, Hit2, Hdl1, Hdl2.
    split_and!; try done.
    { cbn [trace set_fuel_material]. by rewrite Ht2, Ht2', (assoc_L (++)). }
    exists k, phi_g, xs, mat. split_and!; try done.
    cbn [statelibs set_fuel_material]. by rewrite Hs2.
  - exists (new1 ++ new2).
    unfold fuel_inputs, origen_outputs, irradiation_times, deliveries in *.
    rewrite !omap_events_app, Hfi1, Hfi2, Hoo1, Hoo2, Hdl1, Hdl2.
    split_and!; try done.
    { by rewrite Ht2, Ht2', (assoc_L (++)). }
    { by rewrite Hf2. }
    right. exists k, phi_g, xs, w1. split_and!; try done.
    + fold w2. by rewrite Eori.
    + by rewrite Hs2.
Qed.

Lemma default_last_cons {A} (a x : A) (l : list A) :
  default a (last (x :: l)) = default x (last l).
Proof.
  destruct l as [|y l]; [done|]. rewrite last_cons.
  by destruct (last (y :: l)).
Qed.

Lemma threaded_refl rc w : threaded rc w w [].
Proof. unfold threaded. cbn. by rewrite app_nil_r. Qed.

Lemma generate_run_loop_post rc run : ∀ rest i run_lib mat_hist w,
  post (generate_run_loop rc run i rest run_lib mat_hist) w
       (loop_outcome rc run i rest mat_hist w).
Proof.
  induction rest as [|state rest IH]; intros i run_lib mat_hist w.
  { cbn [generate_run_loop]. rewrite (post_eq _ _ _ _ _ (retM_eq _ _)).
    exists []. split; [apply threaded_refl|]. cbn. by rewrite app_nil_r. }
  cbn [generate_run_loop]. unfold loop_outcome. cbn [transmute_times].
  apply post_bind. rewrite (post_eq _ _ _ _ _ (liftR_eq _ _)).
  destruct (transmute_time_at run i state) as [t|e] eqn:Et.
  2:{ exists []. split; [apply threaded_refl|done]. }
  cbn [bindR].
  pose proof (generate_post rc state t w) as Hg.
  unfold post, generate_outcome in Hg.
  apply post_bind.
  destruct (generate rc state t w) as [r1 w1] eqn:Eg.
  rewrite (post_eq _ _ _ _ _ Eg). cbn [fst snd] in Hg.
  destruct (statelibs w !! values state) as [[[k phi_g] xs]|].
  { destruct Hg as [-> ->].
    apply post_bind. rewrite (post_eq _ _ _ _ _ (liftR_eq _ _)).
    cbn [unpack4]. exists []. split; [apply threaded_refl|done]. }
  destruct Hg as (new1 & Ht1 & Hdl1 & Hfi1 & Hg).
  destruct r1 as [g|e].
  2:{ destruct Hg as (Hoo1 & Hfm1 & _).
      exists new1. split; [|done]. unfold threaded.
      rewrite Hfi1, Hoo1. cbn. by split_and!. }
  destruct Hg as (k & phi_g & xs & mat & -> & Hoo1 & Hit1 & Hfm1 & _).
  apply post_bind. rewrite (post_eq _ _ _ _ _ (liftR_eq _ _)).
  cbn [unpack4].
  apply post_bind. rewrite (post_eq _ _ _ _ _ (liftR_eq _ _)).
  destruct (burn_times state) as [bt|e] eqn:Ebt.
  2:{ exists new1. split; [|done]. unfold threaded.
      rewrite Hfi1, Hoo1. cbn. by split_and!. }
  eapply post_mono; [apply IH|]. clear IH.
  intros r w' (new2 & (Ht2 & Hdl2 & Hfi2 & Hfm2) & Hr).
  exists (new1 ++ new2).
  assert (fuel_inputs (new1 ++ new2)
          = valid_nucs rc (fuel_material w) :: fuel_inputs new2) as Hfi.
  { unfold fuel_inputs in *. by rewrite omap_events_app, Hfi1. }
  assert (origen_outputs (new1 ++ new2) = mat :: origen_outputs new2) as Hoo.
  { unfold origen_outputs in *. by rewrite omap_events_app, Hoo1. }
  assert (irradiation_times (new1 ++ new2) = t :: irradiation_times new2)
    as Hit.
  { unfold irradiation_times in *. by rewrite omap_events_app, Hit1. }
  split.
  - unfold threaded. rewrite Hfi, Hoo. split_and!.
    + by rewrite Ht2, Ht1, (assoc_L (++)).
    + unfold deliveries in *. by rewrite omap_events_app, Hdl1, Hdl2.
    + cbn [length take fmap list_fmap]. f_equal.
      rewrite Hfm1 in Hfi2. done.
    + rewrite default_last_cons, Hfm2, Hfm1. done.
  - destruct r as [[lib mh']|e]; [|done].
    destruct Hr as (-> & Hl1 & Hl2 & Htt).
    rewrite Hfi, Hoo, Hit, Htt. cbn [bindR length].
    split_and!; try done; try (f_equal; done).
    by rewrite <-(assoc_L (++)).
Qed.

(** * The run library builder *)

Lemma generate_run_post rc run w :
  post (generate_run rc run) w (λ r w',
    ∃ new, threaded rc w w' new
      ∧ match r with
        | Ok lib =>
            length (fuel_inputs new) = length run
            ∧ length (origen_outputs new) = length run
            ∧ transmute_times run 0 run = Ok (irradiation_times new)
            ∧ nuc_histories (nucname_name rc) (origen_outputs new)
              = Ok (nuc_rows lib)
        | Raise _ => True
        end).
Proof.
  unfold generate_run. apply post_bind.
  eapply post_mono; [apply generate_run_loop_post|].
  intros [[run_lib mat_hist]|e] w' (new & Hth & Hr); [|by exists new].
  destruct Hr as (-> & Hl1 & Hl2 & Htt). cbn [app] in *.
  apply post_bind. rewrite (post_eq _ _ _ _ _ (liftR_eq _ _)).
  destruct (nuc_histories _ _) as [rows|e] eqn:Erows; [|by exists new].
  rewrite (post_eq _ _ _ _ _ (retM_eq _ _)). by exists new.
Qed.

Lemma threaded_new_events rc w w' new :
  threaded rc w w' new → new_events w w' = new.
Proof.
  intros (H & _). unfold new_events. rewrite H. by rewrite drop_app_length.
Qed.

(** C3 (amended): in every build, the fuel composition written to the
    k-th [materials.xml] is derived from the fuel material current when
    the build starts for k = 0 and from the material produced by the
    (k-1)-th transmutation run for k > 0; a build that returns wrote one
    transport input and obtained one transmutation output per step. *)
Theorem material_threading rc run w :
  let new := new_events w (generate_run rc run w).2 in
  fuel_inputs new =
    valid_nucs rc <$> take (length (fuel_inputs new))
                           (fuel_material w :: origen_outputs new)
  ∧ (∀ lib, (generate_run rc run w).1 = Ok lib →
       length (fuel_inputs new) = length run
       ∧ length (origen_outputs new) = length run).
Proof.
  pose proof (generate_run_post rc run w) as H. unfold post in H.
  destruct H as (new & Hth & Hr). cbn zeta.
  rewrite (threaded_new_events _ _ _ _ Hth).
  destruct Hth as (_ & _ & Hfi & _). split; [done|].
  intros lib Hlib. rewrite Hlib in Hr. by destruct Hr as (? & ? & _).
Qed.

Lemma transmute_times_lookup run : ∀ rest i ts,
  transmute_times run i rest = Ok ts →
  length ts = length rest
  ∧ ∀ j s, rest !! j = Some s →
      ∃ t, ts !! j = Some t ∧ transmute_time_at run (i + j) s = Ok t.
Proof.
  induction rest as [|state rest IH]; intros i ts Hts; cbn in Hts.
  { injection Hts as <-. split; [done|]. intros j s Hj. done. }
  destruct (transmute_time_at run i state) as [t|e] eqn:Et; [|done].
  cbn [bindR] in Hts.
  destruct (transmute_times run (S i) rest) as [ts'|e] eqn:Ets; [|done].
  cbn [bindR] in Hts. injection Hts as <-.
  destruct (IH _ _ Ets) as [Hlen Hlook]. split; [cbn; by rewrite Hlen|].
  intros [|j] s Hj; cbn in Hj.
  - injection Hj as <-. exists t. by rewrite Nat.add_0_r.
  - destruct (Hlook j s Hj) as (t' & Ht' & Htt). exists t'.
    split; [done|]. by rewrite <-Nat.add_succ_comm.
Qed.

(** C5: after a build that returns, the intervals the run loop computed
    and passed on, one per step, are those written to [TAPE5.INP]: for a
    step with a successor the successor's [burn_times] minus the step's
    own, and 0 for the last step. *)
Theorem generate_run_intervals rc run w lib w' :
  generate_run rc run w = (Ok lib, w') →
  let ts := irradiation_times (new_events w w') in
  transmute_times run 0 run = Ok ts
  ∧ length ts = length run
  ∧ (∀ i s s', run !! i = Some s → run !! S i = Some s' →
       ∃ t t', burn_times s = Ok t ∧ burn_times s' = Ok t'
               ∧ ts !! i = Some (t' - t))
  ∧ (∀ i s, run !! i = Some s → run !! S i = None → ts !! i = Some 0).
Proof.
  intros Hrun. pose proof (generate_run_post rc run w) as H.
  unfold post in H. rewrite Hrun in H. cbn [fst snd] in H.
  destruct H as (new & Hth & _ & _ & Htt & _). cbn zeta.
  rewrite (threaded_new_events _ _ _ _ Hth).
  destruct (transmute_times_lookup _ _ _ _ Htt) as [Hlen Hlook].
  split_and!; [done|done| |].
  - intros i s s' Hs Hs'.
    destruct (Hlook i s Hs) as (t & Ht & Hat). cbn [Nat.add] in Hat.
    pose proof (lookup_lt_Some _ _ _ Hs') as Hlt.
    unfold transmute_time_at in Hat.
    rewrite (proj2 (Z.ltb_lt _ _)) in Hat by lia.
    rewrite Nat.add_1_r in Hat. unfold getitem in Hat. rewrite Hs' in Hat.
    cbn [bindR] in Hat.
    destruct (burn_times s') as [t1|]; [|done]. cbn [bindR] in Hat.
    destruct (burn_times s) as [t0|]; [|done]. cbn [bindR] in Hat.
    injection Hat as <-. by exists t0, t1.
  - intros i s Hs Hnone.
    destruct (Hlook i s Hs) as (t & Ht & Hat). cbn [Nat.add] in Hat.
    apply lookup_ge_None in Hnone.
    unfold transmute_time_at in Hat.
    rewrite (proj2 (Z.ltb_ge _ _)) in Hat by lia.
    by injection Hat as <-.
Qed.

(** * The transport stage and the cache *)

(** When a statepoint is already in the directory, [openmc] returns what
    that file holds. *)
Lemma openmc_reuse rc state w n sp :
  first_statepoint (default [] (fs w !! pwd rc state "omc")).*1 = Some n →
  lookup_file (default [] (fs w !! pwd rc state "omc")) n
    = Some (FStatePoint sp) →
  (openmc rc state w).1 =
    match statepoint_results sp with
    | Ok (k, phi_g) =>
        Ok (k, phi_g,
            xs_table rc (update_src (src_phi_g w) (statepoint_src_fluxes sp))
                     phi_g)
    | Raise e => Raise e
    end.
Proof.
  unfold openmc.
  pose proof (make_omc_input_eq rc state) as Hmk.
  generalize dependent (pwd rc state "omc"). intros p Hmk Hfirst Hfile.
  destruct (ensure_dir_eq p w) as (w0 & E0 & Hd0 & Hs0 & Hf0 & Hp0 & Ht0).
  set (d0 := default [] (fs w !! p)) in *.
  unfold bindM at 1. rewrite E0.
  unfold bindM at 1. rewrite (Hmk w0 _ Hd0). clear Hmk.
  unfold bindM at 1.
  erewrite find_statepoint_eq by (world_simpl; apply lookup_insert_eq).
  rewrite omc_inputs_written_first_statepoint, Hfirst.
  cbn [fmap option_fmap option_map].
  unfold bindM at 1. rewrite retM_eq.
  unfold _parse_statepoint, bindM, read_statepoint.
  world_simpl. rewrite lookup_insert_eq. cbn [mbind option_bind].
  rewrite omc_inputs_written_lookup by (by eapply first_statepoint_prefix).
  rewrite Hfile. rewrite modify_eq, liftR_eq.
  destruct (statepoint_results sp) as [[k phi_g]|e]; [|done].
  unfold _generate_xs, bindM. rewrite gets_eq, retM_eq. cbn [fst].
  unfold set_src_phi_g. world_simpl. by rewrite Hp0.
Qed.

Lemma prefix_append (s1 : string) : ∀ s2 : string,
  String.prefix s1 s2 = true ↔ ∃ rest, s2 = s1 +:+ rest.
Proof.
  induction s1 as [|a s1 IH]; intros s2.
  - split; [intros _; by exists s2|]. intros _. by destruct s2.
  - destruct s2 as [|b s2]; cbn [String.prefix].
    + split; [done|]. by intros [rest ?].
    + destruct (Ascii.ascii_dec a b) as [->|Hne].
      * rewrite IH. split; intros [rest Hrest]; exists rest.
        -- rewrite Hrest. reflexivity.
        -- change (String b s1 +:+ rest) with (String b (s1 +:+ rest))
             in Hrest.
           by injection Hrest.
      * split; [done|]. intros [rest Hrest].
        change (String a s1 +:+ rest) with (String a (s1 +:+ rest))
          in Hrest.
        congruence.
Qed.

Lemma first_statepoint_spec names :
  match first_statepoint names with
  | None => Forall (λ n, String.prefix "statepoint" n = false) names
  | Some n =>
      ∃ pre post, names = pre ++ n :: post
                  ∧ String.prefix "statepoint" n = true
                  ∧ Forall (λ n, String.prefix "statepoint" n = false) pre
  end.
Proof.
  induction names as [|f names IH]; cbn [first_statepoint]; [constructor|].
  destruct (String.prefix "statepoint" f) eqn:Hf.
  - exists [], names. by split_and!.
  - destruct (first_statepoint names) as [n|].
    + destruct IH as (pre & post & -> & Hn & Hpre).
      exists (f :: pre), post. split_and!; [done|done|by constructor].
    + by constructor.
Qed.

Lemma not_statepoint_name n :
  String.prefix "statepoint" n = false → ¬ statepoint_name n.
Proof.
  intros Hf Hn. apply prefix_append in Hn. congruence.
Qed.

Lemma first_statepoint_artifact (d : Dir) n :
  first_statepoint d.*1 = Some n → first_artifact d n.
Proof.
  intros Hfirst. pose proof (first_statepoint_spec d.*1) as H.
  rewrite Hfirst in H. destruct H as (pre & post & Hd & Hn & Hpre).
  exists pre, post. split_and!; [done|by apply prefix_append|].
  eapply Forall_impl; [exact Hpre|]. apply not_statepoint_name.
Qed.

Lemma first_statepoint_None (d : Dir) :
  first_statepoint d.*1 = None ↔ ¬ has_statepoint d.
Proof.
  pose proof (first_statepoint_spec d.*1) as H.
  destruct (first_statepoint d.*1) as [n|] eqn:Hfirst.
  - split; [done|]. intros Hno. exfalso. apply Hno.
    destruct H as (pre & post & Hd & Hn & _).
    assert (n ∈ d.*1) as Hin.
    { rewrite Hd. apply elem_of_app. right. left. }
    apply list_elem_of_fmap in Hin as ([n' f] & -> & Hin).
    exists n', f. split; [done|]. by apply prefix_append.
  - split; [|done]. intros _ (n & f & Hin & Hn).
    rewrite Forall_forall in H.
    apply (not_statepoint_name n); [|done]. apply H.
    apply list_elem_of_fmap. by exists (n, f).
Qed.

(** C8: [openmc] starts the transport solver exactly when the State's
    working directory holds no statepoint artifact, that is no file whose
    name starts with [statepoint] (a missing directory is created empty),
    and then starts it once.  When the directory holds an artifact, no
    process is started and the values returned are read from the first
    artifact of the listing. *)
Theorem openmc_runs_solver_iff rc state w :
  let p := pwd rc state "omc" in
  let d := default [] (fs w !! p) in
  let started := calls (new_events w (openmc rc state w).2) in
  ((Argv ["openmc"], p) ∈ started ↔ ¬ has_statepoint d)
  ∧ (¬ has_statepoint d → started = [(Argv ["openmc"], p)])
  ∧ (has_statepoint d →
       started = []
       ∧ ∃ n, first_artifact d n
           ∧ ∀ sp, lookup_file d n = Some (FStatePoint sp) →
               (openmc rc state w).1 =
                 match statepoint_results sp with
                 | Ok (k, phi_g) =>
                     Ok (k, phi_g,
                         xs_table rc
                           (update_src (src_phi_g w)
                              (statepoint_src_fluxes sp))
                           phi_g)
                 | Raise e => Raise e
                 end).
Proof.
  cbn zeta. pose proof (openmc_post rc state w) as H. unfold post in H.
  destruct H as (new & Hfr & _ & _ & _ & _ & Hcalls).
  rewrite (frame_new_events _ _ _ Hfr), Hcalls.
  pose proof (first_statepoint_None
                (default [] (fs w !! pwd rc state "omc"))) as Hnone.
  destruct (first_statepoint _) as [n|] eqn:Hfirst.
  - assert (has_statepoint (default [] (fs w !! pwd rc state "omc")))
      as Hhas.
    { apply first_statepoint_artifact in Hfirst
        as (pre & post & Hd & Hn & _).
      assert (n ∈ (default [] (fs w !! pwd rc state "omc")).*1) as Hin.
      { rewrite Hd. apply elem_of_app. right. left. }
      apply list_elem_of_fmap in Hin as ([n' f] & -> & Hin).
      by exists n', f. }
    split_and!.
    + split; [|done]. intros Hin. by apply elem_of_nil in Hin.
    + done.
    + intros _. split; [done|]. exists n.
      split; [by apply first_statepoint_artifact|].
      intros sp Hsp. by apply openmc_reuse with n.
  - assert (¬ has_statepoint (default [] (fs w !! pwd rc state "omc")))
      as Hno by (by apply Hnone).
    split_and!; [|done|done].
    split; [done|]. intros _. apply list_elem_of_singleton. done.
Qed.

(** C4 (amended): when [generate] raises, either the transport stage
    raised and the cache is unchanged, or the transport stage returned,
    its result was stored under the State, and the transmutation stage
    raised. *)
Theorem generate_failure_cache rc state t w e w' :
  generate rc state t w = (Raise e, w') →
  ((openmc rc state w).1 = Raise e ∧ statelibs w' = statelibs w)
  ∨ (∃ k phi_g xs w1,
       openmc rc state w = (Ok (k, phi_g, xs), w1)
       ∧ (origen rc state xs t phi_g
            (set_statelibs (<[values state := (k, phi_g, xs)]> (statelibs w1))
               w1)).1 = Raise e
       ∧ statelibs w' = <[values state := (k, phi_g, xs)]> (statelibs w)).
Proof.
  intros Hgen. pose proof (generate_post rc state t w) as H.
  unfold post, generate_outcome in H. rewrite Hgen in H. cbn [fst snd] in H.
  destruct (statelibs w !! values state) as [[[k phi_g] xs]|].
  { by destruct H. }
  destruct H as (new & _ & _ & _ & _ & _ & H). done.
Qed.

(** C2: a call of [generate] that misses the cache and returns gives a
    4-tuple and stores the 3-tuple of its first components; every later
    call for the State returns that 3-tuple, leaving the world, and so
    the trace of processes, as it is.  The two results differ. *)
Theorem generate_cached_result rc state t w r w' :
  statelibs w !! values state = None →
  generate rc state t w = (Ok r, w') →
  ∃ k phi_g xs mat,
    r = Tuple4 k phi_g xs mat
    ∧ statelibs w' !! values state = Some (k, phi_g, xs)
    ∧ ∀ t', generate rc state t' w' = (Ok (Tuple3 k phi_g xs), w')
            ∧ Tuple3 k phi_g xs ≠ r.
Proof.
  intros Hmiss Hgen. pose proof (generate_post rc state t w) as H.
  unfold post, generate_outcome in H. rewrite Hgen, Hmiss in H.
  cbn [fst snd] in H.
  destruct H as (new & _ & _ & _ & k & phi_g & xs & mat & -> & _ & _ & _ & Hs).
  exists k, phi_g, xs, mat.
  assert (statelibs w' !! values state = Some (k, phi_g, xs)) as Hhit.
  { rewrite Hs. apply lookup_insert_eq. }
  split_and!; [done|done|]. intros t'. split; [|done].
  pose proof (generate_post rc state t' w') as H'.
  unfold post, generate_outcome in H'. rewrite Hhit in H'.
  destruct (generate rc state t' w') as [r' w'']. cbn [fst snd] in H'.
  by destruct H' as [-> ->].
Qed.

(** * [execute] *)

Lemma execute_loop_first rc run_num run runs w :
  execute_loop rc run_num (run :: runs) w =
    (match getitem (outdirs rc) 0 with
     | Ok _ => Raise TypeError
     | Raise e => Raise e
     end, w).
Proof.
  cbn [execute_loop]. unfold bindM at 1. rewrite liftR_eq.
  destruct (getitem (outdirs rc) 0) as [outdir|e]; [|done].
  unfold bindM at 1. cbn [call_generate_run]. done.
Qed.

(** C10: [execute] leaves the world as it found it, so it delivers no
    library to any writer and starts no process; when grouping yields at
    least one run and [rc.outdirs] has a first entry, so that the call of
    [generate_run] is reached, it raises [TypeError]. *)
Theorem execute_type_error rc w :
  (execute rc w).2 = w
  ∧ deliveries (new_events w (execute rc w).2) = []
  ∧ (∀ run runs d ds,
       group_runs (states rc) = Ok (run :: runs) → outdirs rc = d :: ds →
       (execute rc w).1 = Raise TypeError).
Proof.
  assert ((execute rc w).2 = w) as Hw.
  { unfold execute, bindM. rewrite liftR_eq.
    destruct (group_runs (states rc)) as [[|run runs]|e]; [done| |done].
    by rewrite execute_loop_first. }
  split_and!; [done| |].
  - rewrite Hw. unfold new_events. by rewrite drop_all.
  - intros run runs d ds Hruns Hout. unfold execute, bindM.
    rewrite liftR_eq, Hruns, execute_loop_first, Hout. done.
Qed.

(** * The assembled histories *)

Lemma mapR_Forall2 {A B} (f : A → Res B) (l : list A) : ∀ ys,
  mapR f l = Ok ys → Forall2 (λ x y, f x = Ok y) l ys.
Proof.
  induction l as [|x l IH]; intros ys H; cbn in H.
  { injection H as <-. constructor. }
  destruct (f x) as [y|e] eqn:Ey; [|done]. cbn [bindR] in H.
  destruct (mapR f l) as [ys'|e] eqn:Eys; [|done]. cbn [bindR] in H.
  injection H as <-. constructor; [done|]. by apply IH.
Qed.

Lemma foldl_insert_lookup {V} (pairs : list (string * V)) :
  ∀ (d : gmap string V) key v,
  foldl (λ d p, <[p.1 := p.2]> d) d pairs !! key = Some v →
  d !! key = Some v ∨ (key, v) ∈ pairs.
Proof.
  induction pairs as [|[k' v'] pairs IH]; intros d key v H; cbn in H.
  { by left. }
  destruct (IH _ _ _ H) as [Hd|Hin]; [|right; by right].
  destruct (decide (k' = key)) as [->|Hne].
  - rewrite lookup_insert_eq in Hd. injection Hd as ->. right. left.
  - rewrite lookup_insert_ne in Hd by done. by left.
Qed.

Lemma nuc_histories_rows name mat_hist rows key h :
  nuc_histories name mat_hist = Ok rows → rows !! key = Some h →
  ∃ nuc, key = name nuc
         ∧ Forall2 (λ (mat : Material) v, mat !! nuc = Some v) mat_hist h.
Proof.
  unfold nuc_histories. intros Hrows Hkey.
  destruct (mapR _ (elements (nuc_set mat_hist))) as [pairs|e] eqn:Ep;
    [|done].
  cbn [bindR] in Hrows. injection Hrows as <-.
  apply foldl_insert_lookup in Hkey as [Hkey|Hin].
  { by rewrite lookup_empty in Hkey. }
  apply mapR_Forall2 in Ep.
  apply list_elem_of_lookup in Hin as [i Hi].
  destruct (Forall2_lookup_r _ _ _ _ _ Ep Hi) as (nuc & _ & Hnuc).
  unfold nuc_history in Hnuc.
  destruct (mapR _ mat_hist) as [h'|e] eqn:Eh; [|done].
  cbn [bindR] in Hnuc. injection Hnuc as <- <-.
  exists nuc. split; [done|].
  apply mapR_Forall2 in Eh. eapply Forall2_impl; [exact Eh|].
  intros mat v. unfold comp_getitem. by destruct (mat !! nuc); intros [= ->].
Qed.

Lemma scaled_fractions_lookup nuc materials :
  Forall (λ mat : Material, is_Some (mat !! nuc)) materials →
  ∀ j (mat : Material) v, materials !! j = Some mat → mat !! nuc = Some v →
    scaled_fractions nuc materials !! j = Some (v * 1000)%Q.
Proof.
  induction 1 as [|mat0 rest [v0 Hv0] _ IH]; intros j mat v Hj Hv; [done|].
  unfold scaled_fractions in *. cbn [omap list_omap]. rewrite Hv0.
  cbn [fmap option_fmap option_map].
  destruct j as [|j]; cbn in Hj |- *.
  - injection Hj as <-. congruence.
  - by eapply IH.
Qed.

Lemma trans_matrix_row (name : Z → string) threshold materials nuc h :
  Inj (=) (=) name →
  trans_matrix name threshold materials !! name nuc = Some h →
  ∃ k, first_exceeds threshold nuc materials k
       ∧ (∀ j, (j < k)%nat → h !! j = Some 0%Q)
       ∧ (Forall (λ mat : Material, is_Some (mat !! nuc))
                 (drop k materials) →
          length h = length materials
          ∧ ∀ j (mat : Material) v,
              (k ≤ j)%nat → materials !! j = Some mat →
              mat !! nuc = Some v → h !! j = Some (v * 1000)%Q).
Proof.
  intros Hinj Hh. unfold trans_matrix in Hh.
  rewrite (trans_matrix_loop_lookup name Hinj), lookup_empty in Hh.
  destruct (history_from_None _ _ _ _ _ Hh) as (k & Hk & ->).
  cbn [Nat.add]. exists k. split_and!; [done| |].
  - intros j Hj. rewrite lookup_app_l by (by rewrite length_replicate).
    by apply lookup_replicate_2.
  - intros Hpresent. split.
    + rewrite length_app, length_replicate.
      rewrite scaled_fractions_present by done.
      rewrite length_drop.
      destruct Hk as (_ & mat & v & Hmat & _).
      apply lookup_lt_Some in Hmat. lia.
    + intros j mat v Hj Hmat Hv.
      rewrite lookup_app_r by (rewrite length_replicate; lia).
      rewrite length_replicate.
      apply (scaled_fractions_lookup _ _ Hpresent _ mat); [|done].
      rewrite lookup_drop. rewrite <-Hmat. f_equal. lia.
Qed.

Lemma nuc_set_elem mat_hist nuc :
  nuc ∈ nuc_set mat_hist
  ↔ ∃ mat : Material, mat ∈ mat_hist ∧ is_Some (mat !! nuc).
Proof.
  unfold nuc_set. rewrite elem_of_list_to_set, !list_elem_of_In, in_concat.
  split.
  - intros (keys & Hkeys & Hin). apply in_map_iff in Hkeys as (mat & <- & Hmat).
    exists mat. split; [by apply list_elem_of_In|].
    apply list_elem_of_In, list_elem_of_fmap in Hin as ([n v] & -> & Hin).
    apply elem_of_map_to_list in Hin. by eexists.
  - intros (mat & Hmat & v & Hv). exists (map_to_list mat).*1. split.
    + apply in_map_iff. exists mat. split; [done|by apply list_elem_of_In].
    + apply list_elem_of_In, list_elem_of_fmap. exists (nuc, v).
      split; [done|]. by apply elem_of_map_to_list.
Qed.

(** When the histories are assembled, a nuclide of one material is in
    every material. *)
Lemma nuc_histories_present name mat_hist rows (m1 m2 : Material) nuc :
  nuc_histories name mat_hist = Ok rows → m1 ∈ mat_hist → m2 ∈ mat_hist →
  is_Some (m1 !! nuc) → is_Some (m2 !! nuc).
Proof.
  unfold nuc_histories. intros Hrows H1 H2 Hsome.
  destruct (mapR _ (elements (nuc_set mat_hist))) as [pairs|e] eqn:Ep;
    [|done].
  apply mapR_Forall2 in Ep.
  assert (nuc ∈ elements (nuc_set mat_hist)) as Hin.
  { apply elem_of_elements, nuc_set_elem. by exists m1. }
  apply list_elem_of_lookup in Hin as [i Hi].
  destruct (Forall2_lookup_l _ _ _ _ _ Ep Hi) as (pair & _ & Hpair).
  unfold nuc_history in Hpair.
  destruct (mapR _ mat_hist) as [h|e] eqn:Eh; [|done].
  apply mapR_Forall2 in Eh.
  apply list_elem_of_lookup in H2 as [j Hj].
  destruct (Forall2_lookup_l _ _ _ _ _ Eh Hj) as (v & _ & Hv).
  unfold comp_getitem in Hv. destruct (m2 !! nuc); [by eexists|done].
Qed.

(** C6 (amended).  (1) In the Library a build returns, every nuclide row
    has one entry per step, the i-th being the nuclide's fraction in the
    material produced at step i; no threshold or zero-fill is applied.
    (2) With nuclide names that are distinct for distinct nuclides, every
    nuclide kept in the transmutation matrix that [BrightliteWriter.write]
    makes of the materials of a build that returns has a first step [k] at
    which it exceeds the threshold, and its row has one entry per step:
    zero before step [k], and 1000 times its fraction from step [k] on.
    (3) For any material history, the row of a kept nuclide has zeros for
    the steps before [k]; it has one entry per step, 1000 times the
    fraction from step [k] on, when every material from step [k] on
    contains the nuclide. *)
Theorem nuclide_histories :
  (∀ rc run w lib w' key h,
     generate_run rc run w = (Ok lib, w') →
     nuc_rows lib !! key = Some h →
     length h = length run
     ∧ ∃ nuc, key = nucname_name rc nuc
         ∧ Forall2 (λ (mat : Material) v, mat !! nuc = Some v)
                   (origen_outputs (new_events w w')) h)
  ∧ (∀ rc run w lib w' threshold nuc h,
       Inj (=) (=) (nucname_name rc) →
       generate_run rc run w = (Ok lib, w') →
       let materials := origen_outputs (new_events w w') in
       trans_matrix (nucname_name rc) threshold materials
         !! nucname_name rc nuc = Some h →
       length h = length run
       ∧ ∃ k, first_exceeds threshold nuc materials k
              ∧ (∀ j, (j < k)%nat → h !! j = Some 0%Q)
              ∧ ∀ j (mat : Material) v,
                  (k ≤ j)%nat → materials !! j = Some mat →
                  mat !! nuc = Some v → h !! j = Some (v * 1000)%Q)
  ∧ (∀ (name : Z → string) threshold materials nuc h,
       Inj (=) (=) name →
       trans_matrix name threshold materials !! name nuc = Some h →
       ∃ k, first_exceeds threshold nuc materials k
            ∧ (∀ j, (j < k)%nat → h !! j = Some 0%Q)
            ∧ (Forall (λ mat : Material, is_Some (mat !! nuc))
                      (drop k materials) →
               length h = length materials
               ∧ ∀ j (mat : Material) v,
                   (k ≤ j)%nat → materials !! j = Some mat →
                   mat !! nuc = Some v → h !! j = Some (v * 1000)%Q)).
Proof.
  split_and!.
  - intros rc run w lib w' key h Hrun Hkey.
    pose proof (generate_run_post rc run w) as H.
    unfold post in H. rewrite Hrun in H. cbn [fst snd] in H.
    destruct H as (new & Hth & _ & Hlen & _ & Hrows).
    rewrite (threaded_new_events _ _ _ _ Hth).
    destruct (nuc_histories_rows _ _ _ _ _ Hrows Hkey) as (nuc & -> & Hall).
    split; [|by exists nuc].
    by rewrite <-(Forall2_length _ _ _ Hall).
  - intros rc run w lib w' threshold nuc h Hinj Hrun. cbn zeta.
    pose proof (generate_run_post rc run w) as H.
    unfold post in H. rewrite Hrun in H. cbn [fst snd] in H.
    destruct H as (new & Hth & _ & Hlen & _ & Hrows).
    rewrite (threaded_new_events _ _ _ _ Hth).
    generalize dependent (origen_outputs new). intros materials Hlen Hrows Hh.
    destruct (trans_matrix_row _ _ _ _ _ Hinj Hh)
      as (k & Hk & Hzero & Hfull).
    assert (Forall (λ mat : Material, is_Some (mat !! nuc))
                   (drop k materials)) as Hpresent.
    { destruct Hk as (_ & mk & v & Hmk & Hv & _).
      apply Forall_forall. intros mat Hmat.
      apply (nuc_histories_present _ _ _ mk mat nuc Hrows).
      - by eapply list_elem_of_lookup_2.
      - apply list_elem_of_lookup in Hmat as [j Hj].
        rewrite lookup_drop in Hj. by eapply list_elem_of_lookup_2.
      - by eexists. }
    destruct (Hfull Hpresent) as [Hl Hvals].
    split; [by rewrite Hl|]. by exists k.
  - apply trans_matrix_row.
Qed.

(** * The stub run control: the theorems at work *)

Example same_except_burnup_time_time_only :
  same_except_burnup_time (Stub.s 4 0) (Stub.s 4 100) = Ok true.
Proof. reflexivity. Qed.

Lemma group_runs_partition_witness :
  Forall (λ s, fields s = ["enrichment"; "burn_times"])
         [Stub.s 4 0; Stub.s 4 100; Stub.s 4 200; Stub.s 5 0]
  ∧ ∃ runs,
      group_runs [Stub.s 4 0; Stub.s 4 100; Stub.s 4 200; Stub.s 5 0] = Ok runs
      ∧ concat runs ≡ₚ [Stub.s 4 0; Stub.s 4 100; Stub.s 4 200; Stub.s 5 0]
      ∧ ∀ i j r1 r2 s1 s2,
          runs !! i = Some r1 → runs !! j = Some r2 → s1 ∈ r1 → s2 ∈ r2 →
          (i = j ↔ non_time_params s1 = non_time_params s2).
Proof.
  assert (Forall (λ s, fields s = ["enrichment"; "burn_times"])
            [Stub.s 4 0; Stub.s 4 100; Stub.s 4 200; Stub.s 5 0]) as H
    by (repeat constructor).
  split; [exact H|]. exact (group_runs_partition _ _ H).
Defined.

Lemma parse_statepoint_normalized_witness :
  ∃ sp t_flux,
    read_statepoint (Some (Stub.sp_dir, "statepoint.10.binary")) Stub.world_sp
      = (Ok sp, Stub.world_sp)
    ∧ tallies sp !! 0%nat = Some t_flux
    ∧ [(3 # 4)%Q; (1 # 4)%Q]
      = map (λ x, x / Qsum (flux_of_tally t_flux))%Q (flux_of_tally t_flux)
    ∧ ((0 < Qsum (flux_of_tally t_flux))%Q
       → (Qsum [(3 # 4)%Q; (1 # 4)%Q] == 1)%Q).
Proof.
  apply (parse_statepoint_normalized
           (Some (Stub.sp_dir, "statepoint.10.binary")) Stub.world_sp
           (_parse_statepoint (Some (Stub.sp_dir, "statepoint.10.binary"))
              Stub.world_sp).2 1%Q).
  vm_compute. reflexivity.
Defined.

Example built3_returns : Stub.built3 = (Ok Stub.lib3, Stub.built3.2).
Proof. vm_compute. reflexivity. Qed.

Example built3_times : TIME Stub.lib3 = [0; 100; 200].
Proof. vm_compute. reflexivity. Qed.

Lemma material_threading_witness :
  let new := new_events Stub.world0 Stub.built3.2 in
  length (fuel_inputs new) = length Stub.run3
  ∧ length (origen_outputs new) = length Stub.run3.
Proof.
  apply (proj2 (material_threading (Stub.rc true) Stub.run3 Stub.world0)
               Stub.lib3).
  vm_compute. reflexivity.
Defined.

(** C3 as stated fails: the second run is built after the first, and the
    fuel written for its step 0 is not the initial loading. *)
Lemma material_threading_counterexample :
  fuel_inputs (new_events Stub.built3.2 Stub.built1.2)
  ≠ [valid_nucs (Stub.rc true) Stub.initial_fuel].
Proof.
  intros H.
  apply (f_equal (fmap (λ m : Material, m !! 922350%Z))) in H.
  vm_compute in H. discriminate H.
Qed.

Lemma generate_run_intervals_witness :
  let ts := irradiation_times (new_events Stub.world0 Stub.built3.2) in
  transmute_times Stub.run3 0 Stub.run3 = Ok ts
  ∧ length ts = length Stub.run3
  ∧ (∀ i s s', Stub.run3 !! i = Some s → Stub.run3 !! S i = Some s' →
       ∃ t t', burn_times s = Ok t ∧ burn_times s' = Ok t'
               ∧ ts !! i = Some (t' - t))
  ∧ (∀ i s, Stub.run3 !! i = Some s → Stub.run3 !! S i = None →
       ts !! i = Some 0).
Proof.
  apply (generate_run_intervals (Stub.rc true) Stub.run3 Stub.world0
                                Stub.lib3 Stub.built3.2).
  vm_compute. reflexivity.
Defined.

Example built3_intervals :
  irradiation_times (new_events Stub.world0 Stub.built3.2) = [100; 100; 0].
Proof. vm_compute. reflexivity. Qed.

Lemma generate_failure_cache_witness :
  ((openmc (Stub.rc false) (Stub.s 4 0) Stub.world0).1
     = Raise CalledProcessError
   ∧ statelibs Stub.failed.2 = statelibs Stub.world0)
  ∨ (∃ k phi_g xs w1,
       openmc (Stub.rc false) (Stub.s 4 0) Stub.world0
         = (Ok (k, phi_g, xs), w1)
       ∧ (origen (Stub.rc false) (Stub.s 4 0) xs 100 phi_g
            (set_statelibs
               (<[values (Stub.s 4 0) := (k, phi_g, xs)]> (statelibs w1))
               w1)).1 = Raise CalledProcessError
       ∧ statelibs Stub.failed.2
         = <[values (Stub.s 4 0) := (k, phi_g, xs)]> (statelibs Stub.world0)).
Proof.
  apply (generate_failure_cache (Stub.rc false) (Stub.s 4 0) 100 Stub.world0
                                CalledProcessError Stub.failed.2).
  vm_compute. reflexivity.
Defined.

(** C4 as stated fails: ORIGEN exits with an error, [generate] raises,
    and the State is in the cache afterwards. *)
Lemma generate_failure_cache_counterexample :
  Stub.failed.1 = Raise CalledProcessError
  ∧ statelibs Stub.failed.2 ≠ statelibs Stub.world0.
Proof.
  split; [vm_compute; reflexivity|]. intros H.
  apply (f_equal (λ m : gmap (list Z) (Q * list Q * XSTable),
                    bool_decide (is_Some (m !! [4; 0])))) in H.
  vm_compute in H. discriminate H.
Qed.

Lemma generate_cached_result_witness :
  ∃ k phi_g xs mat,
    Stub.result_or Stub.solved.1 (Tuple3 0 [] []) = Tuple4 k phi_g xs mat
    ∧ statelibs Stub.solved.2 !! values (Stub.s 4 0) = Some (k, phi_g, xs)
    ∧ ∀ t', generate (Stub.rc true) (Stub.s 4 0) t' Stub.solved.2
              = (Ok (Tuple3 k phi_g xs), Stub.solved.2)
            ∧ Tuple3 k phi_g xs
              ≠ Stub.result_or Stub.solved.1 (Tuple3 0 [] []).
Proof.
  apply (generate_cached_result (Stub.rc true) (Stub.s 4 0) 100 Stub.world0).
  - vm_compute. reflexivity.
  - vm_compute. reflexivity.
Defined.

(** A run that visits a State twice cannot be built: the second visit
    gets the 3-tuple and the unpacking raises. *)
Example generate_run_repeated_state :
  (generate_run (Stub.rc true) [Stub.s 4 0; Stub.s 4 0] Stub.world0).1
  = Raise ValueError.
Proof. vm_compute. reflexivity. Qed.

Lemma execute_type_error_witness :
  (execute (Stub.rc true) Stub.world0).1 = Raise TypeError.
Proof.
  apply (proj2 (proj2 (execute_type_error (Stub.rc true) Stub.world0))
               [Stub.s 4 0; Stub.s 4 100; Stub.s 4 200] [[Stub.s 5 0]]
               "out" []).
  - vm_compute. reflexivity.
  - reflexivity.
Defined.

Lemma nuclide_histories_witness :
  (length (default [] (nuc_rows Stub.lib3 !! "922350")) = length Stub.run3)
  ∧ (length [0%Q; (190000 # 1000)%Q; (190000 # 1000)%Q] = length Stub.run3
     ∧ ∃ k, first_exceeds (15 # 100) 942390 Stub.mats_bred k
            ∧ (∀ j, (j < k)%nat →
                 [0%Q; (190000 # 1000)%Q; (190000 # 1000)%Q] !! j
                 = Some 0%Q)
            ∧ ∀ j (mat : Material) v,
                (k ≤ j)%nat → Stub.mats_bred !! j = Some mat →
                mat !! 942390%Z = Some v →
                [0%Q; (190000 # 1000)%Q; (190000 # 1000)%Q] !! j
                = Some (v * 1000)%Q)
  ∧ ∃ k, first_exceeds (1 # 1000) 3 Stub.appearing k
         ∧ (∀ j, (j < k)%nat → [0%Q; (1000 # 2)%Q] !! j = Some 0%Q)
         ∧ (Forall (λ mat : Material, is_Some (mat !! 3%Z))
                   (drop k Stub.appearing) →
            length [0%Q; (1000 # 2)%Q] = length Stub.appearing
            ∧ ∀ j (mat : Material) v,
                (k ≤ j)%nat → Stub.appearing !! j = Some mat →
                mat !! 3%Z = Some v →
                [0%Q; (1000 # 2)%Q] !! j = Some (v * 1000)%Q).
Proof.
  destruct nuclide_histories as (H1 & H2 & H3). split; [|split].
  - apply (H1 (Stub.rc true) Stub.run3 Stub.world0 Stub.lib3 Stub.built3.2
              "922350").
    + vm_compute. reflexivity.
    + vm_compute. reflexivity.
  - apply (H2 Stub.rc_breed Stub.run3 Stub.world_breed Stub.lib_bred
              Stub.bred.2 (15 # 100)%Q 942390%Z).
    + apply _.
    + vm_compute. reflexivity.
    + vm_compute. reflexivity.
  - apply (H3 pretty (1 # 1000)%Q Stub.appearing 3%Z); [apply _|].
    vm_compute. reflexivity.
Defined.

Example appearing_row :
  trans_matrix pretty (1 # 1000) Stub.appearing !! "3" = Some [0%Q; (1000 # 2)%Q].
Proof. vm_compute. reflexivity. Qed.

(** A nuclide kept from step 0 and missing from the material of step 1
    has a row of one entry for two steps: the writer appends nothing for a
    step whose material lacks the nuclide. *)
Example trans_matrix_short_row :
  ¬ histories_complete pretty (1 # 1000) Stub.vanishing.
Proof.
  intros H. specialize (H "1" [(1000 # 2)%Q]).
  assert (length [(1000 # 2)%Q] = length Stub.vanishing) as Hlen.
  { apply H. vm_compute. reflexivity. }
  discriminate Hlen.
Qed.

(** C6 as stated fails on a build that returns.  With the threshold 0.15,
    Pu-239 first exceeds the threshold at step 1.  Its row in the Library
    the build returns has the fraction 0.1 at step 0, not zero: no
    threshold or zero-fill is applied there.  Its row in the transmutation
    matrix the writer makes of the same materials has 190 at step 1, a
    thousand times the fraction 0.19. *)
Lemma nuclide_histories_counterexample :
  Stub.bred.1 = Ok Stub.lib_bred
  ∧ first_exceeds (15 # 100) 942390 Stub.mats_bred 1
  ∧ nuc_rows Stub.lib_bred !! pretty 942390%Z
    = Some [(1 # 10)%Q; (190 # 1000)%Q; (190 # 1000)%Q]
  ∧ trans_matrix pretty (15 # 100) Stub.mats_bred !! pretty 942390%Z
    = Some [0%Q; (190000 # 1000)%Q; (190000 # 1000)%Q]
  ∧ ¬ backfilled pretty (15 # 100) Stub.mats_bred (nuc_rows Stub.lib_bred)
  ∧ ¬ backfilled pretty (15 # 100) Stub.mats_bred
        (trans_matrix pretty (15 # 100) Stub.mats_bred).
Proof.
  assert (first_exceeds (15 # 100) 942390 Stub.mats_bred 1) as Hfirst.
  { split.
    - intros j mat v Hj Hmat Hv.
      assert (j = 0%nat) as -> by lia.
      assert (Stub.mats_bred !! 0%nat ≫= (λ m : Material, m !! 942390%Z)
              = Some (1 # 10)%Q) as H0 by (vm_compute; reflexivity).
      rewrite Hmat in H0. cbn [mbind option_bind] in H0.
      rewrite Hv in H0. injection H0 as ->. discriminate.
    - exists (default ∅ (Stub.mats_bred !! 1%nat)), (190 # 1000)%Q.
      split_and!; [vm_compute; reflexivity|vm_compute; reflexivity|].
      reflexivity. }
  assert (nuc_rows Stub.lib_bred !! pretty 942390%Z
          = Some [(1 # 10)%Q; (190 # 1000)%Q; (190 # 1000)%Q]) as Hlib
    by (vm_compute; reflexivity).
  assert (trans_matrix pretty (15 # 100) Stub.mats_bred !! pretty 942390%Z
          = Some [0%Q; (190000 # 1000)%Q; (190000 # 1000)%Q]) as Hmatrix
    by (vm_compute; reflexivity).
  split_and!;
    [vm_compute; reflexivity|exact Hfirst|exact Hlib|exact Hmatrix| |].
  - intros H. destruct (H _ _ _ Hlib Hfirst) as (_ & Hzero & _).
    destruct (Hzero 0%nat) as (x & Hx & Hx0); [lia|].
    injection Hx as <-. discriminate Hx0.
  - intros H. destruct (H _ _ _ Hmatrix Hfirst) as (_ & _ & Hval).
    assert (Stub.mats_bred !! 1%nat
            = Some (default ∅ (Stub.mats_bred !! 1%nat))) as Hmat
      by (vm_compute; reflexivity).
    assert (default ∅ (Stub.mats_bred !! 1%nat) !! 942390%Z
            = Some (190 # 1000)%Q) as Hv by (vm_compute; reflexivity).
    destruct (Hval 1%nat _ _ (le_n 1) Hmat Hv) as (x & Hx & Hxv).
    injection Hx as <-. discriminate Hxv.
Qed.

(** C7 as stated fails in float64.  The flux tally (1, 4, 1) has the
    positive total 6 and every entry of [phi_g] is its group's tally
    divided by 6, yet the entries sum to 0.99999999999999989 when added
    as [phi_g.sum()] adds them, and to less than 1 as real numbers. *)
Lemma parse_statepoint_normalized_counterexample :
  let t_flux := [ [(1, 0)%float]; [(4, 0)%float]; [(1, 0)%float] ] in
  let sp := {| k_combined64 := (1, 0)%float; tallies64 := [t_flux] |} in
  ∃ k phi_g,
    statepoint_results_f64 sp = Ok (k, phi_g)
    ∧ sum_f64 (flux_of_tally64 t_flux) = 6%float
    ∧ phi_g = map (λ x, PrimFloat.div x 6) (flux_of_tally64 t_flux)
    ∧ sum_f64 phi_g = 0x1.fffffffffffffp-1%float
    ∧ PrimFloat.eqb (sum_f64 phi_g) 1 = false
    ∧ ∃ q, exact_sum phi_g = Some q ∧ (q < 1)%Q.
Proof.
  cbn zeta. eexists _, _. split; [vm_compute; reflexivity|].
  split_and!; try (vm_compute; reflexivity).
  eexists. split; [vm_compute; reflexivity|]. reflexivity.
Qed.

(** A flux tally of zero total gives [nan] entries, and one whose total
    overflows gives zeros. *)
Example normalize_f64_zero_total :
  Forall (λ x, PrimFloat.is_nan x = true) (normalize_f64 [0; 0]%float).
Proof. repeat constructor. Qed.

Example normalize_f64_overflow :
  normalize_f64 [0x1p1023; 0x1p1023]%float = [0; 0]%float.
Proof. vm_compute. reflexivity. Qed.

(** C8 at work.  A directory that holds [statepoint.10.binary]: no process
    is started and the values of that file are returned.  An empty file
    system: the solver is started once. *)
Lemma openmc_runs_solver_iff_witness :
  (calls (new_events Stub.world_sp
            (openmc (Stub.rc true) (Stub.s 4 0) Stub.world_sp).2) = []
   ∧ (openmc (Stub.rc true) (Stub.s 4 0) Stub.world_sp).1
     = Ok (1%Q, [(3 # 4)%Q; (1 # 4)%Q],
           [(922350, 1, [(3 # 4)%Q; (1 # 4)%Q]);
            (922350, 2, [(3 # 4)%Q; (1 # 4)%Q])]))
  ∧ calls (new_events Stub.world0
             (openmc (Stub.rc true) (Stub.s 4 0) Stub.world0).2)
    = [(Argv ["openmc"], "build-lwr/6851/omc")].
Proof.
  split.
  - pose proof (openmc_runs_solver_iff (Stub.rc true) (Stub.s 4 0)
                  Stub.world_sp) as H.
    cbv zeta in H. destruct H as (_ & _ & H).
    assert (default [] (fs Stub.world_sp
                          !! pwd (Stub.rc true) (Stub.s 4 0) "omc")
            = [("statepoint.10.binary", FStatePoint Stub.sp)]) as Hd
      by (vm_compute; reflexivity).
    rewrite Hd in H.
    destruct H as (Hnone & n & (pre & post & Hnames & _ & Hpre) & Hres).
    { exists "statepoint.10.binary", (FStatePoint Stub.sp).
      split; [left|]. by exists ".10.binary". }
    split; [exact Hnone|].
    assert (n = "statepoint.10.binary") as ->.
    { destruct pre as [|m pre]; cbn in Hnames.
      - by injection Hnames as <- _.
      - injection Hnames as <- Hrest. by destruct pre. }
    rewrite (Hres Stub.sp) by reflexivity.
    vm_compute. reflexivity.
  - pose proof (openmc_runs_solver_iff (Stub.rc true) (Stub.s 4 0)
                  Stub.world0) as H.
    cbv zeta in H. destruct H as (_ & H & _).
    rewrite H; [vm_compute; reflexivity|].
    intros (n & f & Hin & _). cbn in Hin. by apply elem_of_nil in Hin.
Defined.

Example openmc_reuses_statepoint :
  calls (new_events Stub.world_sp
           (openmc (Stub.rc true) (Stub.s 4 0) Stub.world_sp).2) = []
  ∧ calls (new_events Stub.world0
             (openmc (Stub.rc true) (Stub.s 4 0) Stub.world0).2)
    = [(Argv ["openmc"], "build-lwr/6851/omc")].
Proof. split; vm_compute; reflexivity. Qed.

(** * More on run grouping *)

Lemma filter_none {A} (P : A → Prop) `{∀ x, Decision (P x)} (l : list A) :
  (∀ x, x ∈ l → ¬ P x) → filter P l = [].
Proof.
  induction l as [|x l IH]; intros Hl; [done|].
  rewrite filter_cons, decide_False by (apply Hl; left).
  apply IH. intros y Hy. apply Hl. by right.
Qed.

Lemma first_keys_snoc seen s :
  first_keys (seen ++ [s]) =
    if decide (non_time_params s ∈ first_keys seen) then first_keys seen
    else first_keys seen ++ [non_time_params s].
Proof. unfold first_keys. by rewrite foldl_app. Qed.

Lemma first_keys_elem seen k :
  k ∈ first_keys seen ↔ ∃ s, s ∈ seen ∧ non_time_params s = k.
Proof.
  induction seen as [|s seen IH] using rev_ind.
  { split; [intros H; by apply elem_of_nil in H|].
    intros (s & H & _). by apply elem_of_nil in H. }
  rewrite first_keys_snoc.
  destruct (decide (non_time_params s ∈ first_keys seen)) as [Hin|Hnin].
  - rewrite IH. split.
    + intros (s' & Hs' & Hk). exists s'. split; [|done].
      apply elem_of_app. by left.
    + intros (s' & Hs' & Hk). apply elem_of_app in Hs' as [Hs'|Hs'].
      * by exists s'.
      * apply list_elem_of_singleton in Hs'. subst s'. subst k.
        by apply IH.
  - rewrite elem_of_app, IH, list_elem_of_singleton. split.
    + intros [(s' & Hs' & Hk)| ->].
      * exists s'. split; [|done]. apply elem_of_app. by left.
      * exists s. split; [|done]. apply elem_of_app. right.
        by apply list_elem_of_singleton.
    + intros (s' & Hs' & Hk). apply elem_of_app in Hs' as [Hs'|Hs'].
      * left. by exists s'.
      * apply list_elem_of_singleton in Hs'. subst s'. by right.
Qed.

Lemma first_keys_NoDup seen : NoDup (first_keys seen).
Proof.
  induction seen as [|s seen IH] using rev_ind; [constructor|].
  rewrite first_keys_snoc.
  destruct (decide (non_time_params s ∈ first_keys seen)) as [Hin|Hnin];
    [done|].
  apply NoDup_app. split_and!; [done| |apply NoDup_singleton].
  intros k Hk Hk'. apply list_elem_of_singleton in Hk'. congruence.
Qed.

Lemma runs_by_key_keys F seen :
  Forall (λ s, fields s = F) seen →
  Forall2 (run_of_key F) (first_keys seen) (runs_by_key seen).
Proof.
  intros HF. unfold runs_by_key. apply Forall2_fmap_r, Forall_Forall2_diag.
  apply Forall_forall. intros k Hk. apply first_keys_elem in Hk as (s & Hs & Hk).
  split.
  - intros Hnil.
    assert (s ∈ filter (λ s, non_time_params s = k) seen) as Hin
      by (by apply list_elem_of_filter).
    rewrite Hnil in Hin. by apply elem_of_nil in Hin.
  - apply Forall_forall. intros s' Hs'. apply list_elem_of_filter in Hs' as [? Hs'].
    split; [|done]. rewrite Forall_forall in HF. by apply HF.
Qed.

Lemma add_to_runs_by_key seen s :
  add_to_runs (first_keys seen) (runs_by_key seen) s
  = (λ k, filter (λ s, non_time_params s = k) (seen ++ [s]))
      <$> first_keys seen.
Proof.
  unfold add_to_runs, runs_by_key.
  rewrite zip_with_fmap_r, zip_with_diag. apply list_fmap_ext.
  intros i k _. rewrite filter_app, filter_cons, filter_nil.
  destruct (decide (k = non_time_params s)) as [->|Hne].
  - by rewrite decide_True.
  - rewrite decide_False by congruence. by rewrite app_nil_r.
Qed.

Lemma group_step_by_key F seen s :
  Forall (λ s, fields s = F) seen → fields s = F →
  group_step (runs_by_key seen) s = Ok (runs_by_key (seen ++ [s])).
Proof.
  intros HF Hs. unfold group_step.
  rewrite (scan_runs_spec F (first_keys seen))
    by (done || by apply runs_by_key_keys).
  cbn [bindR orb]. f_equal.
  unfold runs_by_key at 3. rewrite first_keys_snoc.
  destruct (decide (non_time_params s ∈ first_keys seen)) as [Hin|Hnin].
  - rewrite bool_decide_eq_true_2 by done. apply add_to_runs_by_key.
  - rewrite bool_decide_eq_false_2 by done.
    rewrite add_to_runs_by_key, fmap_app. f_equal.
    cbn [fmap list_fmap]. rewrite filter_app, filter_cons, filter_nil.
    rewrite decide_True by done. f_equal.
    assert (filter (λ s0, non_time_params s0 = non_time_params s) seen = [])
      as ->; [|done].
    apply filter_none. intros s' Hs' Hk. apply Hnin.
    apply first_keys_elem. by exists s'.
Qed.

Lemma group_loop_by_key F states : ∀ seen,
  Forall (λ s, fields s = F) seen → Forall (λ s, fields s = F) states →
  group_loop (runs_by_key seen) states = Ok (runs_by_key (seen ++ states)).
Proof.
  induction states as [|s states IH]; intros seen Hseen Hstates.
  { by rewrite app_nil_r. }
  apply Forall_cons in Hstates as [Hs Hstates].
  cbn [group_loop]. rewrite (group_step_by_key F) by done. cbn [bindR].
  rewrite IH; [|by apply Forall_app; split; [|repeat constructor]|done].
  by rewrite <-(assoc_L (++)).
Qed.

(** X1: on States of one schema the grouping loop computes what a mapping
    keyed by the non-time parameters would: the runs come in the order in
    which their keys first appear, and each run holds the States of its
    key in input order. *)
Theorem group_runs_by_key (F : list string) (states : list State) :
  Forall (λ s, fields s = F) states →
  group_runs states = Ok (runs_by_key states).
Proof.
  intros HF. apply (group_loop_by_key F states []); [constructor|done].
Qed.

Lemma group_runs_by_key_witness :
  group_runs [Stub.s 4 0; Stub.s 5 0; Stub.s 4 100; Stub.s 5 50; Stub.s 4 200]
  = Ok (runs_by_key
          [Stub.s 4 0; Stub.s 5 0; Stub.s 4 100; Stub.s 5 50; Stub.s 4 200]).
Proof.
  apply (group_runs_by_key ["enrichment"; "burn_times"]).
  repeat constructor.
Defined.

Example runs_by_key_interleaved :
  runs_by_key
    [Stub.s 4 0; Stub.s 5 0; Stub.s 4 100; Stub.s 5 50; Stub.s 4 200]
  = [ [Stub.s 4 0; Stub.s 4 100; Stub.s 4 200]; [Stub.s 5 0; Stub.s 5 50] ].
Proof. vm_compute. reflexivity. Qed.

Lemma scan_runs_of_length L runs (state : State) : ∀ ae,
  runs_of_length L runs → length state = L →
  ∃ runs' ae', scan_runs runs state ae = Ok (runs', ae')
               ∧ runs_of_length L runs' ∧ length runs' = length runs.
Proof.
  induction runs as [|run runs IH]; intros ae Hruns Hlen.
  { exists [], ae. by split_and!. }
  apply Forall_cons in Hruns as [[Hne Hrun] Hruns].
  destruct run as [|r0 run]; [done|].
  cbn [scan_runs getitem lookup list_lookup bindR].
  rewrite same_except_burnup_time_eq.
  apply Forall_cons in Hrun as [Hr0 Hrun].
  rewrite (proj2 (Nat.eqb_eq _ _)) by congruence. cbn [negb bindR].
  destruct (IH (if same_from r0 state then true else ae) Hruns Hlen)
    as (runs' & ae' & -> & Hruns' & Hl).
  cbn [bindR]. eexists _, _. split_and!; [done| |cbn; by rewrite Hl].
  apply Forall_cons. split; [|done].
  destruct (same_from r0 state).
  - split; [done|]. apply Forall_cons. split; [done|].
    apply Forall_app. split; [done|]. by repeat constructor.
  - split; [done|]. by apply Forall_cons.
Qed.

Lemma scan_runs_mismatch (r0 : State) run runs (state : State) ae :
  length r0 ≠ length state →
  scan_runs ((r0 :: run) :: runs) state ae = Raise ValueError.
Proof.
  intros Hne. cbn [scan_runs getitem lookup list_lookup bindR].
  rewrite same_except_burnup_time_eq.
  by rewrite (proj2 (Nat.eqb_neq _ _) Hne).
Qed.

Lemma group_loop_of_length L states : ∀ runs,
  runs_of_length L runs → runs ≠ [] →
  match group_loop runs states with
  | Ok runs' => Forall (λ s : State, length s = L) states
                ∧ runs' ≠ [] ∧ runs_of_length L runs'
  | Raise e => e = ValueError
               ∧ ¬ Forall (λ s : State, length s = L) states
  end.
Proof.
  induction states as [|state states IH]; intros runs Hruns Hne.
  { cbn. by split_and!. }
  cbn [group_loop]. unfold group_step.
  destruct (decide (length state = L)) as [Hlen|Hlen].
  - destruct (scan_runs_of_length L runs state false Hruns Hlen)
      as (runs' & ae' & -> & Hruns' & Hl).
    cbn [bindR].
    set (runs1 := if ae' then runs' else runs' ++ [[state]]).
    assert (runs_of_length L runs1) as H1.
    { unfold runs1. destruct ae'; [done|]. apply Forall_app. split; [done|].
      repeat constructor; done. }
    assert (runs1 ≠ []) as H1'.
    { unfold runs1. destruct ae'.
      - destruct runs'; [|done]. by destruct runs.
      - by destruct runs'. }
    specialize (IH runs1 H1 H1').
    destruct (group_loop runs1 states) as [runs2|e].
    + destruct IH as (? & ? & ?). split_and!; try done. by apply Forall_cons.
    + destruct IH as [-> Hn]. split; [done|]. intros HF.
      apply Forall_cons in HF as [_ HF]. by apply Hn.
  - destruct runs as [|run runs]; [done|].
    apply Forall_cons in Hruns as [[Hrne Hrun] _].
    destruct run as [|r0 run]; [done|].
    apply Forall_cons in Hrun as [Hr0 _].
    rewrite scan_runs_mismatch by congruence. cbn [bindR].
    split; [done|]. intros HF. apply Forall_cons in HF as [? _]. done.
Qed.

Lemma group_runs_cases states :
  match group_runs states with
  | Ok runs => same_arity states ∧ (runs = [] ↔ states = [])
               ∧ Forall (λ run, run ≠ []) runs
  | Raise e => e = ValueError ∧ ¬ same_arity states
  end.
Proof.
  destruct states as [|s0 states].
  { cbn. split_and!; [|done|done]. intros s1 s2 H. by apply elem_of_nil in H. }
  unfold group_runs. cbn [group_loop group_step scan_runs bindR app].
  pose proof (group_loop_of_length (length s0) states [[s0]]) as H.
  destruct (group_loop [[s0]] states) as [runs|e].
  - destruct H as (HF & Hne & Hruns); [repeat constructor; done|done|].
    rewrite Forall_forall in HF. split_and!.
    + intros s1 s2 H1 H2.
      assert (∀ s, s ∈ s0 :: states → length s = length s0) as Hall.
      { intros s Hs. apply elem_of_cons in Hs as [->|Hs]; [done|].
        by apply HF. }
      by rewrite (Hall s1), (Hall s2).
    + split; [done|discriminate].
    + eapply Forall_impl; [exact Hruns|]. by intros run [? _].
  - destruct H as [-> Hn]; [repeat constructor; done|done|].
    split; [done|]. intros Hsame. apply Hn. apply Forall_forall.
    intros s Hs. apply Hsame; [by right|by left].
Qed.

(** X2: the grouping loop raises nothing but [ValueError], and raises it
    exactly when two States of the input differ in their number of
    parameters; when it returns, no run is empty and there is a run as
    soon as there is a State. *)
Theorem group_runs_raises states :
  match group_runs states with
  | Ok runs => same_arity states ∧ (runs = [] ↔ states = [])
               ∧ Forall (λ run, run ≠ []) runs
  | Raise e => e = ValueError ∧ ¬ same_arity states
  end.
Proof. apply group_runs_cases. Qed.

Example group_runs_unequal_arity :
  group_runs [Stub.s 4 0; [("enrichment", 4)]; Stub.s 5 0] = Raise ValueError.
Proof. reflexivity. Qed.

Lemma same_from_refl (s : State) : same_from s s = true.
Proof.
  induction s as [|[f v] s IH]; [done|]. cbn [same_from].
  rewrite Z.eqb_refl. cbn [negb]. by destruct (String.eqb f "burn_times").
Qed.

(** X3: the comparison relates every State to itself; on States with the
    same field names it is symmetric and transitive. *)
Theorem same_except_burnup_time_equivalence :
  (∀ s : State, same_except_burnup_time s s = Ok true)
  ∧ (∀ s1 s2 : State, fields s1 = fields s2 →
       same_except_burnup_time s1 s2 = same_except_burnup_time s2 s1)
  ∧ (∀ s1 s2 s3 : State, fields s1 = fields s2 → fields s2 = fields s3 →
       same_except_burnup_time s1 s2 = Ok true →
       same_except_burnup_time s2 s3 = Ok true →
       same_except_burnup_time s1 s3 = Ok true).
Proof.
  assert (∀ s1 s2 : State, fields s1 = fields s2 →
            same_except_burnup_time s1 s2
            = Ok (bool_decide (non_time_params s1 = non_time_params s2)))
    as Heq.
  { intros s1 s2 Hf. rewrite same_except_burnup_time_eq.
    assert (length s1 = length s2) as Hlen.
    { rewrite <-(length_fmap fst s1), <-(length_fmap fst s2).
      unfold fields in Hf. congruence. }
    rewrite (proj2 (Nat.eqb_eq _ _) Hlen). cbn [negb].
    by rewrite same_from_non_time_params. }
  split_and!.
  - intros s. rewrite same_except_burnup_time_eq, Nat.eqb_refl. cbn [negb].
    by rewrite same_from_refl.
  - intros s1 s2 Hf. rewrite !Heq by done. f_equal.
    apply bool_decide_ext. split; congruence.
  - intros s1 s2 s3 H12 H23. rewrite !Heq by congruence.
    intros [= H1%bool_decide_eq_true] [= H2%bool_decide_eq_true].
    f_equal. apply bool_decide_eq_true. congruence.
Qed.

Lemma same_except_burnup_time_equivalence_witness :
  same_except_burnup_time (Stub.s 4 0) (Stub.s 4 100)
  = same_except_burnup_time (Stub.s 4 100) (Stub.s 4 0)
  ∧ same_except_burnup_time (Stub.s 4 0) (Stub.s 4 200) = Ok true.
Proof.
  destruct same_except_burnup_time_equivalence as (_ & Hsym & Htrans). split.
  - by apply Hsym.
  - by apply (Htrans _ (Stub.s 4 100)).
Defined.

(** Without a shared schema the comparison is not symmetric: it reads the
    field names of its first argument only. *)
Example same_except_burnup_time_asymmetric :
  same_except_burnup_time [("burn_times", 1); ("enrichment", 4)]
                          [("enrichment", 2); ("burn_times", 4)] = Ok true
  ∧ same_except_burnup_time [("enrichment", 2); ("burn_times", 4)]
                            [("burn_times", 1); ("enrichment", 4)] = Ok false.
Proof. split; reflexivity. Qed.

(** X4: [execute] returns normally only for an empty [rc.states].  With
    States of unequal arity it raises [ValueError]; otherwise, with a
    State to group, it raises [IndexError] when [rc.outdirs] is empty and
    [TypeError] when it is not. *)
Theorem execute_outcome rc w :
  ((execute rc w).1 = Ok tt ↔ states rc = [])
  ∧ ((execute rc w).1 = Raise ValueError ↔ ¬ same_arity (states rc))
  ∧ ((execute rc w).1 = Raise IndexError
     ↔ states rc ≠ [] ∧ same_arity (states rc) ∧ outdirs rc = [])
  ∧ ((execute rc w).1 = Raise TypeError
     ↔ states rc ≠ [] ∧ same_arity (states rc) ∧ outdirs rc ≠ []).
Proof.
  unfold execute, bindM. rewrite liftR_eq.
  pose proof (group_runs_cases (states rc)) as H.
  destruct (group_runs (states rc)) as [[|run runs]|e].
  - destruct H as (Hsame & Hnil & _). cbn [fst].
    assert (states rc = []) as Hs by (by apply Hnil).
    split_and!; split; try done; try (by intros (? & _)).
  - destruct H as (Hsame & Hnil & _).
    assert (states rc ≠ []) as Hs.
    { intros Hs. apply Hnil in Hs. discriminate. }
    rewrite execute_loop_first. cbn [fst]. unfold getitem.
    destruct (outdirs rc) as [|d ds]; cbn [lookup list_lookup];
      split_and!; split; try done; try (by intros (? & ? & ?)).
  - destruct H as [-> Hn]. cbn [fst].
    split_and!; split; try done; try (by intros (? & ? & ?)).
    intros Hs. exfalso. apply Hn. rewrite Hs. intros s1 s2 H1.
    by apply elem_of_nil in H1.
Qed.

(** * The exact trace of the two stages *)

Lemma parse_and_xs_exact rc p n w d :
  fs w !! p = Some d →
  post (bindM (_parse_statepoint (Some (p, n)))
          (λ x, match x with
                | (k, phi_g) =>
                    bindM (_generate_xs rc phi_g)
                          (λ xstab, retM (k, phi_g, xstab))
                end)) w
    (λ r w', frame w w' [] ∧ fs w' = fs w
       ∧ ∀ k phi_g xs, r = Ok (k, phi_g, xs) →
           ∃ sp, lookup_file d n = Some (FStatePoint sp)
                 ∧ statepoint_results sp = Ok (k, phi_g)
                 ∧ src_phi_g w'
                   = update_src (src_phi_g w) (statepoint_src_fluxes sp)
                 ∧ xs = xs_table rc (src_phi_g w') phi_g).
Proof.
  intros Hd.
  unfold post, _parse_statepoint, _generate_xs, bindM, modify, liftR, gets,
    retM, read_statepoint.
  rewrite Hd. cbn [mbind option_bind].
  destruct (lookup_file d n) as [f|];
    [|split_and!; [apply frame_refl|done|done]].
  destruct f; try (split_and!; [apply frame_refl|done|done]).
  destruct (statepoint_results sp) as [[k phi_g]|e] eqn:Hres; cbn [fst snd].
  - split_and!; [unfold frame; cbn; by rewrite app_nil_r|done|].
    intros k' phi' xs' [= <- <- <-]. by exists sp.
  - split_and!; [unfold frame; cbn; by rewrite app_nil_r|done|done].
Qed.

Lemma openmc_exact rc state w :
  post (openmc rc state) w (λ r w',
    ∃ tail,
      frame w w'
        (omc_input_events rc (fuel_material w) (pwd rc state "omc") ++ tail)
      ∧ transport_tail (pwd rc state "omc")
          (bool_decide
             (is_Some (first_statepoint
                         (default [] (fs w !! pwd rc state "omc")).*1)))
          tail
      ∧ ∀ k phi_g xs, r = Ok (k, phi_g, xs) →
          transport_result rc (pwd rc state "omc") w w' k phi_g xs).
Proof.
  unfold openmc.
  pose proof (make_omc_input_eq rc state) as Hmk.
  generalize dependent (pwd rc state "omc"). intros p Hmk.
  destruct (ensure_dir_eq p w) as (w0 & E0 & Hd0 & Hs0 & Hf0 & Hp0 & Ht0).
  apply post_bind. rewrite (post_eq _ _ _ _ _ E0).
  apply post_bind. rewrite (post_eq _ _ _ _ _ (Hmk w0 _ Hd0)).
  rewrite Hs0, Hf0, Hp0, Ht0. clear Hmk.
  set (d0 := default [] (fs w !! p)) in *.
  set (d5 := omc_inputs_written rc (fuel_material w) d0).
  apply post_bind.
  erewrite post_eq
    by (apply find_statepoint_eq; world_simpl; apply lookup_insert_eq).
  unfold d5 at 1. rewrite omc_inputs_written_first_statepoint.
  destruct (first_statepoint d0.*1) as [n|] eqn:Hfirst;
    cbn [fmap option_fmap option_map].
  - apply post_bind. unfold post at 1, retM at 1. cbn [fst snd].
    eapply post_mono;
      [apply (parse_and_xs_exact rc p n _ d5); world_simpl;
       apply lookup_insert_eq|].
    intros r w' ((H1 & H2 & H3) & Hfs & Hr). exists []. split_and!.
    + unfold frame. rewrite H1, H2, H3. world_simpl.
      by rewrite !app_nil_r.
    + by rewrite bool_decide_eq_true_2.
    + intros k phi_g xs Hok.
      destruct (Hr k phi_g xs Hok) as (sp & Hsp & Hres & Hsrc & Hxs).
      exists d5, n, sp. rewrite Hfs. world_simpl.
      split_and!; try done.
      * apply lookup_insert_eq.
      * unfold d5. by rewrite omc_inputs_written_first_statepoint.
  - apply post_bind. apply post_bind.
    erewrite post_eq
      by (apply check_call_eq; world_simpl; apply lookup_insert_eq).
    destruct (exec rc (Argv ["openmc"]) d5) as [[|] d'] eqn:Hexec;
      cbn [fst snd].
    + world_simpl.
      erewrite post_eq
        by (apply find_statepoint_eq; world_simpl; apply lookup_insert_eq).
      destruct (first_statepoint d'.*1) as [n|] eqn:Hfirst';
        cbn [fmap option_fmap option_map].
      * eapply post_mono;
          [apply (parse_and_xs_exact rc p n _ d'); world_simpl;
           apply lookup_insert_eq|].
        intros r w' ((H1 & H2 & H3) & Hfs & Hr).
        exists [EvCall (Argv ["openmc"]) p true d']. split_and!.
        -- unfold frame. rewrite H1, H2, H3. world_simpl.
           by rewrite app_nil_r, <-(assoc_L (++)).
        -- rewrite bool_decide_eq_false_2 by (by intros [? ?]).
           by eexists _, _.
        -- intros k phi_g xs Hok.
           destruct (Hr k phi_g xs Hok) as (sp & Hsp & Hres & Hsrc & Hxs).
           exists d', n, sp. rewrite Hfs. world_simpl.
           split_and!; try done. apply lookup_insert_eq.
      * unfold post, bindM, _parse_statepoint, read_statepoint. cbn [fst snd].
        exists [EvCall (Argv ["openmc"]) p true d']. split_and!.
        -- unfold frame. world_simpl. by rewrite <-(assoc_L (++)).
        -- rewrite bool_decide_eq_false_2 by (by intros [? ?]).
           by eexists _, _.
        -- done.
    + exists [EvCall (Argv ["openmc"]) p false d']. split_and!.
      * unfold frame. world_simpl. by rewrite <-(assoc_L (++)).
      * rewrite bool_decide_eq_false_2 by (by intros [? ?]).
        by eexists _, _.
      * done.
Qed.

Lemma origen_exact rc state xs t phi_g w :
  post (origen rc state xs t phi_g) w (λ r w',
    ∃ ok d',
      frame w w'
        (origen_input_events rc (fuel_material w) t phi_g
           (pwd rc state "origen")
         ++ [EvCall (Prog (origen_command rc)) (pwd rc state "origen") ok d'])
      ∧ src_phi_g w' = src_phi_g w
      ∧ (∀ p, p ≠ pwd rc state "origen" → fs w' !! p = fs w !! p)
      ∧ ∀ mat, r = Ok mat → ok = true ∧ tape6_material d' = Some mat).
Proof.
  unfold origen. fold (origen_command rc).
  pose proof (make_origen_input_eq rc state t phi_g) as Hmk.
  generalize dependent (pwd rc state "origen"). intros p Hmk.
  generalize (origen_command rc). intros call.
  destruct (ensure_dir_eq p w) as (w0 & E0 & Hd0 & Hs0 & Hf0 & Hp0 & Ht0).
  assert (∀ q, q ≠ p → fs w0 !! q = fs w !! q) as Hother.
  { intros q Hq. unfold ensure_dir in E0. rewrite modify_eq in E0.
    injection E0 as <-. destruct (fs w !! p); [done|].
    cbn [fs set_fs]. by rewrite lookup_insert_ne. }
  apply post_bind. rewrite (post_eq _ _ _ _ _ E0).
  apply post_bind. rewrite (post_eq _ _ _ _ _ (Hmk w0 _ Hd0)).
  rewrite Hs0, Hf0, Hp0, Ht0. clear Hmk.
  set (d0 := default [] (fs w !! p)) in *.
  set (d3 := origen_inputs_written rc (fuel_material w) t phi_g d0).
  apply post_bind.
  erewrite post_eq
    by (apply check_call_eq; world_simpl; apply lookup_insert_eq).
  destruct (exec rc (Prog call) d3) as [ok d'] eqn:Hexec; cbn [fst snd].
  assert (∀ q, q ≠ p → (<[p:=d']> (<[p:=d3]> (fs w0))) !! q = fs w !! q)
    as Hother'.
  { intros q Hq. rewrite !lookup_insert_ne by done. by apply Hother. }
  destruct ok.
  - world_simpl. apply post_bind.
    erewrite post_eq
      by (apply parse_tape6_eq; world_simpl; apply lookup_insert_eq).
    destruct (lookup_file d' "TAPE6.OUT") as [f|] eqn:Ht6.
    2:{ exists true, d'. split_and!; try done.
        unfold frame. world_simpl. by rewrite <-(assoc_L (++)). }
    destruct f;
      try (exists true, d'; split_and!; try done;
           unfold frame; world_simpl; by rewrite <-(assoc_L (++))).
    unfold post, liftR, last_item. cbn [fst snd].
    destruct (last materials) as [mat|] eqn:Hlast;
      (exists true, d'; split_and!; try done;
       try (unfold frame; world_simpl; by rewrite <-(assoc_L (++)))).
    intros mat' [= <-]. split; [done|].
    unfold tape6_material. by rewrite Ht6.
  - exists false, d'. split_and!; try done.
    unfold frame. world_simpl. by rewrite <-(assoc_L (++)).
Qed.

Lemma generate_exact rc state t w :
  statelibs w !! values state = None →
  post (generate rc state t) w (λ r w',
    match r with
    | Ok g => ∃ new mat, solved_step rc state t w w' g new mat
    | Raise _ => True
    end).
Proof.
  intros Hlib. unfold generate.
  apply post_bind. rewrite (post_eq _ _ _ _ _ (gets_eq _ _)). rewrite Hlib.
  pose proof (openmc_exact rc state w) as Homc. unfold post in Homc.
  apply post_bind.
  destruct (openmc rc state w) as [[[[k phi_g] xs]|e] w1] eqn:Eomc;
    rewrite (post_eq _ _ _ _ _ Eomc); cbn [fst snd] in Homc; [|done].
  destruct Homc as (tail & (Hs1 & Hf1 & Ht1) & Htail & Hres).
  destruct (Hres k phi_g xs eq_refl)
    as (d & n & sp & Hd & _ & Hfile & Hsp & _).
  apply post_bind. rewrite (post_eq _ _ _ _ _ (modify_eq _ _)).
  set (w2 := set_statelibs _ w1).
  pose proof (origen_exact rc state xs t phi_g w2) as Hori.
  unfold post in Hori. apply post_bind.
  destruct (origen rc state xs t phi_g w2) as [[mat|e] w3] eqn:Eori;
    rewrite (post_eq _ _ _ _ _ Eori); cbn [fst snd] in Hori; [|done].
  destruct Hori as (ok & d' & (Hs2 & Hf2 & Ht2) & _ & _ & Hmat).
  destruct (Hmat mat eq_refl) as [-> Ht6].
  apply post_bind. rewrite (post_eq _ _ _ _ _ (modify_eq _ _)).
  apply post_bind. rewrite (post_eq _ _ _ _ _ (gets_eq _ _)).
  rewrite (post_eq _ _ _ _ _ (retM_eq _ _)).
  eexists _, mat.
  exists k, phi_g, xs, tail, d',
    (bool_decide
       (is_Some (first_statepoint
                   (default [] (fs w !! pwd rc state "omc")).*1))), sp.
  split_and!; try done.
  - cbn [trace set_fuel_material]. rewrite Ht2. unfold w2.
    cbn [trace set_statelibs fuel_material]. rewrite Ht1, Hf1.
    unfold step_events. by rewrite <-!(assoc_L (++)).
  - cbn [statelibs set_fuel_material]. rewrite Hs2. unfold w2.
    cbn [statelibs set_statelibs]. by rewrite Hs1.
  - exists d, n. by rewrite Eomc.
Qed.

Lemma generate_run_loop_steps rc run : ∀ rest i run_lib mat_hist w,
  post (generate_run_loop rc run i rest run_lib mat_hist) w (λ r w',
    match r with
    | Ok (_, mat_hist') =>
        ∃ tr mats, trace w' = trace w ++ tr
          ∧ steps_trace rc run i rest (fuel_material w) tr mats
          ∧ mat_hist' = mat_hist ++ mats
    | Raise _ => True
    end).
Proof.
  induction rest as [|state rest IH]; intros i run_lib mat_hist w.
  { cbn [generate_run_loop]. rewrite (post_eq _ _ _ _ _ (retM_eq _ _)).
    exists [], []. rewrite !app_nil_r. split_and!; [done|constructor|done]. }
  cbn [generate_run_loop].
  apply post_bind. rewrite (post_eq _ _ _ _ _ (liftR_eq _ _)).
  destruct (transmute_time_at run i state) as [t|e] eqn:Et; [|done].
  apply post_bind.
  destruct (statelibs w !! values state) as [[[k phi_g] xs]|] eqn:Hlib.
  { pose proof (generate_post rc state t w) as Hg.
    unfold post, generate_outcome in Hg. rewrite Hlib in Hg.
    destruct (generate rc state t w) as [r1 w1] eqn:Eg.
    cbn [fst snd] in Hg. destruct Hg as [-> ->].
    rewrite (post_eq _ _ _ _ _ Eg).
    apply post_bind. by rewrite (post_eq _ _ _ _ _ (liftR_eq _ _)). }
  eapply post_mono; [by apply generate_exact|].
  intros [g|e] w1 Hg; [|done].
  destruct Hg as (new & mat & k & phi_g & xs & tail & d' & reused & sp & ->
                  & -> & Htail & Hsp & Ht6 & Htr & Hfm & Hsl & _).
  apply post_bind. rewrite (post_eq _ _ _ _ _ (liftR_eq _ _)).
  cbn [unpack4].
  apply post_bind. rewrite (post_eq _ _ _ _ _ (liftR_eq _ _)).
  destruct (burn_times state) as [bt|e]; [|done].
  eapply post_mono; [apply IH|]. clear IH.
  intros [[lib mh']|e] w' Hr; [|done].
  destruct Hr as (tr & mats & Htr' & Hsteps & ->).
  eexists _, (mat :: mats). split_and!.
  - rewrite Htr', Htr. by rewrite <-(assoc_L (++)).
  - rewrite Hfm in Hsteps. by econstructor.
  - by rewrite <-(assoc_L (++)).
Qed.

Lemma generate_run_steps rc run w lib w' :
  generate_run rc run w = (Ok lib, w') →
  ∃ mats, steps_trace rc run 0 run (fuel_material w) (new_events w w') mats
          ∧ nuc_histories (nucname_name rc) mats = Ok (nuc_rows lib).
Proof.
  intros Hrun.
  pose proof (generate_run_loop_steps rc run run 0
    {| TIME := []; NEUT_PROD := []; NEUT_DEST := []; BUd := [];
       nuc_rows := ∅ |} [] w) as H.
  unfold post in H. unfold generate_run, bindM in Hrun.
  destruct (generate_run_loop rc run 0 run _ [] w) as [[[run_lib mh]|e] w1];
    [|done].
  cbn [fst snd] in H. destruct H as (tr & mats & Htr & Hsteps & ->).
  rewrite liftR_eq in Hrun. cbn [app] in Hrun.
  destruct (nuc_histories (nucname_name rc) mats) as [rows|e] eqn:Erows;
    [|done].
  rewrite retM_eq in Hrun. injection Hrun as <- <-.
  exists mats. split; [|done].
  unfold new_events. rewrite Htr. by rewrite drop_app_length.
Qed.

(** * What a build that returns has done *)

Lemma statepoint_results_flux sp k phi_g :
  statepoint_results sp = Ok (k, phi_g) → nonzero_total sp →
  (Qsum phi_g == 1)%Q.
Proof.
  unfold statepoint_results, getitem. destruct (k_combined sp) as [k0 kerr].
  intros H Hnz. destruct (tallies sp !! 0%nat) as [t|] eqn:Ht; [|done].
  cbn [bindR] in H. injection H as _ <-.
  unfold normalize. rewrite Qsum_scale. apply Qmult_inv_r. by apply Hnz.
Qed.

Section step_events.
Context (rc : RunControl) (state : State) (t : Z) (fuel : Material).
Context (phi_g : list Q) (tail : list Event) (d' : Dir) (reused : bool).
Hypothesis Htail : transport_tail (pwd rc state "omc") reused tail.

Lemma transport_tail_cases :
  tail = [] ∨ ∃ ok d'', tail = [EvCall (Argv ["openmc"]) (pwd rc state "omc") ok d''].
Proof. unfold transport_tail in Htail. destruct reused; [by left|by right]. Qed.

Lemma step_events_tape4 :
  tape4_materials (step_events rc state t fuel phi_g tail d') = [fuel].
Proof.
  unfold step_events, tape4_materials. rewrite !omap_events_app.
  by destruct transport_tail_cases as [->|(ok & d'' & ->)].
Qed.

Lemma step_events_tape5 :
  tape5_fluxes (step_events rc state t fuel phi_g tail d') = [Qsum phi_g].
Proof.
  unfold step_events, tape5_fluxes. rewrite !omap_events_app.
  by destruct transport_tail_cases as [->|(ok & d'' & ->)].
Qed.

Lemma step_events_origen_outputs mat :
  tape6_material d' = Some mat →
  origen_outputs (step_events rc state t fuel phi_g tail d') = [mat].
Proof.
  intros Ht6. unfold step_events, origen_outputs. rewrite !omap_events_app.
  destruct transport_tail_cases as [->|(ok & d'' & ->)];
    cbn [omap list_omap origen_input_events omc_input_events app];
    by rewrite Ht6.
Qed.

Lemma step_events_origen_calls :
  origen_calls (step_events rc state t fuel phi_g tail d')
  = [(origen_command rc, pwd rc state "origen")].
Proof.
  unfold step_events, origen_calls. rewrite !omap_events_app.
  by destruct transport_tail_cases as [->|(ok & d'' & ->)].
Qed.

Lemma step_events_openmc_calls :
  openmc_calls (step_events rc state t fuel phi_g tail d')
  = if reused then [] else [pwd rc state "omc"].
Proof.
  unfold step_events, openmc_calls. rewrite !omap_events_app.
  unfold transport_tail in Htail. destruct reused.
  - by rewrite Htail.
  - by destruct Htail as (ok & d'' & ->).
Qed.
End step_events.

Lemma steps_trace_outputs rc run i rest fuel tr mats :
  steps_trace rc run i rest fuel tr mats →
  origen_outputs tr = mats ∧ length mats = length rest.
Proof.
  induction 1 as [|i state rest fuel t phi_g tail d' reused sp k mat tr mats
                   Ht Htail Hsp Ht6 Hsteps [IH1 IH2]]; [done|].
  unfold origen_outputs in *. rewrite omap_events_app.
  fold (origen_outputs (step_events rc state t fuel phi_g tail d')).
  rewrite (step_events_origen_outputs _ _ _ _ _ _ _ _ Htail mat Ht6).
  cbn. by rewrite IH1, IH2.
Qed.

(** X5: the material written to [TAPE4.INP] at step 0 of a build that
    returns is the fuel material current when the build starts; at every
    later step it is the material read from the previous step's
    [TAPE6.OUT], unrestricted. *)
Theorem origen_material_threading rc run w lib w' :
  generate_run rc run w = (Ok lib, w') →
  let new := new_events w w' in
  tape4_materials new
  = take (length run) (fuel_material w :: origen_outputs new).
Proof.
  intros Hrun. destruct (generate_run_steps _ _ _ _ _ Hrun) as (mats & H & _).
  cbn zeta. generalize dependent (new_events w w'). intros tr H.
  rewrite (proj1 (steps_trace_outputs _ _ _ _ _ _ _ H)).
  clear Hrun. generalize dependent (fuel_material w). generalize 0%nat.
  intros i fuel H.
  induction H as [|i state rest fuel t phi_g tail d' reused sp k mat tr mats
                   Ht Htail Hsp Ht6 Hsteps IH]; [done|].
  unfold tape4_materials in *. rewrite omap_events_app.
  fold (tape4_materials (step_events rc state t fuel phi_g tail d')).
  rewrite (step_events_tape4 _ _ _ _ _ _ _ _ Htail).
  cbn [app length take]. by rewrite IH.
Qed.

Lemma origen_material_threading_witness :
  let new := new_events Stub.world0 Stub.built3.2 in
  tape4_materials new
  = take (length Stub.run3) (fuel_material Stub.world0 :: origen_outputs new).
Proof.
  apply (origen_material_threading (Stub.rc true) Stub.run3 Stub.world0
                                   Stub.lib3).
  vm_compute. reflexivity.
Defined.

Lemma lookup_file_elem (d : Dir) n f :
  lookup_file d n = Some f → (n, f) ∈ d.
Proof.
  induction d as [|[m g] d IH]; cbn [lookup_file]; [done|].
  destruct (String.eqb m n) eqn:E.
  - apply String.eqb_eq in E as ->. intros [= ->]. left.
  - intros H. right. by apply IH.
Qed.

Lemma elem_of_set_file (d : Dir) name f n g :
  (n, g) ∈ set_file d name f → (n, g) ∈ d ∨ g = f.
Proof.
  induction d as [|[m h] d IH]; cbn [set_file].
  - intros H. apply list_elem_of_singleton in H. right. congruence.
  - destruct (String.eqb m name).
    + intros H. apply elem_of_cons in H as [H|H].
      * right. congruence.
      * left. by right.
    + intros H. apply elem_of_cons in H as [H|H].
      * left. rewrite H. left.
      * destruct (IH H) as [?|?]; [left; by right|by right].
Qed.

Section good_statepoints.
Variable rc : RunControl.
Hypothesis Hexec : good_executables rc.

Lemma keeps_good_bind {A B} (m : M A) (f : A → M B) :
  keeps_good m → (∀ a, keeps_good (f a)) → keeps_good (bindM m f).
Proof.
  intros Hm Hf w Hw. unfold bindM. specialize (Hm w Hw).
  destruct (m w) as [[a|e] w1]; cbn [snd] in *; [|done]. by apply Hf.
Qed.

Lemma keeps_good_same {A} (m : M A) :
  (∀ w, fs (m w).2 = fs w) → keeps_good m.
Proof. intros Hm w Hw p d. rewrite Hm. apply Hw. Qed.

Lemma keeps_good_ensure_dir p : keeps_good (ensure_dir p).
Proof.
  intros w Hw q d. unfold ensure_dir, modify. cbn [snd].
  destruct (fs w !! p) eqn:E; [apply Hw|]. cbn [set_fs fs].
  destruct (decide (p = q)) as [->|Hne].
  - rewrite lookup_insert_eq. intros [= <-] n sp Hin.
    by apply elem_of_nil in Hin.
  - rewrite lookup_insert_ne by done. apply Hw.
Qed.

Lemma keeps_good_write_file p name f :
  (∀ sp, f ≠ FStatePoint sp) → keeps_good (write_file p name f).
Proof.
  intros Hf w Hw q d. destruct (fs w !! p) as [d0|] eqn:E.
  - rewrite (write_file_eq _ _ _ _ _ E). world_simpl.
    destruct (decide (p = q)) as [->|Hne].
    + rewrite lookup_insert_eq. intros [= <-] n sp Hin.
      apply elem_of_set_file in Hin as [Hin|Heq].
      * by apply (Hw _ _ E n).
      * by destruct (Hf sp).
    + rewrite lookup_insert_ne by done. apply Hw.
  - unfold write_file. rewrite E. apply Hw.
Qed.

Lemma keeps_good_check_call cmd p : keeps_good (check_call rc cmd p).
Proof.
  intros w Hw q d. destruct (fs w !! p) as [d0|] eqn:E.
  - rewrite (check_call_eq _ _ _ _ _ E). world_simpl.
    destruct (decide (p = q)) as [->|Hne].
    + rewrite lookup_insert_eq. intros [= <-]. apply Hexec.
      by apply (Hw _ _ E).
    + rewrite lookup_insert_ne by done. apply Hw.
  - unfold check_call. rewrite E. apply Hw.
Qed.

Lemma keeps_good_openmc state : keeps_good (openmc rc state).
Proof.
  unfold openmc, _make_omc_input, _parse_statepoint, _generate_xs.
  generalize (pwd rc state "omc"). intros p.
  repeat first
    [ apply keeps_good_bind; [|intros ?]
    | apply keeps_good_ensure_dir
    | apply keeps_good_write_file; by intros ?
    | apply keeps_good_check_call
    | match goal with |- keeps_good (match ?x with _ => _ end) =>
        destruct x end
    | apply keeps_good_same; intros w; unfold _find_statepoint;
      by destruct (fs w !! _)
    | apply keeps_good_same; intros w; unfold read_statepoint;
      by repeat case_match
    | apply keeps_good_same; by intros ? ].
Qed.

Lemma keeps_good_origen state xs t phi_g :
  keeps_good (origen rc state xs t phi_g).
Proof.
  unfold origen, _make_origen_input.
  generalize (pwd rc state "origen"). intros p.
  repeat first
    [ apply keeps_good_bind; [|intros ?]
    | apply keeps_good_ensure_dir
    | apply keeps_good_write_file; by intros ?
    | apply keeps_good_check_call
    | apply keeps_good_same; intros w; unfold parse_tape6;
      by repeat case_match
    | apply keeps_good_same; by intros ? ].
Qed.

Lemma keeps_good_generate state t : keeps_good (generate rc state t).
Proof.
  unfold generate.
  apply keeps_good_bind; [apply keeps_good_same; by intros ?|]. intros libs.
  destruct (libs !! values state) as [[[k phi_g] xs]|];
    [apply keeps_good_same; by intros ?|].
  apply keeps_good_bind; [apply keeps_good_openmc|]. intros [[k phi_g] xs].
  apply keeps_good_bind; [apply keeps_good_same; by intros ?|]. intros _.
  apply keeps_good_bind; [apply keeps_good_origen|]. intros mat.
  repeat (apply keeps_good_bind; [apply keeps_good_same; by intros ?|];
          intros ?).
  apply keeps_good_same; by intros ?.
Qed.

(** A solve that misses the cache and returns has written the flux 1 to
    [TAPE5.INP]. *)
Lemma generate_flux state t w :
  statelibs w !! values state = None → good_files w →
  post (generate rc state t) w (λ r w',
    good_files w'
    ∧ match r with
      | Ok _ => ∃ new f, trace w' = trace w ++ new
                         ∧ tape5_fluxes new = [f] ∧ (f == 1)%Q
      | Raise _ => True
      end).
Proof.
  intros Hlib Hw. unfold post. split; [by apply keeps_good_generate|].
  pose proof (generate_exact rc state t w Hlib) as H. unfold post in H.
  destruct (generate rc state t w) as [[g|e] w']; cbn [fst snd] in *;
    [|done].
  destruct H as (new & mat & k & phi_g & xs & tail & d' & reused & sp & _
                 & -> & Htail & Hsp & _ & Htr & _ & _ & d & n & Hd & Hfile).
  exists (step_events rc state t (fuel_material w) phi_g tail d'),
    (Qsum phi_g).
  split_and!; [done|by eapply step_events_tape5|].
  apply (statepoint_results_flux sp k); [done|].
  apply (keeps_good_openmc state w Hw _ _ Hd n).
  by apply lookup_file_elem.
Qed.

Lemma generate_run_loop_fluxes run : ∀ rest i run_lib mat_hist w,
  good_files w →
  post (generate_run_loop rc run i rest run_lib mat_hist) w (λ r w',
    match r with
    | Ok _ => ∃ tr, trace w' = trace w ++ tr
                    ∧ Forall (λ f, (f == 1)%Q) (tape5_fluxes tr)
    | Raise _ => True
    end).
Proof.
  induction rest as [|state rest IH]; intros i run_lib mat_hist w Hw.
  { cbn [generate_run_loop]. rewrite (post_eq _ _ _ _ _ (retM_eq _ _)).
    exists []. by rewrite app_nil_r. }
  cbn [generate_run_loop].
  apply post_bind. rewrite (post_eq _ _ _ _ _ (liftR_eq _ _)).
  destruct (transmute_time_at run i state) as [t|e] eqn:Et; [|done].
  apply post_bind.
  destruct (statelibs w !! values state) as [[[k phi_g] xs]|] eqn:Hlib.
  { pose proof (generate_post rc state t w) as Hg.
    unfold post, generate_outcome in Hg. rewrite Hlib in Hg.
    destruct (generate rc state t w) as [r1 w1] eqn:Eg.
    cbn [fst snd] in Hg. destruct Hg as [-> ->].
    rewrite (post_eq _ _ _ _ _ Eg).
    apply post_bind. by rewrite (post_eq _ _ _ _ _ (liftR_eq _ _)). }
  eapply post_mono; [by apply generate_flux|].
  intros [g|e] w1 [Hw1 Hg]; [|done].
  destruct Hg as (new & f & Htr & Hflux & Hf).
  apply post_bind. rewrite (post_eq _ _ _ _ _ (liftR_eq _ _)).
  destruct (unpack4 g) as [[[[k phi_g] xs] mat]|e]; [|done].
  apply post_bind. rewrite (post_eq _ _ _ _ _ (liftR_eq _ _)).
  destruct (burn_times state) as [bt|e]; [|done].
  eapply post_mono; [by apply IH|]. clear IH.
  intros [[lib mh']|e] w' Hr; [|done].
  destruct Hr as (tr & Htr' & Hall).
  exists (new ++ tr). split.
  - rewrite Htr', Htr. by rewrite <-(assoc_L (++)).
  - unfold tape5_fluxes in *. rewrite omap_events_app, Hflux.
    by constructor.
Qed.

End good_statepoints.

(** X6: in a build that returns, one flux is written to [TAPE5.INP] per
    step.  When no statepoint file of the world has a flux tally of zero
    total and the executables leave none, that flux is the sum of a
    normalized group flux and so equals 1 in exact arithmetic: the
    magnitude of the tallied flux does not reach ORIGEN. *)
Theorem tape5_flux_is_normalized rc run w lib w' :
  generate_run rc run w = (Ok lib, w') →
  good_files w → good_executables rc →
  let fluxes := tape5_fluxes (new_events w w') in
  length fluxes = length run
  ∧ Forall (λ f, (f == 1)%Q) fluxes.
Proof.
  intros Hrun Hw Hexec. cbn zeta. split.
  - destruct (generate_run_steps _ _ _ _ _ Hrun) as (mats & H & _).
    generalize dependent (new_events w w'). intros tr H.
    clear Hrun Hw. generalize dependent (fuel_material w). generalize 0%nat.
    intros i fuel H.
    induction H as [|i state rest fuel t phi_g tail d' reused sp k mat tr mats
                     Ht Htail Hsp Ht6 Hsteps IH]; [done|].
    unfold tape5_fluxes in *. rewrite omap_events_app.
    fold (tape5_fluxes (step_events rc state t fuel phi_g tail d')).
    rewrite (step_events_tape5 _ _ _ _ _ _ _ _ Htail).
    cbn [app length]. by rewrite IH.
  - pose proof (generate_run_loop_fluxes rc Hexec run run 0
      {| TIME := []; NEUT_PROD := []; NEUT_DEST := []; BUd := [];
         nuc_rows := ∅ |} [] w Hw) as H.
    unfold post in H. unfold generate_run, bindM in Hrun.
    destruct (generate_run_loop rc run 0 run _ [] w) as [[[run_lib mh]|e] w1];
      [|done].
    cbn [fst snd] in H. destruct H as (tr & Htr & Hall).
    rewrite liftR_eq in Hrun.
    destruct (nuc_histories (nucname_name rc) mh) as [rows|e]; [|done].
    rewrite retM_eq in Hrun. injection Hrun as _ <-.
    unfold new_events. rewrite Htr. by rewrite drop_app_length.
Qed.

Lemma tape5_flux_is_normalized_witness :
  let fluxes := tape5_fluxes (new_events Stub.world0 Stub.built3.2) in
  length fluxes = length Stub.run3
  ∧ Forall (λ f, (f == 1)%Q) fluxes.
Proof.
  apply (tape5_flux_is_normalized (Stub.rc true) Stub.run3 Stub.world0
                                  Stub.lib3).
  - vm_compute. reflexivity.
  - intros p d Hd. cbn in Hd. by rewrite lookup_empty in Hd.
  - assert (nonzero_total Stub.sp) as Hsp.
    { intros t Ht. cbn in Ht. injection Ht as <-. discriminate. }
    intros cmd d Hd n sp Hin. destruct cmd as [args|name]; cbn in Hin.
    + apply elem_of_set_file in Hin as [Hin|Heq]; [by eapply Hd|].
      by injection Heq as ->.
    + destruct (lookup_file d "TAPE4.INP") as [[]|];
        try (by eapply Hd).
      destruct (lookup_file d "TAPE5.INP") as [[]|];
        try (by eapply Hd).
      apply elem_of_set_file in Hin as [Hin|Heq]; [by eapply Hd|done].
Defined.

(** X7: a build that returns started exactly one ORIGEN process per step, in
    step order, each with the selected command in the step's own
    [origen] directory, and at most one transport process per step, in
    the step's [omc] directory. *)
Theorem build_processes rc run w lib w' :
  generate_run rc run w = (Ok lib, w') →
  let new := new_events w w' in
  origen_calls new = (λ s, (origen_command rc, pwd rc s "origen")) <$> run
  ∧ openmc_calls new `sublist_of` (λ s, pwd rc s "omc") <$> run.
Proof.
  intros Hrun. destruct (generate_run_steps _ _ _ _ _ Hrun) as (mats & H & _).
  cbn zeta. generalize dependent (new_events w w'). intros tr H.
  clear Hrun. generalize dependent (fuel_material w). generalize 0%nat.
  intros i fuel H.
  induction H as [|i state rest fuel t phi_g tail d' reused sp k mat tr mats
                   Ht Htail Hsp Ht6 Hsteps [IH1 IH2]]; [done|].
  unfold origen_calls, openmc_calls in *. rewrite !omap_events_app.
  fold (origen_calls (step_events rc state t fuel phi_g tail d')).
  fold (openmc_calls (step_events rc state t fuel phi_g tail d')).
  rewrite (step_events_origen_calls _ _ _ _ _ _ _ _ Htail).
  rewrite (step_events_openmc_calls _ _ _ _ _ _ _ _ Htail).
  cbn [fmap list_fmap app]. split; [by rewrite IH1|].
  destruct reused; cbn [app].
  - by apply sublist_cons.
  - by apply sublist_skip.
Qed.

Lemma build_processes_witness :
  let new := new_events Stub.world0 Stub.built3.2 in
  origen_calls new
  = (λ s, (origen_command (Stub.rc true), pwd (Stub.rc true) s "origen"))
      <$> Stub.run3
  ∧ openmc_calls new
      `sublist_of` (λ s, pwd (Stub.rc true) s "omc") <$> Stub.run3.
Proof.
  apply (build_processes (Stub.rc true) Stub.run3 Stub.world0 Stub.lib3).
  vm_compute. reflexivity.
Defined.

(** * The cache along a build *)

Lemma cache_grows_refl keys w : cache_grows keys w w.
Proof. split; [done|]. intros key H. by left. Qed.

Lemma cache_grows_insert key v keys w w' :
  statelibs w !! key = None →
  statelibs w' = statelibs w ∨ statelibs w' = <[key := v]> (statelibs w) →
  cache_grows (key :: keys) w w'.
Proof.
  intros Hnone [Heq|Heq]; unfold cache_grows; rewrite Heq.
  - split; [done|]. intros k H. by left.
  - split.
    + intros k v' Hk. rewrite lookup_insert_ne; [done|]. congruence.
    + intros k Hk. destruct (decide (key = k)) as [->|Hne].
      * right. left.
      * rewrite lookup_insert_ne in Hk by done. by left.
Qed.

Lemma cache_grows_trans key keys w w1 w' :
  cache_grows [key] w w1 → cache_grows keys w1 w' →
  cache_grows (key :: keys) w w'.
Proof.
  intros [H1 H2] [H3 H4]. split.
  - intros k v Hk. by apply H3, H1.
  - intros k Hk. destruct (H4 k Hk) as [Hk1|Hin]; [|right; by right].
    destruct (H2 k Hk1) as [?|Hin]; [by left|].
    apply list_elem_of_singleton in Hin. subst k. right. left.
Qed.

Lemma generate_hit_eq rc state t w k phi_g xs :
  statelibs w !! values state = Some (k, phi_g, xs) →
  generate rc state t w = (Ok (Tuple3 k phi_g xs), w).
Proof.
  intros Hhit. pose proof (generate_post rc state t w) as H.
  unfold post, generate_outcome in H. rewrite Hhit in H.
  destruct (generate rc state t w) as [r w']. cbn [fst snd] in H.
  by destruct H as [-> ->].
Qed.

Lemma generate_cache rc state t w :
  post (generate rc state t) w (λ r w',
    cache_grows [values state] w w'
    ∧ ∀ k phi_g xs mat, r = Ok (Tuple4 k phi_g xs mat) →
        statelibs w !! values state = None
        ∧ statelibs w' = <[values state := (k, phi_g, xs)]> (statelibs w)).
Proof.
  pose proof (generate_post rc state t w) as H.
  unfold post, generate_outcome in *.
  destruct (generate rc state t w) as [r w']. cbn [fst snd] in *.
  destruct (statelibs w !! values state) as [[[k phi_g] xs]|] eqn:Hlib.
  { destruct H as [-> ->]. split; [apply cache_grows_refl|done]. }
  destruct H as (new & _ & _ & _ & H). destruct r as [g|e].
  - destruct H as (k & phi_g & xs & mat & -> & _ & _ & _ & Hs). split.
    + eapply cache_grows_insert; [done|]. by right.
    + by intros k' phi' xs' mat' [= <- <- <- <-].
  - destruct H as (_ & _ & [[_ Hs]|(k & phi_g & xs & w1 & _ & _ & Hs)]).
    + split; [|done]. eapply (cache_grows_insert _ (0%Q, [], [])); [done|].
      by left.
    + split; [|done]. eapply cache_grows_insert; [done|]. by right.
Qed.

Lemma generate_run_loop_cache rc run : ∀ rest i run_lib mat_hist w,
  post (generate_run_loop rc run i rest run_lib mat_hist) w (λ r w',
    cache_grows (values <$> rest) w w'
    ∧ match r with
      | Ok (run_lib', _) =>
          NoDup (values <$> rest)
          ∧ Forall (λ s, statelibs w !! values s = None) rest
          ∧ Forall (λ s, is_Some (statelibs w' !! values s)) rest
          ∧ rows_extended run_lib run_lib' rest
      | Raise _ => True
      end).
Proof.
  induction rest as [|state rest IH]; intros i run_lib mat_hist w.
  { cbn [generate_run_loop]. rewrite (post_eq _ _ _ _ _ (retM_eq _ _)).
    split; [apply cache_grows_refl|]. split_and!; try constructor.
    exists []. cbn. by rewrite !app_nil_r. }
  cbn [generate_run_loop].
  apply post_bind. rewrite (post_eq _ _ _ _ _ (liftR_eq _ _)).
  destruct (transmute_time_at run i state) as [t|e];
    [|split; [apply cache_grows_refl|done]].
  apply post_bind. eapply post_mono; [apply generate_cache|].
  intros [g|e] w1 [Hgrow Hg];
    [|split; [|done]; eapply cache_grows_trans;
      [done|apply cache_grows_refl]].
  apply post_bind. rewrite (post_eq _ _ _ _ _ (liftR_eq _ _)).
  destruct g as [k phi_g xs|k phi_g xs mat]; cbn [unpack4].
  { split; [|done]. eapply cache_grows_trans; [done|apply cache_grows_refl]. }
  destruct (Hg k phi_g xs mat eq_refl) as [Hnone Hs1].
  apply post_bind. rewrite (post_eq _ _ _ _ _ (liftR_eq _ _)).
  destruct (burn_times state) as [bt|e] eqn:Ebt.
  2:{ split; [|done].
      eapply cache_grows_trans; [done|apply cache_grows_refl]. }
  eapply post_mono; [apply IH|]. clear IH.
  intros r w' [Hgrow' Hr]. split; [by eapply cache_grows_trans|].
  destruct r as [[lib' mh']|e]; [|done].
  destruct Hr as (Hnd & Hfresh & Hcached & (ts & Hts & HT & HP & HD & HB & HN)).
  cbn [TIME NEUT_PROD NEUT_DEST BUd nuc_rows] in *.
  assert (values state ∉ values <$> rest) as Hnin.
  { intros Hin. apply list_elem_of_fmap in Hin as (s & Hs & Hin).
    rewrite Forall_forall in Hfresh. specialize (Hfresh s Hin).
    rewrite Hs1, <-Hs, lookup_insert_eq in Hfresh. done. }
  split_and!.
  - cbn [fmap list_fmap]. by apply NoDup_cons.
  - apply Forall_cons. split; [done|].
    eapply Forall_impl; [exact Hfresh|]. intros s Hs. cbn in Hs.
    rewrite Hs1 in Hs. destruct (decide (values state = values s)) as [Heq|Hne].
    + by rewrite Heq, lookup_insert_eq in Hs.
    + by rewrite lookup_insert_ne in Hs.
  - apply Forall_cons. split; [|done].
    destruct Hgrow' as [Hkeep _].
    erewrite Hkeep; [done|]. rewrite Hs1. apply lookup_insert_eq.
  - exists (bt :: ts). cbn [mapR bindR length replicate].
    rewrite Ebt. cbn [bindR]. rewrite Hts. cbn [bindR].
    rewrite HT, HP, HD, HB, HN, <-!(assoc_L (++)). done.
Qed.

Lemma generate_run_cache rc run w :
  post (generate_run rc run) w (λ r w',
    cache_grows (values <$> run) w w'
    ∧ match r with
      | Ok lib =>
          NoDup (values <$> run)
          ∧ Forall (λ s, statelibs w !! values s = None) run
          ∧ Forall (λ s, is_Some (statelibs w' !! values s)) run
          ∧ rows_extended
              {| TIME := []; NEUT_PROD := []; NEUT_DEST := []; BUd := [];
                 nuc_rows := ∅ |}
              {| TIME := TIME lib; NEUT_PROD := NEUT_PROD lib;
                 NEUT_DEST := NEUT_DEST lib; BUd := BUd lib;
                 nuc_rows := ∅ |} run
      | Raise _ => True
      end).
Proof.
  unfold generate_run. apply post_bind.
  eapply post_mono; [apply generate_run_loop_cache|].
  intros [[run_lib mat_hist]|e] w' [Hgrow Hr]; [|done].
  apply post_bind. rewrite (post_eq _ _ _ _ _ (liftR_eq _ _)).
  destruct (nuc_histories _ _) as [rows|e]; [|done].
  rewrite (post_eq _ _ _ _ _ (retM_eq _ _)). split; [done|].
  destruct Hr as (? & ? & ? & ts & ? & ? & ? & ? & ? & ?).
  split_and!; try done. exists ts. cbn [TIME NEUT_PROD NEUT_DEST BUd nuc_rows].
  by split_and!.
Qed.

(** X8: a build, whatever its outcome, keeps every cache entry as it is and
    adds entries only under the States of the run. *)
Theorem generate_run_cache_grows rc run w :
  cache_grows (values <$> run) w (generate_run rc run w).2.
Proof.
  pose proof (generate_run_cache rc run w) as H. unfold post in H.
  by destruct H as [H _].
Qed.

(** X9: a build returns only if the States of the run are pairwise distinct
    and none of them was in the cache; afterwards all of them are. *)
Theorem generate_run_needs_fresh_states rc run w lib w' :
  generate_run rc run w = (Ok lib, w') →
  NoDup (values <$> run)
  ∧ Forall (λ s, statelibs w !! values s = None) run
  ∧ Forall (λ s, is_Some (statelibs w' !! values s)) run.
Proof.
  intros Hrun. pose proof (generate_run_cache rc run w) as H.
  unfold post in H. rewrite Hrun in H. cbn [fst snd] in H.
  by destruct H as (_ & ? & ? & ? & _).
Qed.

Lemma generate_run_needs_fresh_states_witness :
  NoDup (values <$> Stub.run3)
  ∧ Forall (λ s, statelibs Stub.world0 !! values s = None) Stub.run3
  ∧ Forall (λ s, is_Some (statelibs Stub.built3.2 !! values s)) Stub.run3.
Proof.
  apply (generate_run_needs_fresh_states (Stub.rc true) Stub.run3 Stub.world0
                                         Stub.lib3).
  vm_compute. reflexivity.
Defined.

(** X10: the scalar rows of the Library a build returns: [TIME] holds the
    [burn_times] of the States in step order; [NEUT_PROD], [NEUT_DEST] and
    [BUd] hold one zero per step. *)
Theorem generate_run_scalar_rows rc run w lib w' :
  generate_run rc run w = (Ok lib, w') →
  mapR burn_times run = Ok (TIME lib)
  ∧ NEUT_PROD lib = replicate (length run) 0
  ∧ NEUT_DEST lib = replicate (length run) 0
  ∧ BUd lib = replicate (length run) 0.
Proof.
  intros Hrun. pose proof (generate_run_cache rc run w) as H.
  unfold post in H. rewrite Hrun in H. cbn [fst snd] in H.
  destruct H as (_ & _ & _ & _ & ts & Hts & HT & HP & HD & HB & _).
  cbn [TIME NEUT_PROD NEUT_DEST BUd app] in *.
  by rewrite HT, HP, HD, HB.
Qed.

Lemma generate_run_scalar_rows_witness :
  mapR burn_times Stub.run3 = Ok (TIME Stub.lib3)
  ∧ NEUT_PROD Stub.lib3 = replicate (length Stub.run3) 0
  ∧ NEUT_DEST Stub.lib3 = replicate (length Stub.run3) 0
  ∧ BUd Stub.lib3 = replicate (length Stub.run3) 0.
Proof.
  apply (generate_run_scalar_rows (Stub.rc true) Stub.run3 Stub.world0
                                  Stub.lib3 Stub.built3.2).
  vm_compute. reflexivity.
Defined.

Lemma generate_run_cached_head rc state rest w k phi_g xs t :
  statelibs w !! values state = Some (k, phi_g, xs) →
  transmute_time_at (state :: rest) 0 state = Ok t →
  generate_run rc (state :: rest) w = (Raise ValueError, w).
Proof.
  intros Hhit Ht. unfold generate_run. cbn [generate_run_loop].
  unfold bindM at 1. unfold bindM at 1. rewrite liftR_eq, Ht.
  unfold bindM at 1. rewrite (generate_hit_eq _ _ _ _ _ _ _ Hhit).
  unfold bindM at 1. rewrite liftR_eq. done.
Qed.

(** X11: a run that was built cannot be built again: the second build finds
    its first State in the cache, raises [ValueError] and leaves the
    world, so the trace, as it is. *)
Theorem generate_run_twice rc run w lib w' :
  generate_run rc run w = (Ok lib, w') → run ≠ [] →
  generate_run rc run w' = (Raise ValueError, w').
Proof.
  intros Hrun Hne. destruct run as [|state rest]; [done|].
  pose proof (generate_run_cache rc (state :: rest) w) as H.
  unfold post in H. rewrite Hrun in H. cbn [fst snd] in H.
  destruct H as (_ & _ & _ & Hcached & _).
  apply Forall_cons in Hcached as [[[[k phi_g] xs] Hhit] _].
  pose proof (generate_run_post rc (state :: rest) w) as H.
  unfold post in H. rewrite Hrun in H. cbn [fst snd] in H.
  destruct H as (new & _ & _ & _ & Htt & _).
  cbn [transmute_times] in Htt.
  destruct (transmute_time_at (state :: rest) 0 state) as [t|e] eqn:Et;
    [|done].
  by eapply generate_run_cached_head.
Qed.

Lemma generate_run_twice_witness :
  generate_run (Stub.rc true) Stub.run3 Stub.built3.2
  = (Raise ValueError, Stub.built3.2).
Proof.
  apply (generate_run_twice (Stub.rc true) Stub.run3 Stub.world0 Stub.lib3).
  - vm_compute. reflexivity.
  - discriminate.
Defined.

(** X12: after a call of [generate] whose transport stage returned and whose
    transmutation stage raised, a retry does not run the transmutation
    again: it returns the cached 3-tuple and changes nothing. *)
Theorem generate_retry_after_origen_failure rc state t w e w' k phi_g xs w1 :
  generate rc state t w = (Raise e, w') →
  openmc rc state w = (Ok (k, phi_g, xs), w1) →
  ∀ t', generate rc state t' w' = (Ok (Tuple3 k phi_g xs), w').
Proof.
  intros Hgen Homc t'. pose proof (generate_post rc state t w) as H.
  unfold post, generate_outcome in H. rewrite Hgen in H. cbn [fst snd] in H.
  destruct (statelibs w !! values state) as [[[k0 phi0] xs0]|].
  { by destruct H. }
  destruct H as (new & _ & _ & _ & _ & _ & [[Habs _]|H]).
  { rewrite Homc in Habs. done. }
  destruct H as (k' & phi' & xs' & w1' & Homc' & _ & Hs).
  rewrite Homc in Homc'. injection Homc' as <- <- <- <-.
  apply generate_hit_eq. rewrite Hs. apply lookup_insert_eq.
Qed.

Lemma generate_retry_after_origen_failure_witness :
  generate (Stub.rc false) (Stub.s 4 0) 100 Stub.failed.2
  = (Ok (Tuple3 1 [(3 # 4)%Q; (1 # 4)%Q]
           [(922350, 1, [(3 # 4)%Q; (1 # 4)%Q]);
            (922350, 2, [(3 # 4)%Q; (1 # 4)%Q])]), Stub.failed.2).
Proof.
  apply (generate_retry_after_origen_failure (Stub.rc false) (Stub.s 4 0) 100
           Stub.world0 CalledProcessError Stub.failed.2 _ _ _
           (openmc (Stub.rc false) (Stub.s 4 0) Stub.world0).2).
  - vm_compute. reflexivity.
  - vm_compute. reflexivity.
Defined.

Lemma update_src_idem old new :
  update_src (update_src old new) new = update_src old new.
Proof.
  unfold update_src. by rewrite drop_app_length.
Qed.

(** X13: the statepoint on disk makes the transport stage repeatable: once
    [openmc] has returned for a State, calling it again returns the same
    values and starts no process, whatever the in-memory cache holds. *)
Theorem openmc_idempotent rc state w r w' :
  openmc rc state w = (Ok r, w') →
  (openmc rc state w').1 = Ok r
  ∧ calls (new_events w' (openmc rc state w').2) = [].
Proof.
  intros Hfirst. pose proof (openmc_exact rc state w) as H.
  unfold post in H. rewrite Hfirst in H. cbn [fst snd] in H.
  destruct H as (tail & _ & _ & Hres). destruct r as [[k phi_g] xs].
  destruct (Hres k phi_g xs eq_refl)
    as (d & n & sp & Hd & Hn & Hfile & Hsp & Hsrc & Hxs).
  assert (default [] (fs w' !! pwd rc state "omc") = d) as Hdef
    by (by rewrite Hd).
  split.
  - rewrite (openmc_reuse rc state w' n sp) by (by rewrite Hdef).
    rewrite Hsp, Hsrc, update_src_idem, <-Hsrc. by rewrite Hxs.
  - pose proof (openmc_post rc state w') as H. unfold post in H.
    destruct H as (new & Hfr & _ & _ & _ & _ & Hcalls).
    rewrite (frame_new_events _ _ _ Hfr), Hcalls, Hdef, Hn. done.
Qed.

Lemma openmc_idempotent_witness :
  (openmc (Stub.rc true) (Stub.s 4 0)
          (openmc (Stub.rc true) (Stub.s 4 0) Stub.world0).2).1
  = Ok (1%Q, [(3 # 4)%Q; (1 # 4)%Q],
        [(922350, 1, [(3 # 4)%Q; (1 # 4)%Q]);
         (922350, 2, [(3 # 4)%Q; (1 # 4)%Q])])
  ∧ calls (new_events (openmc (Stub.rc true) (Stub.s 4 0) Stub.world0).2
             (openmc (Stub.rc true) (Stub.s 4 0)
                (openmc (Stub.rc true) (Stub.s 4 0) Stub.world0).2).2) = [].
Proof.
  apply (openmc_idempotent (Stub.rc true) (Stub.s 4 0) Stub.world0).
  vm_compute. reflexivity.
Defined.

(** * More on the transmutation matrix *)

Lemma history_from_exceeds threshold nuc materials : ∀ i,
  exceeds_somewhere threshold nuc materials →
  is_Some (history_from threshold nuc i materials None).
Proof.
  induction materials as [|mat rest IH]; intros i (m & v & Hin & Hv & Hgt).
  { by apply elem_of_nil in Hin. }
  cbn [history_from].
  destruct (history_step threshold i None (mat !! nuc)) as [h|] eqn:Hstep.
  { rewrite history_from_Some. by eexists. }
  apply IH. apply elem_of_cons in Hin as [-> |Hin]; [|by exists m, v].
  exfalso. rewrite Hv in Hstep. cbn [history_step] in Hstep.
  destruct (Qle_bool v threshold) eqn:Hle; [|done].
  apply Qle_bool_iff in Hle. by apply Qle_not_lt in Hle.
Qed.

Lemma first_exceeds_somewhere threshold nuc materials k :
  first_exceeds threshold nuc materials k →
  exceeds_somewhere threshold nuc materials.
Proof.
  intros (_ & mat & v & Hmat & Hv & Hgt). exists mat, v.
  split_and!; [|done|done]. by eapply list_elem_of_lookup_2.
Qed.

(** X14: [BrightliteWriter.write] keeps a nuclide exactly when its fraction
    exceeds the tracking threshold in the material of some step; a
    fraction equal to the threshold does not count. *)
Theorem trans_matrix_kept_iff (name : Z → string) threshold materials nuc :
  Inj (=) (=) name →
  is_Some (trans_matrix name threshold materials !! name nuc)
  ↔ exceeds_somewhere threshold nuc materials.
Proof.
  intros Hinj. unfold trans_matrix.
  rewrite (trans_matrix_loop_lookup name Hinj), lookup_empty. split.
  - intros [h Hh]. destruct (history_from_None _ _ _ _ _ Hh) as (k & Hk & _).
    by eapply first_exceeds_somewhere.
  - apply history_from_exceeds.
Qed.

Lemma trans_matrix_kept_iff_witness :
  is_Some (trans_matrix pretty (1 # 1000) Stub.appearing !! pretty 3%Z)
  ↔ exceeds_somewhere (1 # 1000) 3 Stub.appearing.
Proof. apply (trans_matrix_kept_iff pretty). apply _. Defined.

Example trans_matrix_at_threshold :
  trans_matrix pretty (1 # 2) Stub.appearing !! "3" = None
  ∧ trans_matrix pretty (1 # 2) Stub.appearing !! "2" = Some [1000%Q; (1000 # 2)%Q].
Proof. split; vm_compute; reflexivity. Qed.

Lemma trans_matrix_entry_key (name : Z → string) threshold i tm item key :
  is_Some (trans_matrix_entry name threshold i tm item !! key) →
  is_Some (tm !! key) ∨ key = name item.1.
Proof.
  unfold trans_matrix_entry. destruct (decide (name item.1 = key)) as [<- |Hne].
  { by right. }
  destruct (tm !! name item.1); [rewrite lookup_insert_ne by done; by left|].
  destruct (negb _); [rewrite lookup_insert_ne by done; by left|by left].
Qed.

Lemma trans_matrix_loop_key (name : Z → string) threshold materials key :
  ∀ i tm,
  is_Some (trans_matrix_loop name threshold i materials tm !! key) →
  is_Some (tm !! key) ∨ ∃ nuc, key = name nuc.
Proof.
  induction materials as [|mat rest IH]; intros i tm H; [by left|].
  cbn [trans_matrix_loop] in H. destruct (IH _ _ H) as [H'|?]; [|by right].
  clear H IH. revert tm H'.
  induction (map_to_list mat) as [|item items IH]; intros tm H; [by left|].
  cbn [foldl] in H. destruct (IH _ H) as [H'|?]; [|by right].
  destruct (trans_matrix_entry_key _ _ _ _ _ _ H') as [?| ->]; [by left|].
  right. by eexists.
Qed.

Lemma scaled_fractions_length nuc materials :
  (length (scaled_fractions nuc materials) ≤ length materials)%nat.
Proof.
  unfold scaled_fractions. induction materials as [|mat rest IH]; [done|].
  cbn [omap list_omap]. destruct (mat !! nuc); cbn; lia.
Qed.

(** X15: every row of the transmutation matrix belongs to the name of a
    nuclide and is never longer than the number of steps. *)
Theorem trans_matrix_row_bound (name : Z → string) threshold materials key h :
  Inj (=) (=) name →
  trans_matrix name threshold materials !! key = Some h →
  (∃ nuc, key = name nuc) ∧ (length h ≤ length materials)%nat.
Proof.
  intros Hinj Hh. unfold trans_matrix in *.
  destruct (trans_matrix_loop_key name threshold materials key 0%nat ∅)
    as [[? Habs]|[nuc ->] ]; [by eexists|by rewrite lookup_empty in Habs|].
  split; [by exists nuc|].
  rewrite (trans_matrix_loop_lookup name Hinj), lookup_empty in Hh.
  destruct (history_from_None _ _ _ _ _ Hh) as (k & Hk & ->).
  destruct Hk as (_ & mat & v & Hmat & _). apply lookup_lt_Some in Hmat.
  rewrite length_app, length_replicate. cbn [Nat.add].
  pose proof (scaled_fractions_length nuc (drop k materials)) as Hl.
  rewrite length_drop in Hl. lia.
Qed.

Lemma trans_matrix_row_bound_witness :
  (∃ nuc : Z, "1" = pretty nuc)
  ∧ (length [(1000 # 2)%Q] ≤ length Stub.vanishing)%nat.
Proof.
  apply (trans_matrix_row_bound pretty (1 # 1000) Stub.vanishing);
    [apply _|].
  vm_compute. reflexivity.
Defined.

(** * More on the assembled histories *)

Lemma mapR_Ok {A B} (f : A → Res B) (l : list A) :
  (∀ x, x ∈ l → ∃ y, f x = Ok y) → ∃ ys, mapR f l = Ok ys.
Proof.
  induction l as [|x l IH]; intros H; [by exists []|].
  destruct (H x) as [y Hy]; [left|].
  destruct IH as [ys Hys]; [intros x' Hx'; apply H; by right|].
  exists (y :: ys). cbn [mapR]. by rewrite Hy, Hys.
Qed.

Lemma mapR_Raise {A B} (f : A → Res B) (l : list A) e :
  mapR f l = Raise e → ∃ x, x ∈ l ∧ f x = Raise e.
Proof.
  induction l as [|x l IH]; intros H; cbn [mapR] in H; [done|].
  destruct (f x) as [y|e'] eqn:Ey.
  - cbn [bindR] in H. destruct (mapR f l) as [ys|e'] eqn:Eys; [done|].
    cbn [bindR] in H. injection H as ->.
    destruct (IH eq_refl) as (x' & Hx' & Hf). exists x'. split; [by right|done].
  - cbn [bindR] in H. injection H as ->. exists x. split; [left|done].
Qed.

(** X16: assembling the nuclide histories succeeds exactly when all materials
    of the history have the same nuclides; otherwise it raises
    [KeyError]. *)
Theorem nuc_histories_same_nuclides (name : Z → string) mat_hist :
  match nuc_histories name mat_hist with
  | Ok _ => same_nuclides mat_hist
  | Raise e => e = KeyError ∧ ¬ same_nuclides mat_hist
  end.
Proof.
  unfold nuc_histories.
  destruct (mapR _ (elements (nuc_set mat_hist))) as [pairs|e] eqn:Ep;
    cbn [bindR].
  - apply mapR_Forall2 in Ep. intros m1 m2 nuc H1 H2 Hsome.
    assert (nuc ∈ elements (nuc_set mat_hist)) as Hin.
    { apply elem_of_elements, nuc_set_elem. by exists m1. }
    apply list_elem_of_lookup in Hin as [i Hi].
    destruct (Forall2_lookup_l _ _ _ _ _ Ep Hi) as (pair & _ & Hpair).
    unfold nuc_history in Hpair.
    destruct (mapR _ mat_hist) as [h|e] eqn:Eh; [|done].
    apply mapR_Forall2 in Eh.
    apply list_elem_of_lookup in H2 as [j Hj].
    destruct (Forall2_lookup_l _ _ _ _ _ Eh Hj) as (v & _ & Hv).
    unfold comp_getitem in Hv. destruct (m2 !! nuc); [by eexists|done].
  - apply mapR_Raise in Ep as (nuc & Hnuc & Hf).
    unfold nuc_history in Hf.
    destruct (mapR _ mat_hist) as [h|e'] eqn:Eh; [done|].
    cbn [bindR] in Hf. injection Hf as ->.
    apply mapR_Raise in Eh as (m2 & Hm2 & Hget).
    unfold comp_getitem in Hget.
    destruct (m2 !! nuc) eqn:Hm2nuc; [done|]. injection Hget as <-.
    split; [done|]. intros Hsame.
    apply elem_of_elements, nuc_set_elem in Hnuc as (m1 & Hm1 & Hsome).
    destruct (Hsame m1 m2 nuc Hm1 Hm2 Hsome) as [v Hv]. congruence.
Qed.

Example nuc_histories_vanishing :
  nuc_histories pretty Stub.vanishing = Raise KeyError.
Proof. vm_compute. reflexivity. Qed.

(** * More on the statepoint *)



Lemma Qsum_nonneg (l : list Q) : Forall (λ x, (0 <= x)%Q) l → (0 <= Qsum l)%Q.
Proof.
  induction 1 as [|x l Hx _ IH]; [apply Qle_refl|]. cbn [Qsum foldr].
  fold (Qsum l). rewrite <-(Qplus_0_r 0). by apply Qplus_le_compat.
Qed.

Lemma Qsum_bound (l : list Q) x :
  Forall (λ x, (0 <= x)%Q) l → x ∈ l → (x <= Qsum l)%Q.
Proof.
  induction 1 as [|y l Hy Hl IH]; intros Hin; [by apply elem_of_nil in Hin|].
  cbn [Qsum foldr]. fold (Qsum l).
  apply elem_of_cons in Hin as [->|Hin].
  - rewrite <-(Qplus_0_r y) at 1. apply Qplus_le_compat; [apply Qle_refl|].
    by apply Qsum_nonneg.
  - rewrite <-(Qplus_0_l x). apply Qplus_le_compat; [done|by apply IH].
Qed.

(** X17: the group flux a statepoint yields has one entry per tally value;
    when the tally values are non-negative with a positive total, every
    entry lies between 0 and 1; and [k] is the first component of
    [k_combined]. *)
Theorem statepoint_results_bounds sp k phi_g t_flux :
  statepoint_results sp = Ok (k, phi_g) →
  tallies sp !! 0%nat = Some t_flux →
  k = (k_combined sp).1
  ∧ length phi_g = length (flux_of_tally t_flux)
  ∧ (Forall (λ x, (0 <= x)%Q) (flux_of_tally t_flux) →
     (0 < Qsum (flux_of_tally t_flux))%Q →
     Forall (λ x, (0 <= x)%Q ∧ (x <= 1)%Q) phi_g).
Proof.
  unfold statepoint_results, getitem. destruct (k_combined sp) as [k0 kerr].
  intros H Ht. rewrite Ht in H. cbn [bindR] in H. injection H as <- <-.
  split_and!; [done|unfold normalize; by rewrite length_map|].
  intros Hnn Hpos. unfold normalize. apply Forall_forall. intros y Hy.
  apply list_elem_of_In, in_map_iff in Hy as (x & <- & Hx).
  apply list_elem_of_In in Hx. split.
  - apply Qle_shift_div_l; [done|]. rewrite Qmult_0_l.
    rewrite Forall_forall in Hnn. by apply Hnn.
  - apply Qle_shift_div_r; [done|]. rewrite Qmult_1_l. by apply Qsum_bound.
Qed.

Lemma statepoint_results_bounds_witness :
  (1%Q = (k_combined Stub.sp).1)
  ∧ length [(3 # 4)%Q; (1 # 4)%Q]
    = length (flux_of_tally [ [(1, 0)%Q]; [(3, 0)%Q] ])
  ∧ Forall (λ x, (0 <= x)%Q ∧ (x <= 1)%Q) [(3 # 4)%Q; (1 # 4)%Q].
Proof.
  destruct (statepoint_results_bounds Stub.sp 1 [(3 # 4)%Q; (1 # 4)%Q]
              [ [(1, 0)%Q]; [(3, 0)%Q] ]) as (Hk & Hlen & Hbounds).
  - vm_compute. reflexivity.
  - reflexivity.
  - split_and!; [exact Hk|exact Hlen|]. apply Hbounds.
    + repeat constructor; discriminate.
    + reflexivity.
Defined.




(** X19: [_find_statepoint] changes nothing.  It raises when the directory
    does not exist, returns [None] exactly when no file name of the
    directory starts with [statepoint], and otherwise returns the first
    such file of the listing, in that directory. *)
Theorem find_statepoint_first p w :
  (_find_statepoint p w).2 = w
  ∧ match (_find_statepoint p w).1 with
    | Raise _ => fs w !! p = None
    | Ok None =>
        ∃ d, fs w !! p = Some d
             ∧ Forall (λ n, String.prefix "statepoint" n = false) d.*1
    | Ok (Some (p', n)) =>
        p' = p
        ∧ ∃ d pre post,
            fs w !! p = Some d ∧ d.*1 = pre ++ n :: post
            ∧ String.prefix "statepoint" n = true
            ∧ Forall (λ n, String.prefix "statepoint" n = false) pre
    end.
Proof.
  unfold _find_statepoint. destruct (fs w !! p) as [d|]; cbn [fst snd];
    [|done].
  split; [done|]. pose proof (first_statepoint_spec d.*1) as H.
  destruct (first_statepoint d.*1) as [n|]; cbn [fmap option_fmap option_map].
  - destruct H as (pre & post & ? & ? & ?). split; [done|].
    by exists d, pre, post.
  - by exists d.
Qed.

(** X20: when a statepoint is reused, what [openmc] returns does not depend
    on the current fuel material, although [materials.xml] is rewritten
    from it. *)
Theorem openmc_reuse_ignores_fuel rc state w n sp fuel :
  first_statepoint (default [] (fs w !! pwd rc state "omc")).*1 = Some n →
  lookup_file (default [] (fs w !! pwd rc state "omc")) n
    = Some (FStatePoint sp) →
  (openmc rc state (set_fuel_material fuel w)).1 = (openmc rc state w).1
  ∧ fuel_inputs (new_events (set_fuel_material fuel w)
                   (openmc rc state (set_fuel_material fuel w)).2)
    = [valid_nucs rc fuel].
Proof.
  intros Hn Hsp. split.
  - rewrite (openmc_reuse rc state w n sp) by done.
    by rewrite (openmc_reuse rc state (set_fuel_material fuel w) n sp).
  - pose proof (openmc_post rc state (set_fuel_material fuel w)) as H.
    unfold post in H. destruct H as (new & Hfr & Hfi & _).
    by rewrite (frame_new_events _ _ _ Hfr).
Qed.

Lemma openmc_reuse_ignores_fuel_witness :
  (openmc (Stub.rc true) (Stub.s 4 0)
     (set_fuel_material Stub.initial_fuel Stub.world_sp)).1
  = (openmc (Stub.rc true) (Stub.s 4 0) Stub.world_sp).1
  ∧ fuel_inputs
      (new_events (set_fuel_material Stub.initial_fuel Stub.world_sp)
         (openmc (Stub.rc true) (Stub.s 4 0)
            (set_fuel_material Stub.initial_fuel Stub.world_sp)).2)
    = [valid_nucs (Stub.rc true) Stub.initial_fuel].
Proof.
  apply (openmc_reuse_ignores_fuel (Stub.rc true) (Stub.s 4 0) Stub.world_sp
           "statepoint.10.binary" Stub.sp).
  - vm_compute. reflexivity.
  - vm_compute. reflexivity.
Defined.

(** * [context] *)

Lemma zip_fst_take {A B} (l : list A) (k : list B) :
  (zip l k).*1 = take (length k) l.
Proof.
  revert k. induction l as [|x l IH]; intros [|y k]; cbn; try done.
  by rewrite IH.
Qed.

Lemma foldl_insert_absent {V} (of_int : Z → V) (kvs : list (string * Z)) :
  ∀ (d : gmap string V) key,
  key ∉ kvs.*1 →
  foldl (λ ctx kv, <[kv.1 := of_int kv.2]> ctx) d kvs !! key = d !! key.
Proof.
  induction kvs as [|[k v] kvs IH]; intros d key Hnin; [done|].
  cbn [fmap list_fmap] in Hnin. apply not_elem_of_cons in Hnin as [Hne Hnin].
  cbn [foldl]. rewrite IH by done. by rewrite lookup_insert_ne.
Qed.

Lemma foldl_insert_present {V} (of_int : Z → V) (kvs : list (string * Z)) :
  ∀ (d : gmap string V) key v,
  NoDup kvs.*1 → (key, v) ∈ kvs →
  foldl (λ ctx kv, <[kv.1 := of_int kv.2]> ctx) d kvs !! key
  = Some (of_int v).
Proof.
  induction kvs as [|[k0 v0] kvs IH]; intros d key v Hnd Hin.
  { by apply elem_of_nil in Hin. }
  cbn [fmap list_fmap] in Hnd. apply NoDup_cons in Hnd as [Hk0 Hnd].
  cbn [foldl]. apply elem_of_cons in Hin as [Heq|Hin].
  - injection Heq as -> ->. rewrite foldl_insert_absent by done.
    apply lookup_insert_eq.
  - by apply IH.
Qed.

(** X21: the context of a State: a perturbation parameter has the State's
    value, whatever the run control holds under that name; every other
    key, also a parameter beyond the State's length, keeps the run
    control's value. *)
Theorem context_lookup {V} (of_int : Z → V) (rc_dict : gmap string V)
    (perturbation_params : list string) (state : State) :
  (∀ key, key ∉ take (length state) perturbation_params →
     context of_int rc_dict perturbation_params state !! key
     = rc_dict !! key)
  ∧ (NoDup perturbation_params →
     ∀ i key v, perturbation_params !! i = Some key →
       values state !! i = Some v →
       context of_int rc_dict perturbation_params state !! key
       = Some (of_int v)).
Proof.
  unfold context. split.
  - intros key Hnin. apply foldl_insert_absent.
    rewrite zip_fst_take. unfold values. by rewrite length_fmap.
  - intros Hnd i key v Hkey Hv. apply foldl_insert_present.
    + rewrite zip_fst_take. eapply sublist_NoDup; [done|apply sublist_take].
    + apply list_elem_of_lookup. exists i.
      rewrite lookup_zip_with, Hkey. cbn. by rewrite Hv.
Qed.

Lemma context_lookup_witness :
  context Z.to_nat {[ "enrichment" := 3%nat; "k_particles" := 1000%nat ]}
          ["enrichment"; "burn_times"] (Stub.s 4 100) !! "enrichment"
  = Some (Z.to_nat 4)
  ∧ context Z.to_nat {[ "enrichment" := 3%nat; "k_particles" := 1000%nat ]}
            ["enrichment"; "burn_times"] (Stub.s 4 100) !! "k_particles"
    = Some 1000%nat.
Proof.
  destruct (context_lookup Z.to_nat
              {[ "enrichment" := 3%nat; "k_particles" := 1000%nat ]}
              ["enrichment"; "burn_times"] (Stub.s 4 100)) as [H1 H2].
  split.
  - assert (NoDup ["enrichment"; "burn_times"]) as Hnd.
    { apply NoDup_cons. split; [|apply NoDup_singleton].
      intros H. apply list_elem_of_singleton in H. discriminate H. }
    apply (H2 Hnd 0%nat); reflexivity.
  - rewrite H1; [reflexivity|]. cbn [length take Stub.s].
    intros H. apply elem_of_cons in H as [H|H]; [discriminate H|].
    apply list_elem_of_singleton in H. discriminate H.
Defined.

(** * Where a build writes *)

Lemma confined_refl dirs w : confined dirs w w.
Proof. split; [done|]. exists []. by rewrite app_nil_r. Qed.

Lemma confined_trans dirs w w1 w2 :
  confined dirs w w1 → confined dirs w1 w2 → confined dirs w w2.
Proof.
  intros [Hf1 (new1 & Ht1 & Hn1)] [Hf2 (new2 & Ht2 & Hn2)]. split.
  - intros p Hp. by rewrite Hf2, Hf1.
  - exists (new1 ++ new2). rewrite Ht2, Ht1, <-(assoc_L (++)).
    split; [done|]. by apply Forall_app.
Qed.

Lemma confined_mono dirs dirs' w w' :
  dirs ⊆ dirs' → confined dirs w w' → confined dirs' w w'.
Proof.
  intros Hsub [Hf (new & Ht & Hn)]. split.
  - intros p Hp. apply Hf. intros Hin. apply Hp. by apply Hsub.
  - exists new. split; [done|]. eapply Forall_impl; [exact Hn|].
    intros e (d & He & Hd). exists d. split; [done|]. by apply Hsub.
Qed.

Lemma confines_bind {A B} dirs (m : M A) (f : A → M B) :
  confines dirs m → (∀ a, confines dirs (f a)) → confines dirs (bindM m f).
Proof.
  intros Hm Hf w. unfold bindM. specialize (Hm w).
  destruct (m w) as [[a|e] w1]; cbn [snd] in *; [|done].
  eapply confined_trans; [exact Hm|apply Hf].
Qed.

Lemma confines_retM {A} dirs (a : A) : confines dirs (retM a).
Proof. intros w. apply confined_refl. Qed.

Lemma confines_liftR {A} dirs (r : Res A) : confines dirs (liftR r).
Proof. intros w. apply confined_refl. Qed.

Lemma confines_gets {A} dirs (f : World → A) : confines dirs (gets f).
Proof. intros w. apply confined_refl. Qed.

Lemma confines_modify dirs (f : World → World) :
  (∀ w, fs (f w) = fs w ∧ trace (f w) = trace w) →
  confines dirs (modify f).
Proof.
  intros Hf w. unfold modify. cbn [snd]. destruct (Hf w) as [H1 H2]. split.
  - intros p _. by rewrite H1.
  - exists []. by rewrite H2, app_nil_r.
Qed.

Lemma confines_ensure_dir dirs p : p ∈ dirs → confines dirs (ensure_dir p).
Proof.
  intros Hp w. unfold ensure_dir, modify. cbn [snd].
  destruct (fs w !! p) as [d|] eqn:E; [apply confined_refl|]. split.
  - intros q Hq. cbn [set_fs fs]. apply lookup_insert_ne. congruence.
  - exists []. cbn [set_fs trace]. by rewrite app_nil_r.
Qed.

Lemma confines_write_file dirs p name f :
  p ∈ dirs → confines dirs (write_file p name f).
Proof.
  intros Hp w. destruct (fs w !! p) as [d|] eqn:E.
  - rewrite (write_file_eq _ _ _ _ _ E). world_simpl. split.
    + intros q Hq. world_simpl. apply lookup_insert_ne. congruence.
    + exists [EvWrite p name f]. world_simpl. split; [done|].
      repeat constructor. by exists p.
  - unfold write_file. rewrite E. apply confined_refl.
Qed.

Lemma confines_check_call dirs rc cmd p :
  p ∈ dirs → confines dirs (check_call rc cmd p).
Proof.
  intros Hp w. destruct (fs w !! p) as [d|] eqn:E.
  - rewrite (check_call_eq _ _ _ _ _ E). world_simpl. split.
    + intros q Hq. world_simpl. apply lookup_insert_ne. congruence.
    + eexists [_]. world_simpl. split; [done|].
      repeat constructor. by exists p.
  - unfold check_call. rewrite E. apply confined_refl.
Qed.

Lemma confines_find_statepoint dirs p : confines dirs (_find_statepoint p).
Proof.
  intros w. unfold _find_statepoint.
  destruct (fs w !! p); apply confined_refl.
Qed.

Lemma confines_read_statepoint dirs statepoint :
  confines dirs (read_statepoint statepoint).
Proof.
  intros w. unfold read_statepoint. destruct statepoint as [[p name]|];
    [|apply confined_refl].
  destruct (fs w !! p ≫= _) as [[]|]; apply confined_refl.
Qed.

Lemma confines_parse_tape6 dirs p name : confines dirs (parse_tape6 p name).
Proof.
  intros w. unfold parse_tape6.
  destruct (fs w !! p ≫= _) as [[]|]; apply confined_refl.
Qed.

Lemma confines_openmc dirs rc state :
  pwd rc state "omc" ∈ dirs → confines dirs (openmc rc state).
Proof.
  intros Hp. unfold openmc, _make_omc_input, _parse_statepoint, _generate_xs.
  generalize dependent (pwd rc state "omc"). intros p Hp.
  repeat first
    [ apply confines_bind; [|intros ?]
    | apply confines_ensure_dir; exact Hp
    | apply confines_write_file; exact Hp
    | apply confines_check_call; exact Hp
    | apply confines_find_statepoint
    | apply confines_read_statepoint
    | apply confines_gets
    | apply confines_retM
    | apply confines_liftR
    | apply confines_modify; by intros ?
    | match goal with |- confines _ (match ?x with _ => _ end) =>
        destruct x end ].
Qed.

Lemma confines_origen dirs rc state xs t phi_g :
  pwd rc state "origen" ∈ dirs → confines dirs (origen rc state xs t phi_g).
Proof.
  intros Hp. unfold origen, _make_origen_input.
  generalize dependent (pwd rc state "origen"). intros p Hp.
  repeat first
    [ apply confines_bind; [|intros ?]
    | apply confines_ensure_dir; exact Hp
    | apply confines_write_file; exact Hp
    | apply confines_check_call; exact Hp
    | apply confines_parse_tape6
    | apply confines_gets
    | apply confines_liftR ].
Qed.

Lemma confines_generate dirs rc state t :
  pwd rc state "omc" ∈ dirs → pwd rc state "origen" ∈ dirs →
  confines dirs (generate rc state t).
Proof.
  intros Homc Horigen. unfold generate.
  apply confines_bind; [apply confines_gets|]. intros libs.
  destruct (libs !! values state) as [[[k phi_g] xs]|];
    [apply confines_retM|].
  apply confines_bind; [by apply confines_openmc|]. intros [[k phi_g] xs].
  apply confines_bind; [apply confines_modify; by intros ?|]. intros _.
  apply confines_bind; [by apply confines_origen|]. intros mat.
  apply confines_bind; [apply confines_modify; by intros ?|]. intros _.
  apply confines_bind; [apply confines_gets|]. intros fuel.
  apply confines_retM.
Qed.

Lemma confines_generate_run_loop rc run dirs : ∀ rest i run_lib mat_hist,
  run_dirs rc rest ⊆ dirs →
  confines dirs (generate_run_loop rc run i rest run_lib mat_hist).
Proof.
  induction rest as [|state rest IH]; intros i run_lib mat_hist Hsub;
    cbn [generate_run_loop]; [apply confines_retM|].
  apply confines_bind; [apply confines_liftR|]. intros t.
  apply confines_bind.
  { apply confines_generate; apply Hsub; unfold run_dirs; cbn;
      [by left|by right; left]. }
  intros r.
  apply confines_bind; [apply confines_liftR|]. intros [[[k phi_g] xs] mat].
  apply confines_bind; [apply confines_liftR|]. intros t0.
  apply IH. intros p Hp. apply Hsub. unfold run_dirs in *. cbn.
  by do 2 right.
Qed.

(** X22: whatever its outcome, a build writes files and starts processes only
    in the [omc] and [origen] directories of the States of its run, and
    the files of every other directory stay as they are (a process being
    taken to change its working directory only). *)
Theorem generate_run_confined rc run w :
  confined (run_dirs rc run) w (generate_run rc run w).2.
Proof.
  revert w. change (confines (run_dirs rc run) (generate_run rc run)).
  unfold generate_run.
  apply confines_bind; [by apply confines_generate_run_loop|].
  intros [run_lib mat_hist].
  apply confines_bind; [apply confines_liftR|]. intros nucs.
  apply confines_retM.
Qed.

Example generate_run_confined_dirs :
  run_dirs (Stub.rc true) Stub.run1
  = ["build-lwr/6882/omc"; "build-lwr/6882/origen"].
Proof. vm_compute. reflexivity. Qed.
